(** * Verification of [old_data/migrate_old_data.py] (class [OldDataMigrator])

    A shallow embedding of the migration script: the date parser, the
    field mapping, the API submission, the per-source loops and the
    full run, followed by the properties proved about them.

    Conventions of the embedding.
    - Python [str] is [string]; a character is a code point below 256.
    - Python [int] is [Z].
    - A row fetched with a dictionary cursor is a [gmap string value].
    - Dicts whose insertion order is visible (the field mappings, the
      mapped job data, the JSON payload) are association lists.
    - Code that can raise returns a [result]; code that prints, posts
      or updates counters lives in the state monad [M]. *)

From Stdlib Require Import ZArith List String Ascii Bool Lia DecimalString Sorted.
From stdpp Require Import base option list gmap strings sets.

Import ListNotations.
#[local] Set Warnings "-clear-no-such-hyp".
Local Open Scope string_scope.
Local Open Scope list_scope.
Local Open Scope Z_scope.

(** ** Exceptions *)

(** The body of an HTTP response as [requests] exposes it:
    [status_code], [text], and whether [json()] can decode the body. *)
Record response := Response {
  status_code : Z;
  text : string;
  json_ok : bool
}.

(** Subclasses of [requests.exceptions.RequestException] that a call of
    [session.post], [raise_for_status] or [json] raises.  Only
    [HTTPError] carries a response. *)
Inductive request_error :=
| ConnectionError (msg : string)
| Timeout (msg : string)
| HTTPError (r : response)
| JSONDecodeError (msg : string).

Inductive exn :=
| ValueError
| AttributeError (attr : string)
| KeyError (key : string)
| MySQLError (msg : string)
| RequestException (e : request_error)
| SystemExit (code : Z).

Inductive result (A : Type) :=
| Return (a : A)
| Raised (e : exn).
Arguments Return {A} a.
Arguments Raised {A} e.

(** ** Characters and [str.strip] *)

(** [str.isspace] on the code points below 256. *)
Definition isspace (c : ascii) : bool :=
  let n := Z.of_nat (nat_of_ascii c) in
  ((9 <=? n) && (n <=? 13)) || ((28 <=? n) && (n <=? 32))
  || (n =? 133) || (n =? 160).

(** The regular-expression class [\d] on the code points below 256. *)
Definition isdecimal (c : ascii) : bool :=
  let n := Z.of_nat (nat_of_ascii c) in (48 <=? n) && (n <=? 57).

Fixpoint lstrip (s : string) : string :=
  match s with
  | EmptyString => EmptyString
  | String c s' => if isspace c then lstrip s' else s
  end.

Fixpoint rstrip (s : string) : string :=
  match s with
  | EmptyString => EmptyString
  | String c s' =>
      match rstrip s' with
      | EmptyString => if isspace c then EmptyString else String c EmptyString
      | r => String c r
      end
  end.

Definition strip (s : string) : string := rstrip (lstrip s).

(** ** [datetime.date] and [datetime.datetime] *)

Record date := Date { year : Z; month : Z; day : Z }.

Record datetime := Datetime {
  dt_year : Z; dt_month : Z; dt_day : Z;
  dt_hour : Z; dt_minute : Z; dt_second : Z; dt_microsecond : Z
}.

(** [datetime.date()] *)
Definition datetime_date (dt : datetime) : date :=
  Date (dt_year dt) (dt_month dt) (dt_day dt).

Definition is_leap (y : Z) : bool :=
  ((y mod 4 =? 0) && negb (y mod 100 =? 0)) || (y mod 400 =? 0).

Definition days_in_month (y m : Z) : Z :=
  if m =? 2 then (if is_leap y then 29 else 28)
  else if (m =? 4) || (m =? 6) || (m =? 9) || (m =? 11) then 30
  else 31.

(** The check of the [date] constructor: MINYEAR = 1, MAXYEAR = 9999. *)
Definition valid_date (y m d : Z) : bool :=
  (1 <=? y) && (y <=? 9999) && (1 <=? m) && (m <=? 12)
  && (1 <=? d) && (d <=? days_in_month y m).

Definition valid_time (h mi s : Z) : bool :=
  (0 <=? h) && (h <=? 23) && (0 <=? mi) && (mi <=? 59)
  && (0 <=? s) && (s <=? 59).

(** Decimal digits, zero padded: the [%02d] and [%04d] of [isoformat]. *)
Definition digit_char (n : Z) : ascii :=
  ascii_of_nat (48 + Z.to_nat (n mod 10)).

Definition pad2 (n : Z) : string :=
  String (digit_char (n / 10)) (String (digit_char n) EmptyString).

Definition pad4 (n : Z) : string :=
  String (digit_char (n / 1000)) (String (digit_char (n / 100))
    (String (digit_char (n / 10)) (String (digit_char n) EmptyString))).

(** [date.isoformat()] *)
Definition isoformat (d : date) : string :=
  pad4 (year d) +:+ "-" +:+ pad2 (month d) +:+ "-" +:+ pad2 (day d).

(** ** [datetime.strptime]

    CPython turns a format into a regular expression: a directive is
    replaced by a group of alternatives, a run of white space by [\s+],
    every other character stands for itself.  The expression is matched
    at the start of the data with the backtracking of [re.match], the
    whole data has to be consumed, and the fields found are handed to
    the [datetime] constructor.  Every failure is a [ValueError]. *)

Inductive charclass :=
| Digit
| Range (lo hi : ascii)
| Lit (c : ascii).

Definition cc_match (k : charclass) (c : ascii) : bool :=
  match k with
  | Digit => isdecimal c
  | Range lo hi =>
      (nat_of_ascii lo <=? nat_of_ascii c)%nat
      && (nat_of_ascii c <=? nat_of_ascii hi)%nat
  | Lit c' => Ascii.eqb c' c
  end.

Inductive directive := dY | dm | dd | dH | dM | dS.

#[global] Instance directive_eq_dec : EqDecision directive.
Proof. solve_decision. Defined.

(** The alternatives of each directive, in the order of the expression:
    [%Y] is [\d\d\d\d], [%m] is [1[0-2]|0[1-9]|[1-9]],
    [%d] is [3[0-1]|[1-2]\d|0[1-9]|[1-9]| [1-9]],
    [%H] is [2[0-3]|[0-1]\d|\d], [%M] is [[0-5]\d|\d],
    [%S] is [6[0-1]|[0-5]\d|\d]. *)
Definition alternatives (d : directive) : list (list charclass) :=
  match d with
  | dY => [[Digit; Digit; Digit; Digit]]
  | dm => [[Lit "1"; Range "0" "2"]; [Lit "0"; Range "1" "9"]; [Range "1" "9"]]
  | dd => [[Lit "3"; Range "0" "1"]; [Range "1" "2"; Digit];
           [Lit "0"; Range "1" "9"]; [Range "1" "9"]; [Lit " "; Range "1" "9"]]
  | dH => [[Lit "2"; Range "0" "3"]; [Range "0" "1"; Digit]; [Digit]]
  | dM => [[Range "0" "5"; Digit]; [Digit]]
  | dS => [[Lit "6"; Range "0" "1"]; [Range "0" "5"; Digit]; [Digit]]
  end.

Inductive item :=
| IDir (d : directive)
| ILit (c : ascii)
| ISpaces.

Definition directive_of (c : ascii) : option directive :=
  if Ascii.eqb c "Y" then Some dY
  else if Ascii.eqb c "m" then Some dm
  else if Ascii.eqb c "d" then Some dd
  else if Ascii.eqb c "H" then Some dH
  else if Ascii.eqb c "M" then Some dM
  else if Ascii.eqb c "S" then Some dS
  else None.

(** The translation of a format.  [in_space] says that the previous
    character was white space, whose run is one [\s+].  A directive
    other than the six above is outside this model ([None]). *)
Fixpoint compile_format (in_space : bool) (f : string) : option (list item) :=
  match f with
  | EmptyString => Some []
  | String c rest =>
      if Ascii.eqb c "%" then
        match rest with
        | EmptyString => None
        | String k rest' =>
            match directive_of k, compile_format false rest' with
            | Some d, Some its => Some (IDir d :: its)
            | _, _ => None
            end
        end
      else if isspace c then
        match compile_format true rest with
        | Some its => Some (if in_space then its else ISpaces :: its)
        | None => None
        end
      else
        match compile_format false rest with
        | Some its => Some (ILit c :: its)
        | None => None
        end
  end.

(** One alternative against the start of the data: the text it takes
    and what is left. *)
Fixpoint match_seq (cs : list charclass) (s : string) : option (string * string) :=
  match cs with
  | [] => Some (EmptyString, s)
  | k :: cs' =>
      match s with
      | EmptyString => None
      | String c s' =>
          if cc_match k c then
            match match_seq cs' s' with
            | Some (m, r) => Some (String c m, r)
            | None => None
            end
          else None
      end
  end.

Definition captures := list (directive * string).

(** The backtracking match: the alternatives of a directive are tried
    in order and the next one is taken when the rest of the expression
    fails; [\s+] takes as much white space as it can and gives back one
    character at a time. *)
Fixpoint match_items (its : list item) (s : string) (caps : captures)
  : option (captures * string) :=
  match its with
  | [] => Some (caps, s)
  | ILit c :: its' =>
      match s with
      | EmptyString => None
      | String c' s' => if Ascii.eqb c c' then match_items its' s' caps else None
      end
  | IDir d :: its' =>
      (fix try_alts (alts : list (list charclass)) : option (captures * string) :=
         match alts with
         | [] => None
         | a :: alts' =>
             match match_seq a s with
             | Some (m, r) =>
                 match match_items its' r ((d, m) :: caps) with
                 | Some res => Some res
                 | None => try_alts alts'
                 end
             | None => try_alts alts'
             end
         end) (alternatives d)
  | ISpaces :: its' =>
      (fix spaces (s0 : string) : option (captures * string) :=
         match s0 with
         | EmptyString => None
         | String c s1 =>
             if isspace c then
               match spaces s1 with
               | Some res => Some res
               | None => match_items its' s1 caps
               end
             else None
         end) s
  end.

(** [int] of the text of a group: decimal digits, a leading blank of
    [%d] ignored. *)
Definition int_of (s : string) : Z :=
  fold_left
    (fun acc c =>
       if isdecimal c then 10 * acc + (Z.of_nat (nat_of_ascii c) - 48) else acc)
    (list_ascii_of_string s) 0.

Definition capture (caps : captures) (d : directive) (default : Z) : Z :=
  match find (fun p => bool_decide (fst p = d)) caps with
  | Some (_, m) => int_of m
  | None => default
  end.

Definition strptime (data_string format : string) : result datetime :=
  match compile_format false format with
  | None => Raised ValueError
  | Some its =>
      match match_items its data_string [] with
      | None => Raised ValueError
      | Some (caps, rest) =>
          match rest with
          | String _ _ => Raised ValueError
          | EmptyString =>
              let y := capture caps dY 1900 in
              let m := capture caps dm 1 in
              let d := capture caps dd 1 in
              let h := capture caps dH 0 in
              let mi := capture caps dM 0 in
              let s := capture caps dS 0 in
              if valid_date y m d && valid_time h mi s
              then Return (Datetime y m d h mi s 0)
              else Raised ValueError
          end
      end
  end.

(** ** Values of a fetched row *)

Inductive value :=
| VNone
| VStr (s : string)
| VInt (n : Z)
| VDate (d : date)
| VDatetime (dt : datetime).

(** Python truth value. *)
Definition truthy (v : value) : bool :=
  match v with
  | VNone => false
  | VStr s => negb (String.eqb s EmptyString)
  | VInt n => negb (n =? 0)
  | VDate _ | VDatetime _ => true
  end.

(** ** [OldDataMigrator._parse_date] *)

Definition formats : list string :=
  ["%Y-%m-%d"; "%Y/%m/%d"; "%d.%m.%Y"; "%d/%m/%Y";
   "%Y-%m-%d %H:%M:%S"; "%Y/%m/%d %H:%M:%S"].

(** [for fmt in formats: try: return strptime(...).date()
     except ValueError: continue], then [return None]. *)
Fixpoint try_formats (data : string) (fmts : list string) : result (option date) :=
  match fmts with
  | [] => Return None
  | fmt :: fmts' =>
      match strptime data fmt with
      | Return dt => Return (Some (datetime_date dt))
      | Raised ValueError => try_formats data fmts'
      | Raised e => Raised e
      end
  end.

(** [date_str.strip()]: only a [str] has the method. *)
Definition value_strip (v : value) : result string :=
  match v with
  | VStr s => Return (strip s)
  | _ => Raised (AttributeError "strip")
  end.

Definition _parse_date (date_str : value) : result (option date) :=
  if negb (truthy date_str) then Return None
  else
    match value_strip date_str with
    | Raised e => Raised e
    | Return stripped =>
        if String.eqb stripped EmptyString then Return None
        else
          match value_strip date_str with
          | Raised e => Raised e
          | Return data => try_formats data formats
          end
    end.

(** ** Ordered dictionaries *)

Definition dict (V : Type) := list (string * V).

Fixpoint dict_get {V} (k : string) (d : dict V) : option V :=
  match d with
  | [] => None
  | (k', v) :: d' => if String.eqb k k' then Some v else dict_get k d'
  end.

(** [d[k] = v]: an existing key keeps its place, a new one goes last. *)
Fixpoint dict_set {V} (k : string) (v : V) (d : dict V) : dict V :=
  match d with
  | [] => [(k, v)]
  | (k', v') :: d' =>
      if String.eqb k k' then (k', v) :: d' else (k', v') :: dict_set k v d'
  end.

(** The entries of [extra] assigned into [d], in order. *)
Definition dict_update {V} (d extra : dict V) : dict V :=
  fold_left (fun acc kv => dict_set (fst kv) (snd kv) acc) extra d.

(** ** Static configuration *)

Definition COMPANY_MAPPING : dict string :=
  [("kls", "KLS"); ("ks", "KarlStorz")].

Definition HIDDEN_COMPANIES : gset string :=
  {[ "Europapark"; "KarlsStorz"; "Schwer" ]}.

Definition FIELD_MAPPINGS : dict (dict string) :=
  [("bbraun",
    [("JobID", "job_id"); ("Title", "title"); ("urlTitle", "url_title");
     ("Function", "function"); ("Level", "level");
     ("WorkLocation", "work_location");
     ("WorkLocationShort", "work_location_short");
     ("WorkLocationWithCoordinates", "work_location_with_coordinates");
     ("CoordinatesPrimary", "coordinates_primary"); ("Country", "country");
     ("currency", "currency"); ("supportedLocales", "supported_locales");
     ("unifiedUrlTitle", "unified_url_title");
     ("unifiedStandardEnd", "unified_standard_end");
     ("unifiedStandardStart", "unified_standard_start");
     ("DateAdded", "date_added")]);
   ("ep",
    [("URL", "url"); ("Title", "title"); ("Function", "function");
     ("WorkLocation", "work_location"); ("ContractType", "contract_type");
     ("Company", "department"); ("ContactPerson", "contact_person");
     ("ContactEmail", "contact_email"); ("ContactPhone", "contact_phone");
     ("Description", "description"); ("Offerings", "offerings");
     ("Tasks", "tasks"); ("Qualifications", "qualifications");
     ("DateAdded", "date_added")]);
   ("kauth",
    [("Title", "title"); ("JobID", "job_id"); ("URL", "url");
     ("city", "work_location_short"); ("Contract_Type", "contract_type");
     ("Flexibility", "flexibility"); ("Work_Location", "work_location");
     ("Job_Level", "level"); ("ContactPerson", "contact_person");
     ("ContactPosition", "description"); ("DateAdded", "date_added")]);
   ("kls",
    [("Title", "title"); ("Function", "function"); ("Level", "level");
     ("WorkLocation", "work_location"); ("Flexibility", "flexibility");
     ("JobID", "job_id"); ("ContractType", "contract_type");
     ("ContactPerson", "contact_person"); ("Offerings", "offerings");
     ("Tasks", "tasks"); ("Qualifications", "qualifications");
     ("DateAdded", "date_added")]);
   ("ks",
    [("Title", "title"); ("URL", "url"); ("Function", "function");
     ("Level", "level"); ("WorkLocation", "work_location");
     ("Flexibility", "flexibility");
     ("CompanyLocation", "work_location_short");
     ("DetailLocation", "all_locations"); ("JobID", "job_id");
     ("PayRange", "keywords"); ("DateAdded", "date_added")]);
   ("schwer",
    [("JobID", "job_id"); ("Title", "title");
     ("ContractType", "contract_type"); ("Level", "level");
     ("Keywords", "keywords"); ("Description", "description");
     ("WorkLocation", "work_location"); ("AllLocations", "all_locations");
     ("Flexibility", "flexibility"); ("Department", "department");
     ("Company", "contact_person"); ("DateAdded", "date_added")]);
   ("trelectronic",
    [("Title", "title"); ("JobID", "job_id"); ("URL", "url");
     ("city", "work_location_short"); ("Contract_Type", "contract_type");
     ("Flexibility", "flexibility"); ("Work_Location", "work_location");
     ("Job_Level", "level"); ("ContactPerson", "contact_person");
     ("ContactPosition", "description"); ("DateAdded", "date_added")])].

(** ** [str(value)] *)

Definition str_of_int (n : Z) : string :=
  NilZero.string_of_int (Z.to_int n).

Definition pad6 (n : Z) : string :=
  String (digit_char (n / 100000)) (String (digit_char (n / 10000))
    (pad4 n)).

(** [str] of a [datetime]: [isoformat(sep=' ')], the microseconds only
    when they are not zero. *)
Definition datetime_str (dt : datetime) : string :=
  isoformat (datetime_date dt) +:+ " " +:+ pad2 (dt_hour dt) +:+ ":"
  +:+ pad2 (dt_minute dt) +:+ ":" +:+ pad2 (dt_second dt)
  +:+ (if dt_microsecond dt =? 0 then "" else "." +:+ pad6 (dt_microsecond dt)).

Definition str (v : value) : string :=
  match v with
  | VNone => "None"
  | VStr s => s
  | VInt n => str_of_int n
  | VDate d => isoformat d
  | VDatetime dt => datetime_str dt
  end.

(** ** [OldDataMigrator.map_job_fields] *)

(** A value of the mapped job data and of the JSON payload. *)
Inductive jvalue :=
| JStr (s : string)
| JBool (b : bool)
| JNone.

Definition is_JNone (v : jvalue) : bool :=
  match v with JNone => true | _ => false end.

Definition is_VNone (v : value) : bool :=
  match v with VNone => true | _ => false end.

(** [isinstance(value, (str, datetime))] *)
Definition is_str_or_datetime (v : value) : bool :=
  match v with VStr _ | VDatetime _ => true | _ => false end.

Abbreviation row := (gmap string value).

(** The body of the loop over [field_mapping.items()]. *)
Definition map_field (old_row : row) (new_data : dict jvalue)
    (old_field new_field : string) : result (dict jvalue) :=
  match old_row !! old_field with
  | None => Return new_data
  | Some value =>
      if is_VNone value then Return new_data
      else if String.eqb new_field "date_added" && is_str_or_datetime value then
        match value with
        | VStr _ =>
            match _parse_date value with
            | Raised e => Raised e
            | Return (Some parsed) =>
                Return (dict_set new_field (JStr (isoformat parsed)) new_data)
            | Return None => Return new_data
            end
        | VDatetime dt =>
            Return (dict_set new_field (JStr (isoformat (datetime_date dt))) new_data)
        | _ => Return new_data
        end
      else
        Return (dict_set new_field
                  (if is_VNone value then JNone else JStr (str value)) new_data)
  end.

Fixpoint map_fields (old_row : row) (field_mapping : dict string)
    (new_data : dict jvalue) : result (dict jvalue) :=
  match field_mapping with
  | [] => Return new_data
  | (old_field, new_field) :: rest =>
      match map_field old_row new_data old_field new_field with
      | Raised e => Raised e
      | Return new_data' => map_fields old_row rest new_data'
      end
  end.

Definition map_job_fields (company_prefix : string) (old_row : row)
  : result (dict jvalue) :=
  let field_mapping := default [] (dict_get company_prefix FIELD_MAPPINGS) in
  map_fields old_row field_mapping [].

(** ** Equality and counting of row values

    [processed_jobs] is a set of row values.  On the values modelled
    here Python's [==] and [hash] agree with structural equality. *)

#[global] Instance date_eq_dec : EqDecision date.
Proof. solve_decision. Defined.

#[global] Instance datetime_eq_dec : EqDecision datetime.
Proof. solve_decision. Defined.

#[global] Instance value_eq_dec : EqDecision value.
Proof. solve_decision. Defined.

#[global] Instance date_countable : Countable date.
Proof.
  refine (inj_countable' (fun d => (year d, month d, day d))
            (fun t => Date t.1.1 t.1.2 t.2) _).
  intros []. reflexivity.
Defined.

#[global] Instance datetime_countable : Countable datetime.
Proof.
  refine (inj_countable'
            (fun dt => (dt_year dt, dt_month dt, dt_day dt, dt_hour dt,
                        dt_minute dt, dt_second dt, dt_microsecond dt))
            (fun t => Datetime t.1.1.1.1.1.1 t.1.1.1.1.1.2 t.1.1.1.1.2
                        t.1.1.1.2 t.1.1.2 t.1.2 t.2) _).
  intros []. reflexivity.
Defined.

#[global] Instance value_countable : Countable value.
Proof.
  refine (inj_countable'
            (fun v => match v with
                      | VNone => inl (inl ())
                      | VStr s => inl (inr s)
                      | VInt n => inr (inl n)
                      | VDate d => inr (inr (inl d))
                      | VDatetime dt => inr (inr (inr dt))
                      end)
            (fun t => match t with
                      | inl (inl _) => VNone
                      | inl (inr s) => VStr s
                      | inr (inl n) => VInt n
                      | inr (inr (inl d)) => VDate d
                      | inr (inr (inr dt)) => VDatetime dt
                      end) _).
  intros []; reflexivity.
Defined.

(** ** The migrator's state and its surroundings *)

Definition payload := dict jvalue.

Record company_stats := CompanyStats {
  cs_jobs : Z; cs_dates : Z; cs_errors : Z
}.

(** [self.stats] *)
Record run_stats := RunStats {
  total_jobs : Z;
  total_dates : Z;
  stats_errors : Z;
  by_company : dict company_stats
}.

(** The lines the script prints, by the statement that prints them. *)
Inductive event :=
| PrintConnected
| PrintConnectError (msg : string)
| PrintBanner (company_name : string)
| PrintSkip (scrape_date_str : value)
| PrintInsertError (e : request_error)
| PrintResponse (body : string)
| PrintProgress (jobs dates : Z)
| PrintCompleted (jobs dates errs : Z)
| PrintMigrateError (company_prefix : string) (e : exn)
| PrintTraceback (e : exn)
| PrintSummary (s : run_stats).

Inductive conn_state := NotConnected | Open | Closed.

(** The local variables of [migrate_company]. *)
Record locals := Locals {
  jobs_migrated : Z;
  dates_migrated : Z;
  errors : Z;
  processed_jobs : gset value
}.

Record state := State {
  stats : run_stats;
  stdout : list event;
  posted : list (string * payload);
  conn : conn_state;
  loc : locals
}.

Inductive api_result :=
| Fails (e : request_error)
| Responds (r : response).

(** What [cursor.execute] and [cursor.fetchall] give: the rows, or a
    [mysql.connector.Error]. *)
Inductive fetched :=
| Rows (rs : list row)
| DbError (msg : string).

(** What the script reads from outside.  [api_url] is [self.api_url];
    [api n p] is the answer to the request number [n] with body [p];
    [today] is [date.today()], the same during one run;
    [fromisoformat] is [datetime.fromisoformat] with every exception
    turned into [None]; [db_connect] is the error of
    [mysql.connector.connect], if any; the two queries are given the
    names of the dates table and of the listings table. *)
Record env := Env {
  api_url : string;
  api : nat -> payload -> api_result;
  today : date;
  fromisoformat : string -> option datetime;
  db_connect : option string;
  fetch_join : string -> string -> fetched;
  fetch_no_dates : string -> string -> fetched
}.

(** ** The monad of statements *)

Inductive outcome (A : Type) :=
| Normal (a : A)
| Continue
| Raise (e : exn).
Arguments Normal {A} a.
Arguments Continue {A}.
Arguments Raise {A} e.

Definition M (A : Type) := state -> outcome A * state.

Definition ret {A} (a : A) : M A := fun st => (Normal a, st).

Definition bind {A B} (m : M A) (k : A -> M B) : M B :=
  fun st =>
    match m st with
    | (Normal a, st') => k a st'
    | (Continue, st') => (Continue, st')
    | (Raise e, st') => (Raise e, st')
    end.

Declare Scope py_scope.
Delimit Scope py_scope with py.
Notation "x <- m ;; k" := (bind m (fun x => k))
  (at level 100, m at next level, right associativity) : py_scope.
Notation "m ;; k" := (bind m (fun _ => k))
  (at level 100, right associativity) : py_scope.
Local Open Scope py_scope.

Definition raise {A} (e : exn) : M A := fun st => (Raise e, st).

(** The statement [continue]. *)
Definition continue_ {A} : M A := fun st => (Continue, st).

Definition lift {A} (r : result A) : M A :=
  match r with
  | Return a => ret a
  | Raised e => raise e
  end.

Definition fetchall (f : fetched) : M (list row) :=
  match f with
  | Rows rs => ret rs
  | DbError msg => raise (MySQLError msg)
  end.

Definition print (e : event) : M unit :=
  fun st => (Normal tt,
             State (stats st) (stdout st ++ [e]) (posted st) (conn st) (loc st)).

Definition get_loc : M locals := fun st => (Normal (loc st), st).

Definition set_loc (l : locals) : M unit :=
  fun st => (Normal tt, State (stats st) (stdout st) (posted st) (conn st) l).

Definition get_stats : M run_stats := fun st => (Normal (stats st), st).

Definition set_stats (s : run_stats) : M unit :=
  fun st => (Normal tt, State s (stdout st) (posted st) (conn st) (loc st)).

Definition set_conn (c : conn_state) : M unit :=
  fun st => (Normal tt, State (stats st) (stdout st) (posted st) c (loc st)).

(** [try: body except <catches> as e: handler e] *)
Definition try_except {A} (body : M A) (catches : exn -> bool)
    (handler : exn -> M A) : M A :=
  fun st =>
    match body st with
    | (Raise e, st') => if catches e then handler e st' else (Raise e, st')
    | r => r
    end.

(** [try: body finally: final] *)
Definition try_finally {A} (body : M A) (final : M unit) : M A :=
  fun st =>
    match body st with
    | (o, st') =>
        match final st' with
        | (Normal _, st'') => (o, st'')
        | (Continue, st'') => (Continue, st'')
        | (Raise e, st'') => (Raise e, st'')
        end
    end.

(** [for x in xs: body x] *)
Fixpoint for_each {X} (xs : list X) (body : X -> M unit) : M unit :=
  match xs with
  | [] => ret tt
  | x :: xs' =>
      fun st =>
        match body x st with
        | (Normal _, st') | (Continue, st') => for_each xs' body st'
        | (Raise e, st') => (Raise e, st')
        end
  end.

Definition is_RequestException (e : exn) : bool :=
  match e with RequestException _ => true | _ => false end.

Definition is_MySQLError (e : exn) : bool :=
  match e with MySQLError _ => true | _ => false end.

(** [except Exception]: [SystemExit] is not an [Exception]. *)
Definition is_Exception (e : exn) : bool :=
  match e with SystemExit _ => false | _ => true end.

(** ** [OldDataMigrator.insert_job_via_api] *)

(** [self.session.post(url, json=payload)] *)
Definition session_post (E : env) (url : string) (p : payload) : M response :=
  fun st =>
    let n := length (posted st) in
    let st' := State (stats st) (stdout st) (posted st ++ [(url, p)])
                 (conn st) (loc st) in
    match api E n p with
    | Fails e => (Raise (RequestException e), st')
    | Responds r => (Normal r, st')
    end.

(** [response.raise_for_status()]: an [HTTPError] for 4xx and 5xx. *)
Definition raise_for_status (r : response) : M unit :=
  if ((400 <=? status_code r) && (status_code r <? 500))
     || ((500 <=? status_code r) && (status_code r <? 600))
  then raise (RequestException (HTTPError r))
  else ret tt.

(** [response.json()] *)
Definition response_json (r : response) : M unit :=
  if json_ok r then ret tt
  else raise (RequestException (JSONDecodeError (text r))).

(** [e.response] *)
Definition error_response (e : request_error) : option response :=
  match e with
  | HTTPError r => Some r
  | _ => None
  end.

Definition build_payload (company_name : string) (job_data : dict jvalue)
    (scrape_date : date) : payload :=
  let is_hidden := bool_decide (company_name ∈ HIDDEN_COMPANIES) in
  let payload :=
    dict_update [("company_name", JStr company_name);
                 ("hidden", JBool is_hidden);
                 ("scrape_date", JStr (isoformat scrape_date))] job_data in
  List.filter (fun kv => negb (is_JNone (snd kv))) payload.

Definition insert_job_via_api (E : env) (company_name : string)
    (job_data : dict jvalue) (scrape_date : date) : M bool :=
  let url := api_url E +:+ "/api/jobs" in
  let payload := build_payload company_name job_data scrape_date in
  try_except
    (response <- session_post E url payload ;;
     raise_for_status response ;;
     response_json response ;;
     ret true)
    is_RequestException
    (fun e =>
       match e with
       | RequestException e =>
           print (PrintInsertError e) ;;
           match error_response e with
           | Some r => print (PrintResponse (text r))
           | None => ret tt
           end ;;
           ret false
       | _ => raise e
       end).

(** ** [OldDataMigrator.migrate_company] *)

(** [row.get(key)] *)
Definition row_get (r : row) (key : string) : value :=
  default VNone (r !! key).

(** [row[key]] *)
Definition row_index (r : row) (key : string) : result value :=
  match r !! key with
  | Some v => Return v
  | None => Raised (KeyError key)
  end.

Definition jtruthy (v : jvalue) : bool :=
  match v with
  | JStr s => negb (String.eqb s EmptyString)
  | JBool b => b
  | JNone => false
  end.

(** [datetime.fromisoformat(v).date()] under a bare [except]. *)
Definition try_fromisoformat (E : env) (v : jvalue) : option date :=
  match v with
  | JStr s => datetime_date <$> fromisoformat E s
  | _ => None
  end.

(** [if success: dates_migrated += 1 else: errors += 1] *)
Definition count_locals (success : bool) (l : locals) : locals :=
  if success
  then Locals (jobs_migrated l) (dates_migrated l + 1) (errors l)
         (processed_jobs l)
  else Locals (jobs_migrated l) (dates_migrated l) (errors l + 1)
         (processed_jobs l).

(** [if job_id not in processed_jobs: jobs_migrated += 1;
     processed_jobs.add(job_id)] *)
Definition track_job (job_id : value) (l : locals) : locals :=
  if bool_decide (job_id ∉ processed_jobs l)
  then Locals (jobs_migrated l + 1) (dates_migrated l) (errors l)
         ({[job_id]} ∪ processed_jobs l)
  else l.

(** [jobs_migrated += 1] *)
Definition count_job (l : locals) : locals :=
  Locals (jobs_migrated l + 1) (dates_migrated l) (errors l)
    (processed_jobs l).

Definition update_loc (f : locals -> locals) : M unit :=
  l <- get_loc ;; set_loc (f l).

(** The body of [for row in all_rows], the statements after
    [continue] included. *)
Definition join_body (E : env) (company_prefix company_name : string)
    (r : row) : M unit :=
  job_data <- lift (map_job_fields company_prefix r) ;;
  let scrape_date_str := row_get r "ScrapeDate" in
  scrape_date <- (if truthy scrape_date_str
                  then lift (_parse_date scrape_date_str)
                  else ret None) ;;
  scrape_date <-
    match scrape_date with
    | Some d => ret d
    | None =>
        print (PrintSkip scrape_date_str) ;;
        @continue_ unit ;;
        match dict_get "date_added" job_data with
        | Some v =>
            if jtruthy v
            then ret (default (today E) (try_fromisoformat E v))
            else ret (today E)
        | None => ret (today E)
        end
    end ;;
  success <- insert_job_via_api E company_name job_data scrape_date ;;
  update_loc (count_locals success) ;;
  job_id <- lift (row_index r "id") ;;
  update_loc (track_job job_id) ;;
  l <- get_loc ;;
  if dates_migrated l mod 50 =? 0
  then print (PrintProgress (jobs_migrated l) (dates_migrated l))
  else ret tt.

(** The body of [for row in jobs_without_dates]. *)
Definition no_dates_body (E : env) (company_prefix company_name : string)
    (r : row) : M unit :=
  job_data <- lift (map_job_fields company_prefix r) ;;
  let scrape_date := today E in
  let scrape_date :=
    match dict_get "date_added" job_data with
    | Some v =>
        if jtruthy v
        then default scrape_date (try_fromisoformat E v)
        else scrape_date
    | None => scrape_date
    end in
  success <- insert_job_via_api E company_name job_data scrape_date ;;
  update_loc (count_locals success) ;;
  update_loc count_job.

(** [self.COMPANY_MAPPING[company_prefix]] *)
Definition company_of (company_prefix : string) : result string :=
  match dict_get company_prefix COMPANY_MAPPING with
  | Some name => Return name
  | None => Raised (KeyError company_prefix)
  end.

Definition migrate_company (E : env) (company_prefix : string) : M unit :=
  company_name <- lift (company_of company_prefix) ;;
  let listings_table := "jobs_" +:+ company_prefix +:+ "_listings" in
  let dates_table := "jobs_" +:+ company_prefix +:+ "_dates" in
  print (PrintBanner company_name) ;;
  all_rows <- fetchall (fetch_join E dates_table listings_table) ;;
  jobs_without_dates <- fetchall (fetch_no_dates E dates_table listings_table) ;;
  set_loc (Locals 0 0 0 ∅) ;;
  for_each all_rows (join_body E company_prefix company_name) ;;
  for_each jobs_without_dates (no_dates_body E company_prefix company_name) ;;
  l <- get_loc ;;
  print (PrintCompleted (jobs_migrated l) (dates_migrated l) (errors l)) ;;
  s <- get_stats ;;
  set_stats
    (RunStats (total_jobs s + jobs_migrated l)
       (total_dates s + dates_migrated l)
       (stats_errors s + errors l)
       (dict_set company_name
          (CompanyStats (jobs_migrated l) (dates_migrated l) (errors l))
          (by_company s))).

(** ** [connect_db], [migrate_all] and the exit status *)

(** [mysql.connector.connect] with [self.db_config], and the line
    printed after it. *)
Definition mysql_connect (E : env) : M unit :=
  match db_connect E with
  | Some msg => raise (MySQLError msg)
  | None => set_conn Open ;; print PrintConnected
  end.

Definition connect_db (E : env) : M unit :=
  try_except (mysql_connect E) is_MySQLError
    (fun err =>
       match err with
       | MySQLError msg => print (PrintConnectError msg) ;; raise (SystemExit 1)
       | _ => raise err
       end).

Definition print_summary : M unit :=
  s <- get_stats ;; print (PrintSummary s).

Definition migrate_all (E : env) : M unit :=
  connect_db E ;;
  try_finally
    (for_each (map fst COMPANY_MAPPING)
       (fun company_prefix =>
          try_except (migrate_company E company_prefix) is_Exception
            (fun e =>
               print (PrintMigrateError company_prefix e) ;;
               print (PrintTraceback e))))
    (set_conn Closed) ;;
  print_summary.

(** [__init__]: the counters start at zero, nothing printed or sent. *)
Definition initial_state : state :=
  State (RunStats 0 0 0 []) [] [] NotConnected (Locals 0 0 0 ∅).

(** The exit status of the process that runs [main]: 0 when
    [migrate_all] returns, the code of [sys.exit], 1 for any other
    exception that reaches the top. *)
Definition exit_status (o : outcome unit) : Z :=
  match o with
  | Normal _ | Continue => 0
  | Raise (SystemExit code) => code
  | Raise _ => 1
  end.

Definition main (E : env) : Z * state :=
  let (o, st) := migrate_all E initial_state in (exit_status o, st).

(** * Notions used to state the properties *)

(** The date of a pattern that matches: [strptime] returns on it. *)
Definition accepts (data pattern : string) : option date :=
  match strptime data pattern with
  | Return dt => Some (datetime_date dt)
  | Raised _ => None
  end.

(** The six patterns of the specification, in its order:
    YYYY-MM-DD, YYYY/MM/DD, DD.MM.YYYY, DD/MM/YYYY,
    YYYY-MM-DD HH:MM:SS, YYYY/MM/DD HH:MM:SS. *)
Definition spec_patterns : list string :=
  ["%Y-%m-%d"; "%Y/%m/%d"; "%d.%m.%Y"; "%d/%m/%Y";
   "%Y-%m-%d %H:%M:%S"; "%Y/%m/%d %H:%M:%S"].

Definition matches (data pattern : string) : bool :=
  match accepts data pattern with
  | Some _ => true
  | None => false
  end.

(** The date of the first pattern of [pats] that matches [data]. *)
Definition first_match (data : string) (pats : list string) : option date :=
  match List.find (matches data) pats with
  | Some p => accepts data p
  | None => None
  end.

(** The parser as the specification words it. *)
Definition parse_date_spec (s : string) : option date :=
  if String.eqb (strip s) EmptyString then None
  else first_match (strip s) spec_patterns.

(** The source columns and target names configured for a source. *)
Definition field_mapping_of (company_prefix : string) : dict string :=
  default [] (dict_get company_prefix FIELD_MAPPINGS).

(** What one entry of the mapping may add to the mapped data. *)
Definition emitted_by (old_row : row) (old_field : string) (v : jvalue) : Prop :=
  (exists s, v = JStr s)
  /\ exists x, old_row !! old_field = Some x /\ x <> VNone.

(** The event date of a join row, as the loop computes it from the
    row's [ScrapeDate]. *)
Definition row_date (r : row) : result (option date) :=
  let scrape_date_str := row_get r "ScrapeDate" in
  if truthy scrape_date_str then _parse_date scrape_date_str else Return None.

(** The date of a join row whose [ScrapeDate] parses. *)
Definition dated (r : row) : option date :=
  match row_date r with
  | Return (Some d) => Some d
  | _ => None
  end.

(** The mapped fields of a row (field mapping always returns, see
    [map_job_fields_returns]). *)
Definition job_data_of (company_prefix : string) (r : row) : dict jvalue :=
  match map_job_fields company_prefix r with
  | Return job_data => job_data
  | Raised _ => []
  end.

(** The request sent for a row with event date [d]. *)
Definition request_of (E : env) (company_prefix company_name : string)
    (rd : row * date) : string * payload :=
  (api_url E +:+ "/api/jobs",
   build_payload company_name (job_data_of company_prefix (fst rd)) (snd rd)).

(** The join rows that get submitted, each with its event date. *)
Definition submitted_rows (rows : list row) : list (row * date) :=
  omap (fun r => match dated r with Some d => Some (r, d) | None => None end) rows.

(** A join row on which the loop body does not raise: its [ScrapeDate]
    is a [str] or is false, and a row that is submitted has an [id]. *)
Definition row_wf (r : row) : Prop :=
  match row_date r with
  | Raised _ => False
  | Return None => True
  | Return (Some _) => is_Some (r !! "id")
  end.

(** The rows of the listing [i], and the other rows. *)
Definition has_id (i : value) (r : row) : Prop := r !! "id" = Some i.

#[global] Instance has_id_dec i r : Decision (has_id i r).
Proof. unfold has_id. apply _. Defined.

(** The event date of a listing without date-events, as the
    specification words it: the mapped [date_added] when present and
    parseable as an ISO date, the current date otherwise. *)
Definition dateless_date (E : env) (job_data : dict jvalue) : date :=
  match dict_get "date_added" job_data with
  | Some (JStr s) =>
      match fromisoformat E s with
      | Some dt => datetime_date dt
      | None => today E
      end
  | _ => today E
  end.

(** The counter of unique listings counts the set of listings seen. *)
Definition jobs_counted (l : locals) : Prop :=
  jobs_migrated l = Z.of_nat (size (processed_jobs l)).

(** What [insert_job_via_api] returns and prints for an answer of the
    API (proved in [insert_job_via_api_eq]). *)
Definition insert_outcome (a : api_result) : bool * list event :=
  match a with
  | Fails e =>
      (false,
       PrintInsertError e ::
       match error_response e with
       | Some r => [PrintResponse (text r)]
       | None => []
       end)
  | Responds r =>
      if ((400 <=? status_code r) && (status_code r <? 500))
         || ((500 <=? status_code r) && (status_code r <? 600))
      then (false, [PrintInsertError (HTTPError r); PrintResponse (text r)])
      else if json_ok r then (true, [])
      else (false, [PrintInsertError (JSONDecodeError (text r))])
  end.

(** The state after a request [req] that printed [out] and left the
    local variables [l]. *)
Definition after_request (st : state) (req : string * payload)
    (out : list event) (l : locals) : state :=
  State (stats st) (stdout st ++ out) (posted st ++ [req]) (conn st) l.

(** The progress line of the join loop. *)
Definition progress_line (l : locals) : list event :=
  if dates_migrated l mod 50 =? 0
  then [PrintProgress (jobs_migrated l) (dates_migrated l)]
  else [].

(** A small environment and a few rows on which the statements are
    exercised: the API answers 201 with a JSON body, except for the
    request number 1, answered 500; the stand-in for [fromisoformat]
    reads the ten-character form YYYY-MM-DD. *)
Definition sample_api (n : nat) (p : payload) : api_result :=
  if (n =? 1)%nat then Responds (Response 500 "Internal Server Error" false)
  else Responds (Response 201 "{}" true).

Definition sample_fromisoformat (s : string) : option datetime :=
  if (String.length s =? 10)%nat then
    match strptime s "%Y-%m-%d" with
    | Return dt => Some dt
    | Raised _ => None
    end
  else None.

Definition row_a1 : row :=
  {[ "id" := VInt 1; "JobID" := VStr "42"; "Title" := VStr "Engineer";
     "ScrapeDate" := VStr "2023-01-15" ]}.

Definition row_a2 : row :=
  {[ "id" := VInt 1; "JobID" := VStr "42"; "Title" := VStr "Engineer";
     "ScrapeDate" := VStr "16.01.2023" ]}.

Definition row_b1 : row :=
  {[ "id" := VInt 2; "JobID" := VStr "43"; "Title" := VStr "Buyer";
     "ScrapeDate" := VStr "next week" ]}.

Definition row_c : row :=
  {[ "id" := VInt 3; "Title" := VStr "Clerk"; "DateAdded" := VStr "1.2.2023" ]}.

Definition row_d : row :=
  {[ "id" := VInt 4; "Title" := VStr "Driver" ]}.

Definition sample_env : env :=
  Env "http://localhost:8000" sample_api (Date 2024 5 17)
    sample_fromisoformat None
    (fun _ _ => Rows [row_a1; row_a2; row_b1])
    (fun _ _ => Rows [row_c; row_d]).

(** An answer that counts as a failed submission: the request failed at the
    network level, or came back with a 4xx or 5xx status. *)
Definition is_api_error (a : api_result) : bool :=
  match a with
  | Fails _ => true
  | Responds r => (400 <=? status_code r) && (status_code r <? 600)
  end.

(** The lines logged for it: the error, and the body of the response
    when the error carries one. *)
Definition error_lines (a : api_result) : list event :=
  match a with
  | Fails e =>
      PrintInsertError e ::
      match error_response e with
      | Some r => [PrintResponse (text r)]
      | None => []
      end
  | Responds r => [PrintInsertError (HTTPError r); PrintResponse (text r)]
  end.

(** An answer with a 2xx status whose body [json()] cannot decode. *)
Definition is_undecodable_2xx (a : api_result) : bool :=
  match a with
  | Fails _ => false
  | Responds r =>
      (200 <=? status_code r) && (status_code r <? 300) && negb (json_ok r)
  end.

(** An API that answers every request with 300 and a JSON body. *)
Definition env_300 : env :=
  Env "http://localhost:8000"
    (fun _ _ => Responds (Response 300 "{}" true))
    (Date 2024 5 17) sample_fromisoformat None
    (fun _ _ => Rows [row_a1]) (fun _ _ => Rows []).

(** An API whose answers have a 200 status and a body that is not
    JSON. *)
Definition env_html : env :=
  Env "http://localhost:8000"
    (fun _ _ => Responds (Response 200 "<html>ok</html>" false))
    (Date 2024 5 17) sample_fromisoformat None
    (fun _ _ => Rows [row_a1]) (fun _ _ => Rows [row_d]).

(** Two runs read the same data: the same rows from both queries, the
    same URL, the same current date and the same [fromisoformat].  The
    answers of the API are left free. *)
Definition same_data (E1 E2 : env) : Prop :=
  api_url E1 = api_url E2
  /\ today E1 = today E2
  /\ (forall s, fromisoformat E1 s = fromisoformat E2 s)
  /\ (forall d l, fetch_join E1 d l = fetch_join E2 d l)
  /\ (forall d l, fetch_no_dates E1 d l = fetch_no_dates E2 d l).

(** The sample data read on the day [d]. *)
Definition env_on (d : date) : env :=
  Env "http://localhost:8000" sample_api d sample_fromisoformat None
    (fun _ _ => Rows [row_a1]) (fun _ _ => Rows [row_d]).

(** The same, with an API that cannot be reached. *)
Definition env_down (d : date) : env :=
  Env "http://localhost:8000"
    (fun _ _ => Fails (ConnectionError "connection refused"))
    d sample_fromisoformat None
    (fun _ _ => Rows [row_a1]) (fun _ _ => Rows [row_d]).

(** The state in which [migrate_company] starts its loops: the banner
    printed, the local variables fresh. *)
Definition start_source (company_name : string) (st : state) : state :=
  State (stats st) (stdout st ++ [PrintBanner company_name]) (posted st)
    (conn st) (Locals 0 0 0 ∅).

(** The state after the banner alone. *)
Definition banner_printed (company_name : string) (st : state) : state :=
  State (stats st) (stdout st ++ [PrintBanner company_name]) (posted st)
    (conn st) (loc st).

(** The end of [migrate_company]: the line of the source and the
    counters merged into [self.stats]. *)
Definition finish_source (company_name : string) (st : state) : state :=
  let l := loc st in
  State
    (RunStats (total_jobs (stats st) + jobs_migrated l)
       (total_dates (stats st) + dates_migrated l)
       (stats_errors (stats st) + errors l)
       (dict_set company_name
          (CompanyStats (jobs_migrated l) (dates_migrated l) (errors l))
          (by_company (stats st))))
    (stdout st
     ++ [PrintCompleted (jobs_migrated l) (dates_migrated l) (errors l)])
    (posted st) (conn st) l.

(** The state after [connect_db] has connected. *)
Definition connected (st : state) : state :=
  State (stats st) (stdout st ++ [PrintConnected]) (posted st) Open (loc st).

(** One round of the loop of [migrate_all]: the source is migrated and,
    if that raised, the error and the stack trace are printed. *)
Definition run_source (E : env) (company_prefix : string) (st : state) : state :=
  match migrate_company E company_prefix st with
  | (Raise e, st') =>
      State (stats st')
        (stdout st' ++ [PrintMigrateError company_prefix e; PrintTraceback e])
        (posted st') (conn st') (loc st')
  | (_, st') => st'
  end.

(** The [finally] block and [print_summary]. *)
Definition close_and_summarise (st : state) : state :=
  State (stats st) (stdout st ++ [PrintSummary (stats st)]) (posted st)
    Closed (loc st).

(** A record that is not hidden. *)
Definition not_hidden (req : string * payload) : Prop :=
  dict_get "hidden" (snd req) = Some (JBool false).

(** What the loops of one source keep: [self.stats], the connection,
    and a property of every request sent so far. *)
Definition source_inv (Q : string * payload -> Prop) (s0 : run_stats)
    (c0 : conn_state) (st : state) : Prop :=
  stats st = s0 /\ conn st = c0 /\ Forall Q (posted st).

(** A row whose [ScrapeDate] came back as a [date] object. *)
Definition row_typed : row :=
  {[ "id" := VInt 5; "Title" := VStr "Welder";
     "ScrapeDate" := VDate (Date 2023 1 17) ]}.

(** A source ([kls]) whose second join row makes the parser raise, next
    to one ([ks]) that works. *)
Definition env_broken : env :=
  Env "http://localhost:8000" (fun _ _ => Responds (Response 201 "{}" true))
    (Date 2024 5 17) sample_fromisoformat None
    (fun dates_table _ =>
       if String.eqb dates_table "jobs_kls_dates"
       then Rows [row_a1; row_typed]
       else Rows [row_a1])
    (fun _ _ => Rows []).

(** A database that cannot be reached. *)
Definition env_offline : env :=
  Env "http://localhost:8000" sample_api (Date 2024 5 17)
    sample_fromisoformat (Some "Can't connect to MySQL server")
    (fun _ _ => Rows []) (fun _ _ => Rows []).

(** The canonical texts of a date and of a time of day under the six
    patterns: zero-padded fields with the separators of the pattern. *)
Definition render_ymd (sep : ascii) (d : date) : string :=
  pad4 (year d) +:+ String sep (pad2 (month d) +:+ String sep (pad2 (day d))).

Definition render_dmy (sep : ascii) (d : date) : string :=
  pad2 (day d) +:+ String sep (pad2 (month d) +:+ String sep (pad4 (year d))).

Definition render_time (h mi s : Z) : string :=
  pad2 h +:+ String ":" (pad2 mi +:+ String ":" (pad2 s)).

(** The last character of a string is not white space. *)
Fixpoint ends_nonspace (s : string) : bool :=
  match s with
  | EmptyString => false
  | String c EmptyString => negb (isspace c)
  | String _ s' => ends_nonspace s'
  end.

(** A mapped [date_added] is never the empty string. *)
Definition date_added_filled (new_data : dict jvalue) : Prop :=
  forall s, dict_get "date_added" new_data = Some (JStr s) -> s <> EmptyString.

(** The request sent for a listing without date-events. *)
Definition dateless_request (E : env) (company_prefix company_name : string)
    (r : row) : string * payload :=
  request_of E company_prefix company_name
    (r, dateless_date E (job_data_of company_prefix r)).

(** The listings seen among the rows that get submitted. *)
Definition submitted_ids (rows : list row) : gset value :=
  list_to_set (omap (fun rd : row * date => fst rd !! "id") (submitted_rows rows)).

(** The first alternative of a list that matches at the start of the
    data: the one the backtracking match keeps when the rest of the
    expression succeeds after it. *)
Fixpoint first_alternative (alts : list (list charclass)) (s : string)
  : option (string * string) :=
  match alts with
  | [] => None
  | a :: alts' =>
      match match_seq a s with
      | Some res => Some res
      | None => first_alternative alts' s
      end
  end.

(** The items of the patterns. *)
Definition items_ymd (sep : ascii) : list item :=
  [IDir dY; ILit sep; IDir dm; ILit sep; IDir dd].

Definition items_dmy (sep : ascii) : list item :=
  [IDir dd; ILit sep; IDir dm; ILit sep; IDir dY].

Definition items_time : list item :=
  [ISpaces; IDir dH; ILit ":"; IDir dM; ILit ":"; IDir dS].

(** ** [OldDataMigrator.__init__] *)

(** [s.rstrip('/')] *)
Fixpoint rstrip_slash (s : string) : string :=
  match s with
  | EmptyString => EmptyString
  | String c s' =>
      match rstrip_slash s' with
      | EmptyString => if Ascii.eqb c "/" then EmptyString else String c EmptyString
      | r => String c r
      end
  end.

(** What [__init__] sets of the state read by the modelled methods:
    [self.api_url] is the argument without its trailing slashes, the
    statistics start at zero.  [world] gives the surroundings. *)
Definition new_migrator (api_url : string) (world : env) : env * state :=
  (Env (rstrip_slash api_url) (api world) (today world) (fromisoformat world)
     (db_connect world) (fetch_join world) (fetch_no_dates world),
   initial_state).

(** [n] slashes. *)
Fixpoint slashes (n : nat) : string :=
  match n with
  | O => EmptyString
  | S n' => String "/" (slashes n')
  end.

(** ** More notions *)

(** The value that [map_job_fields] stores under [new_field] for a
    column holding [x], if it stores one. *)
Definition mapped_value (new_field : string) (x : value) : option jvalue :=
  match x with
  | VNone => None
  | VStr s =>
      if String.eqb new_field "date_added" then
        match parse_date_spec s with
        | Some d => Some (JStr (isoformat d))
        | None => None
        end
      else Some (JStr s)
  | VDatetime dt =>
      if String.eqb new_field "date_added"
      then Some (JStr (isoformat (datetime_date dt)))
      else Some (JStr (datetime_str dt))
  | VInt n => Some (JStr (str_of_int n))
  | VDate d => Some (JStr (isoformat d))
  end.

(** A string of white space only. *)
Fixpoint all_space (s : string) : bool :=
  match s with
  | EmptyString => true
  | String c s' => isspace c && all_space s'
  end.

(** The sums of the lines of the summary. *)
Definition sum_stats (f : company_stats -> Z) (d : dict company_stats) : Z :=
  fold_right (fun kv acc => f (snd kv) + acc) 0 d.

(** The totals of [self.stats] are the sums of its lines. *)
Definition totals_add_up (s : run_stats) : Prop :=
  total_jobs s = sum_stats cs_jobs (by_company s)
  /\ total_dates s = sum_stats cs_dates (by_company s)
  /\ stats_errors s = sum_stats cs_errors (by_company s).

(** A line of the summary that makes sense: no negative count, and no
    more unique listings than submissions. *)
Definition line_ok (c : company_stats) : Prop :=
  0 <= cs_jobs c <= cs_dates c + cs_errors c
  /\ 0 <= cs_dates c /\ 0 <= cs_errors c.

(** The same for the local counters of a source. *)
Definition locals_ok (l : locals) : Prop :=
  0 <= jobs_migrated l <= dates_migrated l + errors l
  /\ 0 <= dates_migrated l /\ 0 <= errors l.

(** Every request sent since the state with [base] requests has been
    counted once, as a migrated date or as an error. *)
Definition accounted (base : nat) (st : state) : Prop :=
  (base <= length (posted st))%nat
  /\ dates_migrated (loc st) + errors (loc st)
     = Z.of_nat (length (posted st) - base).

(** A [ScrapeDate] that is true and is not a [str]. *)
Definition untyped_date (v : value) : bool :=
  match v with
  | VStr _ => false
  | _ => truthy v
  end.

(** A row whose [DateAdded] is written in white space around an ISO
    date. *)
Definition row_e : row :=
  {[ "id" := VInt 6; "Title" := VStr ""; "JobID" := VInt 77;
     "DateAdded" := VStr "  2023/03/04 " ]}.

(** What the loops of a source keep of its counters. *)
Definition counters_inv (s0 : run_stats) (base : nat) (st : state) : Prop :=
  stats st = s0 /\ locals_ok (loc st) /\ accounted base st.

(** An answer that counts as a successful submission: a status that
    [raise_for_status] lets through, whatever it is, and a body that
    [json()] decodes. *)
Definition is_api_success (a : api_result) : bool :=
  match a with
  | Fails _ => false
  | Responds r =>
      negb ((400 <=? status_code r) && (status_code r <? 600)) && json_ok r
  end.

(** The loop of [migrate_all] over the sources, and [migrate_all]
    itself, with the method called for each source as a parameter:
    what the handlers of [migrate_all] do whatever that method does.
    [migrate_all] is [migrate_all_with] at [migrate_company]. *)
Definition sources_loop (migrate_source : string -> M unit)
    (sources : list string) : M unit :=
  for_each sources
    (fun company_prefix =>
       try_except (migrate_source company_prefix) is_Exception
         (fun e =>
            print (PrintMigrateError company_prefix e) ;;
            print (PrintTraceback e))).

Definition migrate_all_with (E : env) (migrate_source : string -> M unit)
  : M unit :=
  connect_db E ;;
  try_finally (sources_loop migrate_source (map fst COMPANY_MAPPING))
    (set_conn Closed) ;;
  print_summary.

(** The state after the handler of [migrate_all] has printed the error
    of a source and its stack trace. *)
Definition logged (company_prefix : string) (e : exn) (st : state) : state :=
  State (stats st)
    (stdout st ++ [PrintMigrateError company_prefix e; PrintTraceback e])
    (posted st) (conn st) (loc st).

(** The number of failed submissions among the requests [sent], the
    first of which is the request number [n]. *)
Fixpoint count_failed (E : env) (n : nat) (sent : list (string * payload)) : Z :=
  match sent with
  | [] => 0
  | req :: sent' =>
      (if fst (insert_outcome (api E n (snd req))) then 0 else 1)
      + count_failed E (S n) sent'
  end.

(** A source that stops the process: [sys.exit(3)] in place of
    [migrate_company]. *)
Definition exiting_source (company_prefix : string) : M unit :=
  raise (SystemExit 3).

(** What the loops of a source keep of [self.stats] and of the local
    counters [errors] and [dates_migrated]: with [old] the requests
    sent before the source, the counters hold the failed and the
    successful submissions among the requests sent since. *)
Definition tally (E : env) (s0 : run_stats) (old : list (string * payload))
    (st : state) : Prop :=
  stats st = s0
  /\ exists sent,
       posted st = old ++ sent
       /\ errors (loc st) = count_failed E (length old) sent
       /\ dates_migrated (loc st)
          = Z.of_nat (length sent) - count_failed E (length old) sent.

(** A source whose first join row carries a [ScrapeDate] that came
    back as a [date] object, before a row of the listing 1; one listing
    without date-events. *)
Definition env_typed : env :=
  Env "http://localhost:8000" (fun _ _ => Responds (Response 201 "{}" true))
    (Date 2024 5 17) sample_fromisoformat None
    (fun _ _ => Rows [row_typed; row_a1])
    (fun _ _ => Rows [row_d]).

(** ** The order of the fetched rows *)

(** The order of the calendar. *)
Definition date_compare (d1 d2 : date) : comparison :=
  match year d1 ?= year d2 with
  | Eq =>
      match month d1 ?= month d2 with
      | Eq => day d1 ?= day d2
      | c => c
      end
  | c => c
  end.

Definition date_leb (d1 d2 : date) : bool :=
  match date_compare d1 d2 with Gt => false | _ => true end.

(** The listing identifier of a join row: the integer in its [id]. *)
Definition listing_id (r : row) : Z :=
  match r !! "id" with
  | Some (VInt n) => n
  | _ => 0
  end.

(** Two join rows in the order of the claim: by listing identifier,
    then by event date ascending (the dates read by the loop; a row
    whose [ScrapeDate] yields no date may stand anywhere among the
    rows of its listing). *)
Definition listing_then_date (r1 r2 : row) : Prop :=
  listing_id r1 < listing_id r2
  \/ (listing_id r1 = listing_id r2
      /\ match dated r1, dated r2 with
         | Some d1, Some d2 => date_leb d1 d2 = true
         | _, _ => True
         end).

(** The text of [ScrapeDate]. *)
Definition scrape_text (r : row) : string :=
  match r !! "ScrapeDate" with
  | Some (VStr s) => s
  | _ => EmptyString
  end.

(** Two join rows in the order that [ORDER BY j.id, d.ScrapeDate]
    asks for, [ScrapeDate] being a text column (the loop reads a date
    from a [str] only) compared by code points. *)
Definition listing_then_text (r1 r2 : row) : Prop :=
  listing_id r1 < listing_id r2
  \/ (listing_id r1 = listing_id r2
      /\ String.leb (scrape_text r1) (scrape_text r2) = true).

(** Two date-events of one listing, written day first: the first of
    February and the fifteenth of January. *)
Definition row_feb : row :=
  {[ "id" := VInt 1; "JobID" := VStr "42"; "Title" := VStr "Engineer";
     "ScrapeDate" := VStr "01.02.2023" ]}.

Definition row_jan : row :=
  {[ "id" := VInt 1; "JobID" := VStr "42"; "Title" := VStr "Engineer";
     "ScrapeDate" := VStr "15.01.2023" ]}.

Definition env_day_first : env :=
  Env "http://localhost:8000" (fun _ _ => Responds (Response 201 "{}" true))
    (Date 2024 5 17) sample_fromisoformat None
    (fun _ _ => Rows [row_feb; row_jan])
    (fun _ _ => Rows []).

(** The sample source with an API that cannot be reached. *)
Definition sample_env_down : env :=
  Env "http://localhost:8000"
    (fun _ _ => Fails (ConnectionError "connection refused"))
    (Date 2024 5 17) sample_fromisoformat None
    (fun _ _ => Rows [row_a1; row_a2; row_b1])
    (fun _ _ => Rows [row_c; row_d]).

(** A row whose [ScrapeDate] is the year-first zero-padded text of a
    date, with the separator [sep]. *)
Definition year_first (sep : ascii) (r : row) : Prop :=
  exists d,
    valid_date (year d) (month d) (day d) = true
    /\ r !! "ScrapeDate" = Some (VStr (render_ymd sep d)).

(** ** [ORDER BY]

    The database sorts the joined rows by the keys of the [ORDER BY]
    clause of the query.  [le r1 r2] says that [r1] may stand before
    [r2]; it depends on the types of the columns and on the collation
    of the database, and is left free.  Rows with equal keys keep the
    order in which they were joined. *)
Fixpoint insert_by (le : row -> row -> bool) (r : row) (l : list row) : list row :=
  match l with
  | [] => [r]
  | x :: l' => if le r x then r :: l else x :: insert_by le r l'
  end.

Definition order_by (le : row -> row -> bool) (l : list row) : list row :=
  fold_right (insert_by le) [] l.

(** [ORDER BY j.id, d.ScrapeDate] with integer identifiers and a text
    column compared by code points. *)
Definition by_id_then_text (r1 r2 : row) : bool :=
  (listing_id r1 <? listing_id r2)
  || ((listing_id r1 =? listing_id r2)
      && String.leb (scrape_text r1) (scrape_text r2)).

(** Date-events written year first, of two listings. *)
Definition row_y2 : row :=
  {[ "id" := VInt 1; "JobID" := VStr "42"; "Title" := VStr "Engineer";
     "ScrapeDate" := VStr "2023-01-16" ]}.

Definition row_y3 : row :=
  {[ "id" := VInt 2; "JobID" := VStr "43"; "Title" := VStr "Buyer";
     "ScrapeDate" := VStr "2022-12-01" ]}.

(** A source whose join query returns three date-events, joined in
    another order, through [ORDER BY j.id, d.ScrapeDate]. *)
Definition env_ordered : env :=
  Env "http://localhost:8000" sample_api (Date 2024 5 17)
    sample_fromisoformat None
    (fun _ _ => Rows (order_by by_id_then_text [row_y3; row_y2; row_a1]))
    (fun _ _ => Rows [row_d]).


(** ** The texts of the six patterns, as the specification reads them *)

(** A text of decimal digits. *)
Definition decimal_text (w : string) : bool :=
  forallb isdecimal (list_ascii_of_string w).

(** A number written with one or two digits, between [lo] and [hi]. *)
Definition number_text (lo hi : Z) (w : string) : bool :=
  (1 <=? String.length w)%nat && (String.length w <=? 2)%nat
  && decimal_text w && (lo <=? int_of w) && (int_of w <=? hi).

(** The text of a field of a pattern: a year has four digits; a
    month, a day, an hour, a minute and a second have one or two, with
    a value in the range of the field (a second may read 60 or 61,
    which the check of the time then refuses); a day may also be
    written as a blank and one digit from 1 to 9. *)
Definition field_text (f : directive) (w : string) : bool :=
  match f with
  | dY => (String.length w =? 4)%nat && decimal_text w
  | dm => number_text 1 12 w
  | dd =>
      number_text 1 31 w
      || match w with
         | String c0 (String c EmptyString) =>
             Ascii.eqb c0 " " && isdecimal c && negb (Ascii.eqb c "0")
         | _ => false
         end
  | dH => number_text 0 23 w
  | dM => number_text 0 59 w
  | dS => number_text 0 61 w
  end.

(** The texts that the expression of a directive matches as a whole. *)
Definition in_language (f : directive) (w : string) : bool :=
  existsb
    (fun a =>
       match match_seq a w with
       | Some (_, EmptyString) => true
       | _ => false
       end)
    (alternatives f).

(** The code points below 256. *)
Definition all_ascii : list ascii := map ascii_of_nat (seq 0 256).

(** The directives written with one or two characters. *)
Definition short_directives : list directive := [dm; dd; dH; dM; dS].

(** The characters of the texts of the fields: the blank and the
    decimal digits. *)
Definition alphabet : list ascii :=
  [" "; "0"; "1"; "2"; "3"; "4"; "5"; "6"; "7"; "8"; "9"]%char.

Definition in_alphabet (c : ascii) : bool := existsb (Ascii.eqb c) alphabet.

(** The two characters [c1], [c2] as a text. *)
Definition two (c1 c2 : ascii) : string := String c1 (String c2 EmptyString).

Definition one (c : ascii) : string := String c EmptyString.

(** What may follow the text of a field: the end of the data, or a
    character that is no digit. *)
Definition continuation (k : string) : bool :=
  match k with
  | EmptyString => true
  | String c _ => negb (isdecimal c)
  end.

(** The result of a match is the text [m] with [r] left. *)
Definition gives (o : option (string * string)) (m r : string) : bool :=
  match o with
  | Some (m', r') => String.eqb m' m && String.eqb r' r
  | None => false
  end.

(** The six patterns of the specification: the order of the fields,
    the separator of the date, and whether a time of day follows. *)
Inductive pattern :=
| Ymd (sep : ascii)
| Dmy (sep : ascii)
| YmdTime (sep : ascii).

Definition spec_pattern_list : list pattern :=
  [Ymd "-"; Ymd "/"; Dmy "."; Dmy "/"; YmdTime "-"; YmdTime "/"].

(** The format given to [strptime] for a pattern. *)
Definition format_of (p : pattern) : string :=
  match p with
  | Ymd sep => "%Y" +:+ String sep ("%m" +:+ String sep "%d")
  | Dmy sep => "%d" +:+ String sep ("%m" +:+ String sep "%Y")
  | YmdTime sep => "%Y" +:+ String sep ("%m" +:+ String sep "%d %H:%M:%S")
  end.

(** The text [text] is written in the pattern [p] and stands for the
    date [d]: it is made of the texts of the fields in the order of
    the pattern, with its separators between them (white space
    between the date and the time of day), the fields name a date of
    the calendar (and a time of day), and [d] is that date. *)
Definition reads (p : pattern) (text : string) (d : date) : Prop :=
  match p with
  | Ymd sep =>
      exists ty tm td,
        text = ty +:+ String sep (tm +:+ String sep td)
        /\ field_text dY ty = true /\ field_text dm tm = true
        /\ field_text dd td = true
        /\ d = Date (int_of ty) (int_of tm) (int_of td)
        /\ valid_date (int_of ty) (int_of tm) (int_of td) = true
  | Dmy sep =>
      exists td tm ty,
        text = td +:+ String sep (tm +:+ String sep ty)
        /\ field_text dd td = true /\ field_text dm tm = true
        /\ field_text dY ty = true
        /\ d = Date (int_of ty) (int_of tm) (int_of td)
        /\ valid_date (int_of ty) (int_of tm) (int_of td) = true
  | YmdTime sep =>
      exists ty tm td ws th tmi ts,
        text = ty +:+ String sep (tm +:+ String sep
                 (td +:+ (ws +:+ (th +:+ String ":" (tmi +:+ String ":" ts)))))
        /\ field_text dY ty = true /\ field_text dm tm = true
        /\ field_text dd td = true
        /\ all_space ws = true /\ ws <> EmptyString
        /\ field_text dH th = true /\ field_text dM tmi = true
        /\ field_text dS ts = true
        /\ d = Date (int_of ty) (int_of tm) (int_of td)
        /\ valid_date (int_of ty) (int_of tm) (int_of td) = true
        /\ valid_time (int_of th) (int_of tmi) (int_of ts) = true
  end.

(** The first character of a string is not white space. *)
Definition starts_nonspace (s : string) : bool :=
  match s with
  | EmptyString => false
  | String c _ => negb (isspace c)
  end.

(** * Properties *)

(** ** The date parser *)

Lemma strptime_raises_ValueError data fmt e :
  strptime data fmt = Raised e -> e = ValueError.
Proof.
  unfold strptime. intros H.
  destruct (compile_format false fmt) as [its|]; [|congruence].
  destruct (match_items its data []) as [[caps rest]|]; [|congruence].
  destruct rest; [|congruence].
  destruct (valid_date _ _ _ && valid_time _ _ _); congruence.
Qed.


Lemma try_formats_first_match data fmts :
  try_formats data fmts = Return (first_match data fmts).
Proof.
  unfold first_match. induction fmts as [|fmt fmts IH]; simpl; [reflexivity|].
  unfold matches at 1, accepts at 1.
  destruct (strptime data fmt) as [dt|e] eqn:Hs.
  - unfold accepts. rewrite Hs. reflexivity.
  - rewrite (strptime_raises_ValueError _ _ _ Hs). exact IH.
Qed.

Lemma strip_empty : strip EmptyString = EmptyString.
Proof. reflexivity. Qed.

Lemma parse_date_str s : _parse_date (VStr s) = Return (parse_date_spec s).
Proof.
  unfold _parse_date, parse_date_spec. cbn [truthy value_strip].
  destruct (String.eqb_spec s EmptyString) as [->|Hne]; cbn [negb]; [reflexivity|].
  destruct (String.eqb (strip s) EmptyString); [reflexivity|].
  change spec_patterns with formats.
  apply try_formats_first_match.
Qed.

(** ** Ordered dictionaries *)

Lemma dict_get_set {V} (k k' : string) (v : V) (d : dict V) :
  dict_get k (dict_set k' v d)
  = if String.eqb k k' then Some v else dict_get k d.
Proof.
  induction d as [|[k0 v0] d IH]; simpl.
  - destruct (String.eqb k k'); reflexivity.
  - destruct (String.eqb_spec k' k0) as [->|Hne]; simpl.
    + destruct (String.eqb_spec k k0); reflexivity.
    + rewrite IH. destruct (String.eqb_spec k k0) as [->|Hk]; [|reflexivity].
      destruct (String.eqb_spec k0 k'); [congruence|reflexivity].
Qed.

Lemma dict_get_In {V} (k : string) (v : V) (d : dict V) :
  dict_get k d = Some v -> (k, v) ∈ d.
Proof.
  induction d as [|[k0 v0] d IH]; simpl; [discriminate|].
  destruct (String.eqb_spec k k0) as [->|Hne]; intros H.
  - injection H as ->. apply list_elem_of_here.
  - apply list_elem_of_further. auto.
Qed.

Lemma dict_get_None_update {V} (k : string) (d extra : dict V) :
  dict_get k extra = None -> dict_get k (dict_update d extra) = dict_get k d.
Proof.
  unfold dict_update. revert d.
  induction extra as [|[k0 v0] extra IH]; intros d H; simpl in *; [reflexivity|].
  destruct (String.eqb_spec k k0) as [->|Hne]; [discriminate|].
  rewrite IH by assumption. rewrite dict_get_set.
  destruct (String.eqb_spec k k0); [contradiction|reflexivity].
Qed.

Lemma dict_get_filter {V} (f : V -> bool) (k : string) (v : V) (d : dict V) :
  dict_get k d = Some v -> f v = true ->
  dict_get k (List.filter (fun kv => f (snd kv)) d) = Some v.
Proof.
  intros H Hf. induction d as [|[k0 v0] d IH]; simpl in *; [discriminate|].
  destruct (String.eqb_spec k k0) as [->|Hne].
  - injection H as ->. rewrite Hf. simpl. rewrite String.eqb_refl. reflexivity.
  - destruct (f v0); simpl; [|auto].
    destruct (String.eqb_spec k k0); [contradiction|auto].
Qed.

(** ** Field mapping *)

Lemma pad4_not_empty n : pad4 n <> EmptyString.
Proof. discriminate. Qed.

Lemma isoformat_not_empty d : isoformat d <> EmptyString.
Proof. unfold isoformat, pad4. simpl. discriminate. Qed.

Lemma str_of_int_not_empty n : str_of_int n <> EmptyString.
Proof.
  unfold str_of_int, NilZero.string_of_int.
  destruct (Z.to_int n) as [u|u].
  - unfold NilZero.string_of_uint. destruct u; simpl; discriminate.
  - discriminate.
Qed.


Lemma map_field_returns old_row new_data old_field new_field :
  exists new_data',
    map_field old_row new_data old_field new_field = Return new_data'.
Proof.
  unfold map_field.
  destruct (old_row !! old_field) as [x|]; [|eauto].
  destruct (is_VNone x); [eauto|].
  destruct (String.eqb new_field "date_added" && is_str_or_datetime x); [|eauto].
  destruct x; eauto.
  rewrite parse_date_str. destruct (parse_date_spec s); eauto.
Qed.

Lemma map_field_get old_row new_data old_field new_field new_data' k v :
  map_field old_row new_data old_field new_field = Return new_data' ->
  dict_get k new_data' = Some v ->
  dict_get k new_data = Some v
  \/ (k = new_field /\ emitted_by old_row old_field v).
Proof.
  unfold map_field, emitted_by.
  destruct (old_row !! old_field) as [x|] eqn:Hx; [|intros [= <-]; auto].
  destruct (is_VNone x) eqn:Hn; [intros [= <-]; auto|].
  assert (Hx' : x <> VNone) by (intros ->; discriminate).
  destruct (String.eqb new_field "date_added" && is_str_or_datetime x).
  - destruct x; try (intros [= <-]; auto).
    + rewrite parse_date_str. destruct (parse_date_spec s) as [d|];
        intros [= <-]; [|auto].
      rewrite dict_get_set. destruct (String.eqb_spec k new_field); [|auto].
      intros [= <-]. right. eauto 10.
    + rewrite dict_get_set. destruct (String.eqb_spec k new_field); [|auto].
      intros [= <-]. right. eauto 10.
  - intros [= <-]. rewrite dict_get_set.
    destruct (String.eqb_spec k new_field); [|auto].
    intros [= <-]. right. eauto 10.
Qed.

Lemma map_fields_returns old_row field_mapping new_data :
  exists new_data', map_fields old_row field_mapping new_data = Return new_data'.
Proof.
  revert new_data.
  induction field_mapping as [|[old_field new_field] rest IH]; intros nd; simpl.
  - eauto.
  - destruct (map_field_returns old_row nd old_field new_field) as [nd' ->].
    apply IH.
Qed.

Lemma map_fields_get old_row field_mapping new_data new_data' k v :
  map_fields old_row field_mapping new_data = Return new_data' ->
  dict_get k new_data' = Some v ->
  dict_get k new_data = Some v
  \/ exists old_field,
       (old_field, k) ∈ field_mapping /\ emitted_by old_row old_field v.
Proof.
  revert new_data.
  induction field_mapping as [|[old_field new_field] rest IH]; intros nd; simpl.
  - intros [= <-]. auto.
  - destruct (map_field old_row nd old_field new_field) as [nd1|e] eqn:H1;
      [|discriminate].
    intros Hrest Hget.
    destruct (IH _ Hrest Hget) as [Hin|[old [Hin Hem]]].
    + destruct (map_field_get _ _ _ _ _ _ _ H1 Hin) as [?|[-> Hem]]; [auto|].
      right. exists old_field. split; [apply list_elem_of_here|exact Hem].
    + right. exists old. split; [apply list_elem_of_further, Hin|exact Hem].
Qed.

Lemma map_job_fields_returns company_prefix old_row :
  exists job_data, map_job_fields company_prefix old_row = Return job_data.
Proof. apply map_fields_returns. Qed.


(** In every configured mapping a target name has one source column. *)
Lemma targets_unique company_prefix :
  NoDup (map snd (field_mapping_of company_prefix)).
Proof.
  unfold field_mapping_of.
  assert (H : Forall (fun m : string * dict string => NoDup (map snd (snd m)))
                FIELD_MAPPINGS).
  { refine (bool_decide_unpack _ _). vm_compute. exact I. }
  destruct (dict_get company_prefix FIELD_MAPPINGS) as [m|] eqn:Hm; simpl.
  - apply dict_get_In in Hm. rewrite Forall_forall in H. apply (H _ Hm).
  - constructor.
Qed.

Lemma target_source_unique (field_mapping : dict string) old1 old2 new_field :
  NoDup (map snd field_mapping) ->
  (old1, new_field) ∈ field_mapping -> (old2, new_field) ∈ field_mapping ->
  old1 = old2.
Proof.
  induction field_mapping as [|[o n] rest IH]; simpl.
  - intros _ H. inversion H.
  - rewrite NoDup_cons. intros [Hnot Hnd] H1 H2.
    apply elem_of_cons in H1 as [H1|H1]; apply elem_of_cons in H2 as [H2|H2].
    + congruence.
    + injection H1 as <- <-. exfalso. apply Hnot.
      change new_field with (snd (old2, new_field)).
      apply list_elem_of_fmap_2, H2.
    + injection H2 as <- <-. exfalso. apply Hnot.
      change new_field with (snd (old1, new_field)).
      apply list_elem_of_fmap_2, H1.
    + auto.
Qed.

(** The scenario of the specification: the mapped fields of a [kls]
    row, in the order of the mapping. *)
Example map_job_fields_kls_scenario :
  map_job_fields "kls"
    {[ "JobID" := VStr "42"; "Title" := VStr "Engineer";
       "ScrapeDate" := VStr "2023-01-15" ]}
  = Return [("title", JStr "Engineer"); ("job_id", JStr "42")].
Proof. vm_compute. reflexivity. Qed.

(** C6.  Field mapping always returns; every key of its result is the
    target of a configured source column that the row holds with a
    value other than [None], and its value is a string; the target of a
    configured column that the row lacks, or holds as [None], is not a
    key of the result at all. *)
Theorem map_job_fields_only_present_columns
    (company_prefix : string) (old_row : row) :
  exists new_data,
    map_job_fields company_prefix old_row = Return new_data
    /\ (forall new_field v,
          dict_get new_field new_data = Some v ->
          (exists s, v = JStr s)
          /\ exists old_field x,
               (old_field, new_field) ∈ field_mapping_of company_prefix
               /\ old_row !! old_field = Some x /\ x <> VNone)
    /\ (forall old_field new_field,
          (old_field, new_field) ∈ field_mapping_of company_prefix ->
          old_row !! old_field = None \/ old_row !! old_field = Some VNone ->
          dict_get new_field new_data = None).
Proof.
  destruct (map_job_fields_returns company_prefix old_row) as [nd Hnd].
  exists nd. split; [exact Hnd|].
  assert (Hkeys : forall new_field v,
            dict_get new_field nd = Some v ->
            exists old_field,
              (old_field, new_field) ∈ field_mapping_of company_prefix
              /\ emitted_by old_row old_field v).
  { intros k v Hget.
    destruct (map_fields_get _ _ _ _ _ _ Hnd Hget) as [H|H]; [discriminate|exact H]. }
  split.
  - intros k v Hget. destruct (Hkeys k v Hget) as [old [Hin [Hs [x [Hx Hne]]]]].
    split; [exact Hs|]. exists old, x. auto.
  - intros old new Hin Habsent.
    destruct (dict_get new nd) as [v|] eqn:Hget; [|reflexivity].
    destruct (Hkeys new v Hget) as [old' [Hin' [_ [x [Hx Hne]]]]].
    assert (old' = old) as ->
      by (eapply target_source_unique; eauto using targets_unique).
    destruct Habsent as [H|H]; rewrite H in Hx; [discriminate|].
    injection Hx as <-. contradiction.
Qed.

(** ** Submitting one record *)

Lemma insert_job_via_api_eq E company_name job_data scrape_date st :
  let req := (api_url E +:+ "/api/jobs",
              build_payload company_name job_data scrape_date) in
  let a := api E (length (posted st)) (snd req) in
  insert_job_via_api E company_name job_data scrape_date st
  = (Normal (fst (insert_outcome a)),
     after_request st req (snd (insert_outcome a)) (loc st)).
Proof.
  unfold insert_job_via_api, try_except, bind, session_post, after_request.
  cbn [fst snd].
  destruct (api E _ _) as [e|r]; cbn [insert_outcome is_RequestException].
  - unfold print, ret. cbn.
    destruct (error_response e); cbn; rewrite <- ?app_assoc; reflexivity.
  - unfold raise_for_status, response_json.
    destruct ((400 <=? status_code r) && (status_code r <? 500)
              || (500 <=? status_code r) && (status_code r <? 600)); cbn.
    + rewrite <- app_assoc. reflexivity.
    + destruct (json_ok r); cbn; rewrite ?app_nil_r; reflexivity.
Qed.

Lemma map_job_fields_eq company_prefix r :
  map_job_fields company_prefix r = Return (job_data_of company_prefix r).
Proof.
  unfold job_data_of.
  destruct (map_job_fields_returns company_prefix r) as [jd ->]. reflexivity.
Qed.

(** ** The body of the join loop *)

Lemma join_body_eq E company_prefix company_name r st :
  join_body E company_prefix company_name r st =
  match row_date r with
  | Raised e => (Raise e, st)
  | Return None =>
      (Continue,
       State (stats st) (stdout st ++ [PrintSkip (row_get r "ScrapeDate")])
         (posted st) (conn st) (loc st))
  | Return (Some d) =>
      let req := request_of E company_prefix company_name (r, d) in
      let res := insert_outcome (api E (length (posted st)) (snd req)) in
      let l1 := count_locals (fst res) (loc st) in
      match r !! "id" with
      | None => (Raise (KeyError "id"), after_request st req (snd res) l1)
      | Some job_id =>
          let l2 := track_job job_id l1 in
          (Normal tt, after_request st req (snd res ++ progress_line l2) l2)
      end
  end.
Proof.
  unfold join_body, row_date.
  unfold bind at 1. rewrite map_job_fields_eq. cbn [lift ret].
  unfold bind at 1.
  destruct (truthy (row_get r "ScrapeDate")).
  - destruct (_parse_date (row_get r "ScrapeDate")) as [[d|]|e]; cbn [lift ret raise].
    + unfold bind at 1. cbn [ret]. unfold bind at 1.
      rewrite insert_job_via_api_eq. cbn zeta.
      unfold request_of, after_request, update_loc, row_index, progress_line.
      cbn [fst snd].
      destruct (r !! "id") as [job_id|]; cbn; [|reflexivity].
      destruct (_ =? 0); unfold print, ret; cbn;
        rewrite <- ?app_assoc, ?app_nil_r; reflexivity.
    + reflexivity.
    + reflexivity.
  - reflexivity.
Qed.

(** C1.  A join row whose [ScrapeDate] does not yield a date (it is
    missing, false, matches no pattern, or makes the parser raise) is
    left without a request and without a change to any counter or to
    the set of listings seen; the body ends in [continue] or in the
    exception, and its result is the same whatever [date.today()],
    [fromisoformat] and the API are: the statements after [continue]
    never run. *)
Theorem unparseable_scrape_date_skips_row
    (E : env) (company_prefix company_name : string) (r : row) (st : state) :
  dated r = None ->
  exists o st',
    join_body E company_prefix company_name r st = (o, st')
    /\ posted st' = posted st
    /\ loc st' = loc st
    /\ stats st' = stats st
    /\ (o = Continue \/ exists e, o = Raise e)
    /\ (row_date r = Return None ->
        o = Continue
        /\ stdout st' = stdout st ++ [PrintSkip (row_get r "ScrapeDate")])
    /\ forall E', join_body E' company_prefix company_name r st = (o, st').
Proof.
  unfold dated. intros Hd.
  pose proof (join_body_eq E company_prefix company_name r st) as HE.
  destruct (row_date r) as [[d|]|e] eqn:Hr; [discriminate| |].
  - do 2 eexists. split; [exact HE|]. cbn.
    repeat split; auto.
    intros E'. rewrite join_body_eq, Hr. reflexivity.
  - do 2 eexists. split; [exact HE|].
    repeat split; eauto; try discriminate.
    intros E'. rewrite join_body_eq, Hr. reflexivity.
Qed.

Lemma unparseable_scrape_date_skips_row_witness :
  dated row_b1 = None
  /\ exists o st',
       join_body sample_env "kls" "KLS" row_b1 initial_state = (o, st')
       /\ posted st' = posted initial_state
       /\ loc st' = loc initial_state
       /\ stats st' = stats initial_state
       /\ (o = Continue \/ exists e, o = Raise e)
       /\ (row_date row_b1 = Return None ->
           o = Continue
           /\ stdout st' = stdout initial_state
                           ++ [PrintSkip (row_get row_b1 "ScrapeDate")])
       /\ forall E', join_body E' "kls" "KLS" row_b1 initial_state = (o, st').
Proof.
  split; [vm_compute; reflexivity|].
  apply (unparseable_scrape_date_skips_row sample_env "kls" "KLS" row_b1
           initial_state).
  vm_compute. reflexivity.
Defined.

(** ** Keys of the mapped data and of the payload *)

(** No configured mapping has a target named like one of the three
    fields that [insert_job_via_api] sets itself. *)
Lemma reserved_not_target company_prefix old_field k :
  k = "company_name" \/ k = "hidden" \/ k = "scrape_date" ->
  (old_field, k) ∉ field_mapping_of company_prefix.
Proof.
  intros Hk Hin. unfold field_mapping_of in Hin.
  assert (H : Forall (fun m : string * dict string =>
                        Forall (fun p => snd p <> "company_name"
                                         /\ snd p <> "hidden"
                                         /\ snd p <> "scrape_date") (snd m))
                FIELD_MAPPINGS).
  { refine (bool_decide_unpack _ _). vm_compute. exact I. }
  destruct (dict_get company_prefix FIELD_MAPPINGS) as [m|] eqn:Hm; simpl in Hin.
  - apply dict_get_In in Hm. rewrite Forall_forall in H.
    specialize (H _ Hm). rewrite Forall_forall in H.
    specialize (H _ Hin). simpl in H. intuition congruence.
  - inversion Hin.
Qed.

Lemma job_data_reserved company_prefix r k :
  k = "company_name" \/ k = "hidden" \/ k = "scrape_date" ->
  dict_get k (job_data_of company_prefix r) = None.
Proof.
  intros Hk.
  destruct (dict_get k (job_data_of company_prefix r)) as [v|] eqn:Hget;
    [|reflexivity].
  destruct (map_fields_get _ _ _ _ _ _ (map_job_fields_eq company_prefix r) Hget)
    as [H|[old [Hin _]]]; [discriminate|].
  exfalso. exact (reserved_not_target _ _ _ Hk Hin).
Qed.

Lemma build_payload_fixed company_name job_data scrape_date :
  dict_get "company_name" job_data = None ->
  dict_get "hidden" job_data = None ->
  dict_get "scrape_date" job_data = None ->
  let p := build_payload company_name job_data scrape_date in
  dict_get "company_name" p = Some (JStr company_name)
  /\ dict_get "hidden" p
     = Some (JBool (bool_decide (company_name ∈ HIDDEN_COMPANIES)))
  /\ dict_get "scrape_date" p = Some (JStr (isoformat scrape_date)).
Proof.
  intros Hc Hh Hs. unfold build_payload. cbn zeta.
  repeat split;
    (apply (dict_get_filter (fun v => negb (is_JNone v))); [|reflexivity]);
    rewrite dict_get_None_update by assumption; reflexivity.
Qed.

Lemma map_field_date_added old_row new_data old_field new_field new_data' :
  map_field old_row new_data old_field new_field = Return new_data' ->
  date_added_filled new_data -> date_added_filled new_data'.
Proof.
  unfold map_field, date_added_filled. intros H Hnd s.
  destruct (old_row !! old_field) as [x|]; [|injection H as <-; auto].
  destruct (is_VNone x) eqn:Hn; [injection H as <-; auto|].
  destruct (String.eqb_spec new_field "date_added") as [->|Hne]; cbn [andb] in H.
  - destruct x; cbn [is_str_or_datetime] in H; try discriminate;
      try (injection H as <-; rewrite dict_get_set; cbn;
           intros [= <-]; auto using isoformat_not_empty, str_of_int_not_empty).
    rewrite parse_date_str in H. destruct (parse_date_spec s0);
      injection H as <-; [|auto].
    rewrite dict_get_set. cbn. intros [= <-]. apply isoformat_not_empty.
  - injection H as <-. rewrite dict_get_set.
    destruct (String.eqb_spec "date_added" new_field); [congruence|auto].
Qed.

Lemma map_fields_date_added old_row field_mapping new_data new_data' :
  map_fields old_row field_mapping new_data = Return new_data' ->
  date_added_filled new_data -> date_added_filled new_data'.
Proof.
  revert new_data.
  induction field_mapping as [|[o n] rest IH]; intros nd; simpl.
  - intros [= <-]. auto.
  - destruct (map_field old_row nd o n) as [nd1|] eqn:H1; [|discriminate].
    intros H Hnd. eapply IH; [exact H|]. eapply map_field_date_added; eauto.
Qed.

Lemma job_data_date_added company_prefix r :
  date_added_filled (job_data_of company_prefix r).
Proof.
  eapply map_fields_date_added; [apply map_job_fields_eq|].
  intros s. discriminate.
Qed.

(** ** The loop over the listings without date-events *)

Lemma no_dates_body_eq E company_prefix company_name r st :
  let req := dateless_request E company_prefix company_name r in
  let res := insert_outcome (api E (length (posted st)) (snd req)) in
  no_dates_body E company_prefix company_name r st
  = (Normal tt,
     after_request st req (snd res) (count_job (count_locals (fst res) (loc st)))).
Proof.
  cbn zeta. unfold no_dates_body.
  unfold bind at 1. rewrite map_job_fields_eq. cbn [lift ret].
  assert (Hd : match dict_get "date_added" (job_data_of company_prefix r) with
               | Some v =>
                   if jtruthy v
                   then default (today E) (try_fromisoformat E v)
                   else today E
               | None => today E
               end = dateless_date E (job_data_of company_prefix r)).
  { unfold dateless_date.
    pose proof (job_data_date_added company_prefix r) as Hf.
    destruct (dict_get "date_added" (job_data_of company_prefix r))
      as [[s|b|]|] eqn:Hg; try reflexivity.
    - cbn. destruct (String.eqb_spec s EmptyString) as [->|Hne].
      + exfalso. apply (Hf EmptyString Hg); reflexivity.
      + cbn. destruct (fromisoformat E s); reflexivity.
    - cbn. destruct b; reflexivity. }
  rewrite Hd. unfold bind at 1. rewrite insert_job_via_api_eq.
  reflexivity.
Qed.

Lemma dateless_loop_run E company_prefix company_name rows st :
  exists st',
    for_each rows (no_dates_body E company_prefix company_name) st
    = (Normal tt, st')
    /\ posted st'
       = posted st ++ map (dateless_request E company_prefix company_name) rows
    /\ jobs_migrated (loc st')
       = jobs_migrated (loc st) + Z.of_nat (length rows)
    /\ dates_migrated (loc st') + errors (loc st')
       = dates_migrated (loc st) + errors (loc st) + Z.of_nat (length rows)
    /\ stats st' = stats st /\ conn st' = conn st.
Proof.
  revert st. induction rows as [|r rows IH]; intros st.
  - exists st. cbn. rewrite app_nil_r. repeat split; lia.
  - cbn [for_each]. rewrite no_dates_body_eq. cbn zeta.
    match goal with |- context [for_each rows _ ?s] =>
      destruct (IH s) as (st' & Hrun & Hp & Hj & Hd & Hs & Hc) end.
    exists st'. split; [exact Hrun|].
    rewrite Hp, Hj, Hd, Hs, Hc. cbn [after_request posted loc stats conn map].
    rewrite <- app_assoc. cbn [app].
    repeat split; try reflexivity;
      destruct (fst (insert_outcome _)); cbn; lia.
Qed.

Lemma migrate_company_eq E company_prefix st :
  migrate_company E company_prefix st =
  match company_of company_prefix with
  | Raised e => (Raise e, st)
  | Return c =>
      let listings_table := "jobs_" +:+ company_prefix +:+ "_listings" in
      let dates_table := "jobs_" +:+ company_prefix +:+ "_dates" in
      match fetch_join E dates_table listings_table with
      | DbError msg => (Raise (MySQLError msg), banner_printed c st)
      | Rows all_rows =>
          match fetch_no_dates E dates_table listings_table with
          | DbError msg => (Raise (MySQLError msg), banner_printed c st)
          | Rows jobs_without_dates =>
              match for_each all_rows (join_body E company_prefix c)
                      (start_source c st) with
              | (Normal _, st1) =>
                  match for_each jobs_without_dates
                          (no_dates_body E company_prefix c) st1 with
                  | (Normal _, st2) => (Normal tt, finish_source c st2)
                  | (Continue, st2) => (Continue, st2)
                  | (Raise e, st2) => (Raise e, st2)
                  end
              | (Continue, st1) => (Continue, st1)
              | (Raise e, st1) => (Raise e, st1)
              end
          end
      end
  end.
Proof.
  unfold migrate_company.
  unfold bind at 1. destruct (company_of company_prefix) as [c|e];
    cbn [lift ret raise]; [|reflexivity].
  unfold bind at 1. cbn [print]. unfold bind at 1.
  destruct (fetch_join E _ _) as [all_rows|msg]; cbn [fetchall ret raise];
    [|reflexivity].
  unfold bind at 1.
  destruct (fetch_no_dates E _ _) as [nd|msg]; cbn [fetchall ret raise];
    [|reflexivity].
  unfold bind at 1. cbn [set_loc stats stdout posted conn]. unfold bind at 1.
  fold (start_source c st).
  destruct (for_each all_rows _ _) as [[[]| |e] st1]; [|reflexivity|reflexivity].
  unfold bind at 1.
  destruct (for_each nd _ _) as [[[]| |e] st2]; reflexivity.
Qed.

Lemma migrate_company_dateless E company_prefix st c all_rows nd st1 :
  company_of company_prefix = Return c ->
  fetch_join E ("jobs_" +:+ company_prefix +:+ "_dates")
    ("jobs_" +:+ company_prefix +:+ "_listings") = Rows all_rows ->
  fetch_no_dates E ("jobs_" +:+ company_prefix +:+ "_dates")
    ("jobs_" +:+ company_prefix +:+ "_listings") = Rows nd ->
  for_each all_rows (join_body E company_prefix c) (start_source c st)
  = (Normal tt, st1) ->
  fst (migrate_company E company_prefix st) = Normal tt
  /\ posted (snd (migrate_company E company_prefix st))
     = posted st1 ++ map (dateless_request E company_prefix c) nd.
Proof.
  intros Hc Hj Hn Hl. rewrite migrate_company_eq, Hc. cbn zeta.
  rewrite Hj, Hn, Hl.
  destruct (dateless_loop_run E company_prefix c nd st1) as (st2 & -> & Hp & _).
  cbn. split; [reflexivity|exact Hp].
Qed.

(** Two listings without date-events: one with a [DateAdded] that the
    parser reads, one without. *)
Example dateless_records_sample :
  map (fun req => dict_get "scrape_date" (snd req))
    (posted (snd (for_each [row_c; row_d]
                    (no_dates_body sample_env "kls" "KLS") initial_state)))
  = [Some (JStr "2023-02-01"); Some (JStr "2024-05-17")].
Proof. vm_compute. reflexivity. Qed.


(** ** The join loop *)

Lemma track_job_processed i l :
  processed_jobs (track_job i l) = {[i]} ∪ processed_jobs l.
Proof.
  unfold track_job. case_bool_decide as H; cbn; [reflexivity|].
  set_solver.
Qed.

Lemma track_job_counted i l : jobs_counted l -> jobs_counted (track_job i l).
Proof.
  unfold jobs_counted, track_job. intros H.
  case_bool_decide as Hi; cbn; [|exact H].
  rewrite size_union by set_solver. rewrite size_singleton. lia.
Qed.

Lemma track_job_counts i l :
  dates_migrated (track_job i l) = dates_migrated l
  /\ errors (track_job i l) = errors l.
Proof. unfold track_job. case_bool_decide; auto. Qed.

Lemma submitted_rows_cons r rows :
  submitted_rows (r :: rows)
  = match dated r with
    | Some d => (r, d) :: submitted_rows rows
    | None => submitted_rows rows
    end.
Proof. unfold submitted_rows. cbn. destruct (dated r); reflexivity. Qed.

Lemma submitted_ids_cons r rows :
  submitted_ids (r :: rows)
  = match dated r, r !! "id" with
    | Some _, Some i => {[i]} ∪ submitted_ids rows
    | _, _ => submitted_ids rows
    end.
Proof.
  unfold submitted_ids. rewrite submitted_rows_cons.
  destruct (dated r); [|reflexivity].
  cbn. destruct (r !! "id"); reflexivity.
Qed.

Lemma join_loop_run E company_prefix company_name rows :
  Forall row_wf rows ->
  forall st, exists st',
    for_each rows (join_body E company_prefix company_name) st
    = (Normal tt, st')
    /\ posted st'
       = posted st
         ++ map (request_of E company_prefix company_name) (submitted_rows rows)
    /\ processed_jobs (loc st')
       = processed_jobs (loc st) ∪ submitted_ids rows
    /\ (jobs_counted (loc st) -> jobs_counted (loc st'))
    /\ dates_migrated (loc st') + errors (loc st')
       = dates_migrated (loc st) + errors (loc st)
         + Z.of_nat (length (submitted_rows rows))
    /\ stats st' = stats st /\ conn st' = conn st.
Proof.
  induction 1 as [|r rows Hwf _ IH]; intros st.
  - exists st. cbn. rewrite app_nil_r. repeat split; auto; [set_solver|lia].
  - cbn [for_each]. rewrite join_body_eq. rewrite submitted_rows_cons.
    rewrite submitted_ids_cons.
    unfold row_wf in Hwf. unfold dated.
    destruct (row_date r) as [[d|]|e]; [| |contradiction].
    + destruct Hwf as [i Hi]. rewrite Hi. cbn zeta.
      match goal with |- context [for_each rows _ ?s] =>
        destruct (IH s) as (st' & Hrun & Hp & Hpj & Hc & Hd & Hs & Hcn) end.
      exists st'. split; [exact Hrun|].
      cbn [after_request posted loc stats conn] in *.
      rewrite Hp, Hpj, Hd, Hs, Hcn. rewrite track_job_processed.
      destruct (track_job_counts i
                  (count_locals (fst (insert_outcome
                     (api E (length (posted st))
                        (snd (request_of E company_prefix company_name (r, d))))))
                     (loc st))) as [-> ->].
      cbn [map]. rewrite <- app_assoc. cbn [app].
      repeat split.
      * destruct (fst (insert_outcome _)); cbn; set_solver.
      * intros H. apply Hc, track_job_counted.
        revert H. unfold jobs_counted.
        destruct (fst (insert_outcome _)); cbn; auto.
      * destruct (fst (insert_outcome _)); cbn [length]; cbn; lia.
    + match goal with |- context [for_each rows _ ?s] =>
        destruct (IH s) as (st' & Hrun & Hp & Hpj & Hc & Hd & Hs & Hcn) end.
      exists st'. split; [exact Hrun|]. cbn in *. auto 10.
Qed.

Lemma submitted_rows_dated rows r d :
  (r, d) ∈ submitted_rows rows -> r ∈ rows /\ dated r = Some d.
Proof.
  induction rows as [|r0 rows IH]; rewrite ?submitted_rows_cons.
  - intros H. inversion H.
  - destruct (dated r0) as [d0|] eqn:Hd0.
    + rewrite elem_of_cons. intros [[= -> ->]|H].
      * split; [apply list_elem_of_here|exact Hd0].
      * destruct (IH H). split; [apply list_elem_of_further|]; assumption.
    + intros H. destruct (IH H). split; [apply list_elem_of_further|]; assumption.
Qed.

Lemma submitted_rows_filter (P : row -> Prop) `{!forall r, Decision (P r)} rows :
  submitted_rows (filter P rows)
  = filter (fun rd : row * date => P (fst rd)) (submitted_rows rows).
Proof.
  induction rows as [|r rows IH]; [reflexivity|].
  rewrite filter_cons, (submitted_rows_cons r rows).
  destruct (decide (P r)) as [HP|HP].
  - rewrite submitted_rows_cons. destruct (dated r); [|exact IH].
    rewrite filter_cons. cbn [fst]. rewrite decide_True by exact HP.
    rewrite IH. reflexivity.
  - destruct (dated r); [|exact IH].
    rewrite filter_cons. cbn [fst]. rewrite decide_False by exact HP. exact IH.
Qed.

Lemma submitted_rows_all rows :
  Forall (fun r => is_Some (dated r)) rows ->
  map fst (submitted_rows rows) = rows.
Proof.
  induction 1 as [|r rows [d Hd] _ IH]; [reflexivity|].
  rewrite submitted_rows_cons, Hd. cbn. rewrite IH. reflexivity.
Qed.

Lemma submitted_rows_split (P : row -> Prop) `{!forall r, Decision (P r)} rows :
  length (submitted_rows rows)
  = (length (submitted_rows (filter P rows))
     + length (submitted_rows (filter (fun r => ~ P r) rows)))%nat.
Proof.
  induction rows as [|r rows IH]; [reflexivity|].
  rewrite !filter_cons, submitted_rows_cons.
  destruct (decide (P r)) as [HP|HP].
  - rewrite decide_False by tauto. rewrite submitted_rows_cons.
    destruct (dated r); cbn [length]; lia.
  - rewrite decide_True by exact HP. rewrite submitted_rows_cons.
    destruct (dated r); cbn [length]; lia.
Qed.

Lemma submitted_ids_split (P : row -> Prop) `{!forall r, Decision (P r)} rows :
  submitted_ids rows
  = submitted_ids (filter P rows) ∪ submitted_ids (filter (fun r => ~ P r) rows).
Proof.
  induction rows as [|r rows IH]; [unfold submitted_ids; cbn; set_solver|].
  rewrite !filter_cons, submitted_ids_cons.
  destruct (decide (P r)) as [HP|HP].
  - rewrite decide_False by tauto. rewrite submitted_ids_cons.
    destruct (dated r), (r !! "id"); rewrite IH; set_solver.
  - rewrite decide_True by exact HP. rewrite submitted_ids_cons.
    destruct (dated r), (r !! "id"); rewrite IH; set_solver.
Qed.

Lemma submitted_ids_elem i rows :
  i ∈ submitted_ids rows -> exists r, r ∈ rows /\ has_id i r.
Proof.
  induction rows as [|r rows IH]; rewrite ?submitted_ids_cons.
  - unfold submitted_ids. cbn. set_solver.
  - destruct (dated r), (r !! "id") as [j|] eqn:Hj;
      try (intros H; destruct (IH H) as [r' [? ?]]; exists r';
           split; [apply list_elem_of_further|]; assumption).
    rewrite elem_of_union, elem_of_singleton. intros [->|H].
    + exists r. split; [apply list_elem_of_here|exact Hj].
    + destruct (IH H) as [r' [? ?]]. exists r'.
      split; [apply list_elem_of_further|]; assumption.
Qed.

Lemma submitted_ids_own i rows :
  rows <> [] ->
  Forall (has_id i) rows -> Forall (fun r => is_Some (dated r)) rows ->
  submitted_ids rows = {[i]}.
Proof.
  induction rows as [|r rows IH]; [congruence|]. intros _ Hi Hd.
  apply Forall_cons in Hi as [Hi Hi']. apply Forall_cons in Hd as [[d Hd] Hd'].
  rewrite submitted_ids_cons, Hd, Hi.
  destruct rows as [|r' rows'].
  - unfold submitted_ids. cbn. set_solver.
  - rewrite IH by (auto; congruence). set_solver.
Qed.

Lemma map_fields_same_columns r1 r2 field_mapping new_data :
  (forall old_field new_field,
     (old_field, new_field) ∈ field_mapping -> r1 !! old_field = r2 !! old_field) ->
  map_fields r1 field_mapping new_data = map_fields r2 field_mapping new_data.
Proof.
  revert new_data.
  induction field_mapping as [|[o n] rest IH]; intros nd H; [reflexivity|].
  cbn [map_fields]. unfold map_field.
  rewrite <- (H o n) by apply list_elem_of_here.
  destruct (r1 !! o) as [x|];
    [|apply IH; intros; eapply H, list_elem_of_further; eassumption].
  match goal with |- match ?m with _ => _ end = _ => destruct m end;
    [|reflexivity].
  apply IH. intros. eapply H, list_elem_of_further. eassumption.
Qed.

Lemma fresh_counted : jobs_counted (Locals 0 0 0 ∅).
Proof. unfold jobs_counted. cbn. rewrite size_empty. reflexivity. Qed.


(** ** Failed submissions *)

Lemma dated_row_date r d : dated r = Some d -> row_date r = Return (Some d).
Proof.
  unfold dated. destruct (row_date r) as [[d'|]|]; congruence.
Qed.

Lemma insert_outcome_error a :
  is_api_error a = true -> insert_outcome a = (false, error_lines a).
Proof.
  destruct a as [e|r]; cbn; [reflexivity|]. intros H.
  apply andb_true_iff in H as [H1 H2].
  apply Z.leb_le in H1. apply Z.ltb_lt in H2.
  destruct (Z.ltb_spec (status_code r) 500).
  - replace (400 <=? status_code r) with true by (symmetry; apply Z.leb_le; lia).
    reflexivity.
  - replace (500 <=? status_code r) with true by (symmetry; apply Z.leb_le; lia).
    replace (status_code r <? 600) with true by (symmetry; apply Z.ltb_lt; lia).
    rewrite orb_true_r. reflexivity.
Qed.

Lemma insert_outcome_undecodable a :
  is_undecodable_2xx a = true ->
  exists r, a = Responds r
            /\ insert_outcome a = (false, [PrintInsertError (JSONDecodeError (text r))]).
Proof.
  destruct a as [e|r]; cbn; [discriminate|]. intros H.
  apply andb_true_iff in H as [H H3]. apply andb_true_iff in H as [H1 H2].
  apply Z.leb_le in H1. apply Z.ltb_lt in H2. apply negb_true_iff in H3.
  exists r. split; [reflexivity|].
  replace (400 <=? status_code r) with false by (symmetry; apply Z.leb_gt; lia).
  replace (500 <=? status_code r) with false by (symmetry; apply Z.leb_gt; lia).
  rewrite H3. reflexivity.
Qed.

(** What both callers do with a submission that returned [False]. *)
Lemma join_body_failed E company_prefix company_name r d rest st out :
  dated r = Some d -> is_Some (r !! "id") ->
  insert_outcome (api E (length (posted st))
                    (snd (request_of E company_prefix company_name (r, d))))
  = (false, out) ->
  exists st',
    join_body E company_prefix company_name r st = (Normal tt, st')
    /\ errors (loc st') = errors (loc st) + 1
    /\ dates_migrated (loc st') = dates_migrated (loc st)
    /\ for_each (r :: rest) (join_body E company_prefix company_name) st
       = for_each rest (join_body E company_prefix company_name) st'.
Proof.
  intros Hd [i Hi] Ho.
  pose proof (join_body_eq E company_prefix company_name r st) as HE.
  rewrite (dated_row_date _ _ Hd), Hi in HE. cbn zeta in HE. rewrite Ho in HE.
  eexists. split; [exact HE|]. cbn [after_request loc fst].
  destruct (track_job_counts i (count_locals false (loc st))) as [-> ->].
  repeat split. cbn [for_each]. rewrite HE. reflexivity.
Qed.

Lemma no_dates_body_failed E company_prefix company_name r rest st out :
  insert_outcome (api E (length (posted st))
                    (snd (dateless_request E company_prefix company_name r)))
  = (false, out) ->
  exists st',
    no_dates_body E company_prefix company_name r st = (Normal tt, st')
    /\ errors (loc st') = errors (loc st) + 1
    /\ dates_migrated (loc st') = dates_migrated (loc st)
    /\ for_each (r :: rest) (no_dates_body E company_prefix company_name) st
       = for_each rest (no_dates_body E company_prefix company_name) st'.
Proof.
  intros Ho.
  pose proof (no_dates_body_eq E company_prefix company_name r st) as HE.
  cbn zeta in HE. rewrite Ho in HE.
  eexists. split; [exact HE|]. repeat split.
  cbn [for_each]. rewrite HE. reflexivity.
Qed.


(** C10.  A 2xx answer whose body [json()] cannot decode makes
    [insert_job_via_api] print the decoding error and return [False]:
    the error is a [RequestException] and is caught by the same
    handler; either loop counts the submission as an error. *)
Theorem undecodable_body_counted_as_error
    (E : env) (company_prefix company_name : string) :
  (forall job_data scrape_date st,
     let req := (api_url E +:+ "/api/jobs",
                 build_payload company_name job_data scrape_date) in
     let a := api E (length (posted st)) (snd req) in
     is_undecodable_2xx a = true ->
     exists r,
       a = Responds r
       /\ is_RequestException (RequestException (JSONDecodeError (text r))) = true
       /\ insert_job_via_api E company_name job_data scrape_date st
          = (Normal false,
             after_request st req [PrintInsertError (JSONDecodeError (text r))]
               (loc st)))
  /\ (forall r d rest st,
        dated r = Some d -> is_Some (r !! "id") ->
        is_undecodable_2xx
          (api E (length (posted st))
             (snd (request_of E company_prefix company_name (r, d)))) = true ->
        exists st',
          join_body E company_prefix company_name r st = (Normal tt, st')
          /\ errors (loc st') = errors (loc st) + 1
          /\ dates_migrated (loc st') = dates_migrated (loc st)
          /\ for_each (r :: rest) (join_body E company_prefix company_name) st
             = for_each rest (join_body E company_prefix company_name) st')
  /\ (forall r rest st,
        is_undecodable_2xx
          (api E (length (posted st))
             (snd (dateless_request E company_prefix company_name r))) = true ->
        exists st',
          no_dates_body E company_prefix company_name r st = (Normal tt, st')
          /\ errors (loc st') = errors (loc st) + 1
          /\ dates_migrated (loc st') = dates_migrated (loc st)
          /\ for_each (r :: rest) (no_dates_body E company_prefix company_name) st
             = for_each rest (no_dates_body E company_prefix company_name) st').
Proof.
  repeat split.
  - intros jd d st req a Ha.
    destruct (insert_outcome_undecodable a Ha) as (r & Hr & Ho).
    exists r. split; [exact Hr|]. split; [reflexivity|].
    rewrite insert_job_via_api_eq. cbn zeta. fold req. fold a.
    rewrite Ho. reflexivity.
  - intros r d rest st Hd Hi Ha.
    destruct (insert_outcome_undecodable _ Ha) as (r0 & _ & Ho).
    eapply join_body_failed; eauto.
  - intros r rest st Ha.
    destruct (insert_outcome_undecodable _ Ha) as (r0 & _ & Ho).
    eapply no_dates_body_failed; eauto.
Qed.

Lemma undecodable_body_counted_as_error_witness :
  (exists st',
     join_body env_html "kls" "KLS" row_a1 initial_state = (Normal tt, st')
     /\ errors (loc st') = errors (loc initial_state) + 1
     /\ dates_migrated (loc st') = dates_migrated (loc initial_state)
     /\ for_each [row_a1] (join_body env_html "kls" "KLS") initial_state
        = for_each [] (join_body env_html "kls" "KLS") st')
  /\ (exists st',
        no_dates_body env_html "kls" "KLS" row_d initial_state = (Normal tt, st')
        /\ errors (loc st') = errors (loc initial_state) + 1
        /\ dates_migrated (loc st') = dates_migrated (loc initial_state)
        /\ for_each [row_d] (no_dates_body env_html "kls" "KLS") initial_state
           = for_each [] (no_dates_body env_html "kls" "KLS") st').
Proof.
  destruct (undecodable_body_counted_as_error env_html "kls" "KLS")
    as (_ & Hj & Hn).
  split.
  - apply (Hj row_a1 (Date 2023 1 15)).
    + vm_compute. reflexivity.
    + eexists. vm_compute. reflexivity.
    + reflexivity.
  - apply (Hn row_d). reflexivity.
Defined.

(** ** Order and repeatability of the submissions *)

Lemma request_of_url E1 E2 company_prefix company_name rd :
  api_url E1 = api_url E2 ->
  request_of E1 company_prefix company_name rd
  = request_of E2 company_prefix company_name rd.
Proof. unfold request_of. intros ->. reflexivity. Qed.

Lemma join_loop_lockstep E1 E2 company_prefix company_name rows :
  api_url E1 = api_url E2 ->
  forall st1 st2,
    posted st1 = posted st2 ->
    fst (for_each rows (join_body E1 company_prefix company_name) st1)
    = fst (for_each rows (join_body E2 company_prefix company_name) st2)
    /\ posted (snd (for_each rows (join_body E1 company_prefix company_name) st1))
       = posted (snd (for_each rows (join_body E2 company_prefix company_name) st2)).
Proof.
  intros Hurl. induction rows as [|r rows IH]; intros st1 st2 Hp; [auto|].
  cbn [for_each]. rewrite !join_body_eq.
  destruct (row_date r) as [[d|]|e]; [| |auto].
  - cbn zeta. rewrite (request_of_url E1 E2 _ _ _ Hurl).
    destruct (r !! "id");
      [apply IH|split; [reflexivity|]]; unfold after_request; cbn [posted snd];
      rewrite Hp; reflexivity.
  - apply IH. exact Hp.
Qed.

Lemma dateless_request_same E1 E2 company_prefix company_name r :
  same_data E1 E2 ->
  dateless_request E1 company_prefix company_name r
  = dateless_request E2 company_prefix company_name r.
Proof.
  intros (Hurl & Hday & Hiso & _). unfold dateless_request.
  rewrite (request_of_url E1 E2 _ _ _ Hurl). do 2 f_equal.
  unfold dateless_date. rewrite Hday.
  destruct (dict_get "date_added" _) as [[s| |]|]; try reflexivity.
  rewrite Hiso. reflexivity.
Qed.

Lemma dateless_loop_lockstep E1 E2 company_prefix company_name rows :
  same_data E1 E2 ->
  forall st1 st2,
    posted st1 = posted st2 ->
    fst (for_each rows (no_dates_body E1 company_prefix company_name) st1)
    = fst (for_each rows (no_dates_body E2 company_prefix company_name) st2)
    /\ posted (snd (for_each rows (no_dates_body E1 company_prefix company_name) st1))
       = posted (snd (for_each rows (no_dates_body E2 company_prefix company_name) st2)).
Proof.
  intros Hsame st1 st2 Hp.
  destruct (dateless_loop_run E1 company_prefix company_name rows st1)
    as (s1 & -> & Hp1 & _).
  destruct (dateless_loop_run E2 company_prefix company_name rows st2)
    as (s2 & -> & Hp2 & _).
  cbn [fst snd]. split; [reflexivity|]. rewrite Hp1, Hp2, Hp. f_equal.
  apply map_ext. intros r. apply dateless_request_same, Hsame.
Qed.

Lemma migrate_company_lockstep E1 E2 company_prefix st1 st2 :
  same_data E1 E2 -> posted st1 = posted st2 ->
  fst (migrate_company E1 company_prefix st1)
  = fst (migrate_company E2 company_prefix st2)
  /\ posted (snd (migrate_company E1 company_prefix st1))
     = posted (snd (migrate_company E2 company_prefix st2)).
Proof.
  intros Hsame Hp. pose proof Hsame as (Hurl & _ & _ & Hj & Hn).
  rewrite !migrate_company_eq.
  destruct (company_of company_prefix) as [c|e]; [|auto].
  cbn zeta. rewrite Hj, Hn.
  destruct (fetch_join E2 _ _) as [all_rows|msg]; [|auto].
  destruct (fetch_no_dates E2 _ _) as [nd|msg]; [|auto].
  destruct (join_loop_lockstep E1 E2 company_prefix c all_rows Hurl
              (start_source c st1) (start_source c st2) Hp) as [Ho Hp'].
  destruct (for_each all_rows (join_body E1 company_prefix c) _) as [o1 s1'].
  destruct (for_each all_rows (join_body E2 company_prefix c) _) as [o2 s2'].
  cbn [fst snd] in Ho, Hp'. subst o2.
  destruct o1 as [[]| |e]; [|auto|auto].
  destruct (dateless_loop_lockstep E1 E2 company_prefix c nd Hsame s1' s2' Hp')
    as [Ho Hp''].
  destruct (for_each nd (no_dates_body E1 company_prefix c) s1') as [o1 s1''].
  destruct (for_each nd (no_dates_body E2 company_prefix c) s2') as [o2 s2''].
  cbn [fst snd] in Ho, Hp''. subst o2.
  destruct o1 as [[]| |e]; auto.
Qed.

Lemma submitted_rows_sorted (R : relation row) rows :
  StronglySorted R rows -> StronglySorted R (map fst (submitted_rows rows)).
Proof.
  induction 1 as [|r rows Hs IH Hall]; [constructor|].
  rewrite submitted_rows_cons. destruct (dated r); [|exact IH].
  cbn. constructor; [exact IH|].
  rewrite Forall_forall in Hall. apply Forall_forall. intros r' Hr'.
  apply list_elem_of_fmap in Hr' as [[r0 d0] [-> Hin]].
  apply Hall. apply (submitted_rows_dated _ _ _ Hin).
Qed.

Lemma join_loop_prefix E company_prefix company_name rows :
  forall st, exists k,
    (k <= length rows)%nat
    /\ posted (snd (for_each rows (join_body E company_prefix company_name) st))
       = posted st
         ++ map (request_of E company_prefix company_name)
              (submitted_rows (take k rows))
    /\ (fst (for_each rows (join_body E company_prefix company_name) st)
        = Normal tt -> k = length rows).
Proof.
  induction rows as [|r rows IH]; intros st.
  - exists 0%nat. cbn. rewrite app_nil_r. auto.
  - cbn [for_each]. rewrite join_body_eq.
    destruct (row_date r) as [[d|]|e] eqn:Hr.
    + cbn zeta. destruct (r !! "id") as [i|].
      * match goal with |- context [for_each rows _ ?s] =>
          destruct (IH s) as (k & Hk & Hp & Hn) end.
        exists (S k). cbn [take length]. rewrite submitted_rows_cons.
        unfold dated. rewrite Hr.
        split; [lia|]. split; [|intros H; rewrite (Hn H); reflexivity].
        rewrite Hp. cbn [after_request posted map]. rewrite <- app_assoc.
        reflexivity.
      * exists 1%nat. cbn [take length]. rewrite take_0, submitted_rows_cons.
        unfold dated. rewrite Hr.
        split; [lia|]. split; [reflexivity|discriminate].
    + match goal with |- context [for_each rows _ ?s] =>
        destruct (IH s) as (k & Hk & Hp & Hn) end.
      exists (S k). cbn [take length]. rewrite submitted_rows_cons.
      unfold dated. rewrite Hr.
      split; [lia|]. split; [exact Hp|intros H; rewrite (Hn H); reflexivity].
    + exists 0%nat. cbn. rewrite app_nil_r.
      split; [lia|]. split; [reflexivity|discriminate].
Qed.


(** ** What the loops of a source keep *)

Lemma for_each_preserves {X} (P : state -> Prop) (body : X -> M unit) xs :
  (forall x st, P st -> P (snd (body x st))) ->
  forall st, P st -> P (snd (for_each xs body st)).
Proof.
  intros Hbody. induction xs as [|x xs IH]; intros st HP; [exact HP|].
  cbn [for_each]. specialize (Hbody x st HP).
  destruct (body x st) as [[[]| |e] st']; cbn [snd] in *; auto.
Qed.

Lemma for_each_raise {X} (body : X -> M unit) xs st e st' :
  for_each xs body st = (Raise e, st') ->
  exists x s, body x s = (Raise e, st').
Proof.
  revert st. induction xs as [|x xs IH]; intros st; cbn [for_each].
  - discriminate.
  - destruct (body x st) as [[[]| |e0] s1] eqn:Hb; eauto.
    intros [= <- <-]. eauto.
Qed.

Lemma for_each_not_continue {X} (body : X -> M unit) xs st :
  fst (for_each xs body st) <> Continue.
Proof.
  revert st. induction xs as [|x xs IH]; intros st; cbn [for_each].
  - discriminate.
  - destruct (body x st) as [[[]| |e0] s1]; cbn; try discriminate; auto.
Qed.

Lemma join_body_inv E company_prefix company_name Q s0 c0 r st :
  (forall rd, Q (request_of E company_prefix company_name rd)) ->
  source_inv Q s0 c0 st ->
  source_inv Q s0 c0 (snd (join_body E company_prefix company_name r st)).
Proof.
  unfold source_inv. intros HQ (Hs & Hc & Hp). rewrite join_body_eq.
  destruct (row_date r) as [[d|]|e]; [|auto|auto].
  cbn zeta. destruct (r !! "id"); cbn [snd after_request stats conn posted];
    (split; [exact Hs|split; [exact Hc|]]);
    apply Forall_app; split; auto.
Qed.

Lemma no_dates_body_inv E company_prefix company_name Q s0 c0 r st :
  (forall rd, Q (request_of E company_prefix company_name rd)) ->
  source_inv Q s0 c0 st ->
  source_inv Q s0 c0 (snd (no_dates_body E company_prefix company_name r st)).
Proof.
  unfold source_inv. intros HQ (Hs & Hc & Hp). rewrite no_dates_body_eq.
  cbn [snd after_request stats conn posted].
  split; [exact Hs|split; [exact Hc|]].
  apply Forall_app; split; auto. constructor; [apply HQ|constructor].
Qed.

Lemma parse_date_raises v e :
  _parse_date v = Raised e -> is_Exception e = true.
Proof.
  destruct v; try (rewrite parse_date_str; discriminate);
    unfold _parse_date; cbn;
    repeat match goal with |- context [if ?b then _ else _] => destruct b end;
    intros [= <-]; reflexivity.
Qed.

Lemma join_body_raises E company_prefix company_name r st e st' :
  join_body E company_prefix company_name r st = (Raise e, st') ->
  is_Exception e = true.
Proof.
  rewrite join_body_eq. unfold row_date.
  destruct (truthy (row_get r "ScrapeDate")).
  - destruct (_parse_date (row_get r "ScrapeDate")) as [[d|]|e0] eqn:Hp.
    + cbn zeta. destruct (r !! "id"); intros [= <- <-]. reflexivity.
    + discriminate.
    + intros [= <- <-]. exact (parse_date_raises _ _ Hp).
  - discriminate.
Qed.

(** What [migrate_company] keeps, and how it can end. *)
Lemma migrate_company_inv E company_prefix Q st :
  (forall c rd, company_of company_prefix = Return c ->
                Q (request_of E company_prefix c rd)) ->
  Forall Q (posted st) ->
  let res := migrate_company E company_prefix st in
  Forall Q (posted (snd res))
  /\ conn (snd res) = conn st
  /\ fst res <> Continue
  /\ (forall e, fst res = Raise e ->
        is_Exception e = true /\ stats (snd res) = stats st).
Proof.
  intros HQ Hp. cbn zeta. rewrite migrate_company_eq.
  destruct (company_of company_prefix) as [c|e] eqn:Hc.
  2:{ cbn. split; [exact Hp|]. split; [reflexivity|]. split; [discriminate|].
      intros e' [= <-]. split; [|reflexivity]. unfold company_of in Hc.
      destruct (dict_get company_prefix COMPANY_MAPPING); [discriminate|].
      injection Hc as <-. reflexivity. }
  cbn zeta.
  destruct (fetch_join E _ _) as [all_rows|msg].
  2:{ cbn. split; [exact Hp|]. split; [reflexivity|]. split; [discriminate|].
      intros e' [= <-]. split; reflexivity. }
  destruct (fetch_no_dates E _ _) as [nd|msg].
  2:{ cbn. split; [exact Hp|]. split; [reflexivity|]. split; [discriminate|].
      intros e' [= <-]. split; reflexivity. }
  assert (H0 : source_inv Q (stats st) (conn st) (start_source c st))
    by (repeat split; exact Hp).
  pose proof (for_each_preserves _ _ all_rows
                (fun r s => join_body_inv E company_prefix c Q _ _ r s
                              (fun rd => HQ c rd eq_refl))
                _ H0) as H1.
  pose proof (for_each_not_continue (join_body E company_prefix c) all_rows
                (start_source c st)) as Hn1.
  destruct (for_each all_rows _ _) as [[[]| |e] st1] eqn:Hl1; cbn [fst snd] in *.
  - pose proof (for_each_preserves _ _ nd
                  (fun r s => no_dates_body_inv E company_prefix c Q _ _ r s
                                (fun rd => HQ c rd eq_refl)) _ H1) as H2.
    destruct (dateless_loop_run E company_prefix c nd st1) as (st2 & Hl2 & _).
    rewrite Hl2 in *. cbn [fst snd] in *. destruct H2 as (Hs2 & Hc2 & Hp2).
    cbn. split; [exact Hp2|]. split; [exact Hc2|]. split; discriminate.
  - contradiction.
  - destruct H1 as (Hs1 & Hc1 & Hp1).
    split; [exact Hp1|]. split; [exact Hc1|]. split; [discriminate|].
    intros e' [= <-]. split; [|exact Hs1].
    destruct (for_each_raise _ _ _ _ _ Hl1) as (r & s & Hb).
    exact (join_body_raises _ _ _ _ _ _ _ Hb).
Qed.

(** ** The full run *)

Lemma run_source_guard E company_prefix st :
  exists o,
    o <> Raise (SystemExit 1) /\ (forall e, o <> Raise e)
    /\ try_except (migrate_company E company_prefix) is_Exception
         (fun e =>
            print (PrintMigrateError company_prefix e) ;;
            print (PrintTraceback e)) st
       = (o, run_source E company_prefix st).
Proof.
  unfold try_except, run_source.
  destruct (migrate_company_inv E company_prefix (fun _ => True) st
              (fun _ _ _ => I) (Forall_true _ _ (fun _ => I)))
    as (_ & _ & _ & He).
  destruct (migrate_company E company_prefix st) as [[[]| |e] st'];
    cbn [fst snd] in *.
  - exists (Normal tt). repeat split; discriminate.
  - exists Continue. repeat split; discriminate.
  - destruct (He e eq_refl) as [-> _]. exists (Normal tt).
    unfold bind, print. cbn. rewrite <- app_assoc.
    repeat split; discriminate.
Qed.

Lemma connect_db_ok E st :
  db_connect E = None -> connect_db E st = (Normal tt, connected st).
Proof.
  intros Hdb. unfold connect_db, try_except, mysql_connect. rewrite Hdb.
  reflexivity.
Qed.

Lemma migrate_all_connected E st :
  db_connect E = None ->
  migrate_all E st
  = (Normal tt,
     close_and_summarise
       (run_source E "ks" (run_source E "kls" (connected st)))).
Proof.
  intros Hdb. unfold migrate_all.
  unfold bind at 1. rewrite (connect_db_ok E st Hdb).
  unfold bind at 1. unfold try_finally.
  cbn [COMPANY_MAPPING map fst for_each].
  destruct (run_source_guard E "kls" (connected st)) as (o1 & _ & Ho1 & ->).
  destruct o1 as [[]| |e]; [| |exfalso; exact (Ho1 e eq_refl)];
    destruct (run_source_guard E "ks" (run_source E "kls" (connected st)))
      as (o2 & _ & Ho2 & ->);
    (destruct o2 as [[]| |e]; [| |exfalso; exact (Ho2 e eq_refl)]);
    reflexivity.
Qed.

Lemma migrate_all_offline E st msg :
  db_connect E = Some msg ->
  migrate_all E st
  = (Raise (SystemExit 1),
     State (stats st) (stdout st ++ [PrintConnectError msg]) (posted st)
       (conn st) (loc st)).
Proof.
  intros Hdb. unfold migrate_all, bind, connect_db, try_except, mysql_connect.
  rewrite Hdb. reflexivity.
Qed.

Lemma run_source_inv E company_prefix Q st :
  (forall c rd, company_of company_prefix = Return c ->
                Q (request_of E company_prefix c rd)) ->
  Forall Q (posted st) ->
  Forall Q (posted (run_source E company_prefix st))
  /\ conn (run_source E company_prefix st) = conn st.
Proof.
  intros HQ Hp. unfold run_source.
  destruct (migrate_company_inv E company_prefix Q st HQ Hp) as (H1 & H2 & _).
  destruct (migrate_company E company_prefix st) as [[[]| |e] st'];
    cbn [fst snd] in *; auto.
Qed.

Lemma configured_not_hidden E company_prefix c rd :
  company_of company_prefix = Return c ->
  not_hidden (request_of E company_prefix c rd)
  /\ (c = "KLS" \/ c = "KarlStorz").
Proof.
  intros Hc.
  assert (Hname : c = "KLS" \/ c = "KarlStorz").
  { unfold company_of in Hc. cbn in Hc.
    destruct (String.eqb company_prefix "kls"); [injection Hc; auto|].
    destruct (String.eqb company_prefix "ks"); [injection Hc; auto|].
    discriminate. }
  split; [|exact Hname].
  unfold not_hidden, request_of. cbn [snd fst].
  destruct (build_payload_fixed c (job_data_of company_prefix (fst rd)) (snd rd))
    as (_ & Hh & _); try (apply job_data_reserved; auto).
  rewrite Hh. destruct Hname as [-> | ->]; vm_compute; reflexivity.
Qed.

(** C9.  Every request of a full run carries [hidden] false: the
    configured sources are named KLS and KarlStorz, neither of which is
    among the hidden organisations (KarlsStorz is), and no mapped field
    is called [hidden]. *)
Theorem no_submitted_record_hidden (E : env) (url : string) (p : payload) :
  (url, p) ∈ posted (snd (main E)) ->
  dict_get "hidden" p = Some (JBool false)
  /\ (dict_get "company_name" p = Some (JStr "KLS")
      \/ dict_get "company_name" p = Some (JStr "KarlStorz"))
  /\ ("KLS" ∉ HIDDEN_COMPANIES) /\ ("KarlStorz" ∉ HIDDEN_COMPANIES)
  /\ ("KarlsStorz" ∈ HIDDEN_COMPANIES)
  /\ map snd COMPANY_MAPPING = ["KLS"; "KarlStorz"].
Proof.
  set (Q := fun req : string * payload =>
              dict_get "hidden" (snd req) = Some (JBool false)
              /\ (dict_get "company_name" (snd req) = Some (JStr "KLS")
                  \/ dict_get "company_name" (snd req) = Some (JStr "KarlStorz"))).
  assert (HQ : forall px c rd, company_of px = Return c ->
                               Q (request_of E px c rd)).
  { intros px c rd Hc. destruct (configured_not_hidden E px c rd Hc) as [Hh Hn].
    split; [exact Hh|].
    unfold request_of. cbn [snd fst].
    destruct (build_payload_fixed c (job_data_of px (fst rd)) (snd rd))
      as (Hcn & _ & _); try (apply job_data_reserved; auto).
    rewrite Hcn. destruct Hn as [-> | ->]; auto. }
  assert (Hall : Forall Q (posted (snd (main E)))).
  { unfold main.
    destruct (db_connect E) as [msg|] eqn:Hdb.
    - rewrite (migrate_all_offline E _ msg Hdb). cbn. constructor.
    - rewrite (migrate_all_connected E _ Hdb). cbn [snd].
      unfold close_and_summarise. cbn [posted].
      apply run_source_inv; [apply HQ|].
      apply run_source_inv; [apply HQ|]. cbn. constructor. }
  intros Hin. rewrite Forall_forall in Hall. destruct (Hall _ Hin) as [Hh Hn].
  split; [exact Hh|]. split; [exact Hn|].
  split; [refine (bool_decide_unpack _ _); vm_compute; exact I|].
  split; [refine (bool_decide_unpack _ _); vm_compute; exact I|].
  split; [refine (bool_decide_unpack _ _); vm_compute; exact I|].
  reflexivity.
Qed.

Lemma no_submitted_record_hidden_witness :
  let p := [("company_name", JStr "KLS"); ("hidden", JBool false);
            ("scrape_date", JStr "2023-01-15"); ("title", JStr "Engineer");
            ("job_id", JStr "42")] in
  ("http://localhost:8000/api/jobs", p) ∈ posted (snd (main (env_on (Date 2024 5 17))))
  /\ dict_get "hidden" p = Some (JBool false).
Proof.
  cbn zeta.
  assert (Hin : ("http://localhost:8000/api/jobs",
                 [("company_name", JStr "KLS"); ("hidden", JBool false);
                  ("scrape_date", JStr "2023-01-15"); ("title", JStr "Engineer");
                  ("job_id", JStr "42")])
                ∈ posted (snd (main (env_on (Date 2024 5 17))))).
  { vm_compute. apply list_elem_of_here. }
  split; [exact Hin|].
  exact (proj1 (no_submitted_record_hidden _ _ _ Hin)).
Defined.


(** ** The six patterns on canonical texts *)

Lemma digit_cases (n : Z) :
  exists k, (k < 10)%nat /\ n mod 10 = Z.of_nat k.
Proof.
  exists (Z.to_nat (n mod 10)).
  pose proof (Z.mod_pos_bound n 10 ltac:(lia)). split; lia.
Qed.

Ltac digit_case n :=
  let k := fresh "k" in
  let Hk := fresh "Hk" in
  let Hn := fresh "Hn" in
  destruct (digit_cases n) as (k & Hk & Hn);
  unfold digit_char; rewrite Hn, Nat2Z.id;
  do 10 (destruct k as [|k]; [try reflexivity|]); try lia.

Lemma isdecimal_digit n : isdecimal (digit_char n) = true.
Proof. digit_case n. Qed.

Lemma isspace_digit n : isspace (digit_char n) = false.
Proof. digit_case n. Qed.

Lemma digit_value n : Z.of_nat (nat_of_ascii (digit_char n)) - 48 = n mod 10.
Proof.
  destruct (digit_cases n) as (k & Hk & Hn).
  unfold digit_char. rewrite Hn, Nat2Z.id.
  do 10 (destruct k as [|k]; [reflexivity|]). lia.
Qed.

Lemma int_of_pad2 v : 0 <= v <= 99 -> int_of (pad2 v) = v.
Proof.
  intros Hv. unfold int_of, pad2. cbn [list_ascii_of_string fold_left].
  rewrite !isdecimal_digit, !digit_value.
  pose proof (Z.div_mod v 10 ltac:(lia)).
  pose proof (Z.mod_pos_bound v 10 ltac:(lia)).
  assert (v / 10 < 10) by (apply Z.div_lt_upper_bound; lia).
  assert (0 <= v / 10) by (apply Z.div_pos; lia).
  rewrite (Z.mod_small (v / 10) 10) by lia. lia.
Qed.

Lemma int_of_pad4 y : 0 <= y <= 9999 -> int_of (pad4 y) = y.
Proof.
  intros Hy. unfold int_of, pad4. cbn [list_ascii_of_string fold_left].
  rewrite !isdecimal_digit, !digit_value.
  assert (H1 : y / 1000 = y / 100 / 10) by (rewrite Z.div_div by lia; reflexivity).
  assert (H2 : y / 100 = y / 10 / 10) by (rewrite Z.div_div by lia; reflexivity).
  pose proof (Z.div_mod y 10 ltac:(lia)).
  pose proof (Z.mod_pos_bound y 10 ltac:(lia)).
  pose proof (Z.div_mod (y / 10) 10 ltac:(lia)).
  pose proof (Z.mod_pos_bound (y / 10) 10 ltac:(lia)).
  pose proof (Z.div_mod (y / 100) 10 ltac:(lia)).
  pose proof (Z.mod_pos_bound (y / 100) 10 ltac:(lia)).
  assert (0 <= y / 1000 < 10)
    by (split; [apply Z.div_pos; lia|apply Z.div_lt_upper_bound; lia]).
  rewrite (Z.mod_small (y / 1000) 10) by lia. lia.
Qed.

Lemma match_items_dir d its s caps m r res :
  first_alternative (alternatives d) s = Some (m, r) ->
  match_items its r ((d, m) :: caps) = Some res ->
  match_items (IDir d :: its) s caps = Some res.
Proof.
  cbn [match_items]. generalize (alternatives d) as alts.
  induction alts as [|a alts IH]; cbn [first_alternative]; [discriminate|].
  destruct (match_seq a s) as [[m' r']|].
  - intros [= -> ->] ->. reflexivity.
  - exact IH.
Qed.

Lemma Z_range_cases (P : Z -> Prop) (lo : Z) (n : nat) :
  (forall k, (k < n)%nat -> P (lo + Z.of_nat k)) ->
  forall v, lo <= v < lo + Z.of_nat n -> P v.
Proof.
  intros H v Hv. replace v with (lo + Z.of_nat (Z.to_nat (v - lo))) by lia.
  apply H. lia.
Qed.

Tactic Notation "range_cases" constr(lo) integer(n) :=
  match goal with
  | |- forall v, _ -> @?P v =>
      apply (Z_range_cases P lo);
      let k := fresh "k" in
      let Hk := fresh "Hk" in
      intros k Hk;
      do n (destruct k as [|k]; [reflexivity|]);
      exfalso; lia
  end.

Lemma first_alternative_m rest :
  forall v, 1 <= v < 1 + Z.of_nat 12 ->
  first_alternative (alternatives dm) (pad2 v +:+ rest) = Some (pad2 v, rest).
Proof. range_cases 1 12. Qed.

Lemma first_alternative_d rest :
  forall v, 1 <= v < 1 + Z.of_nat 31 ->
  first_alternative (alternatives dd) (pad2 v +:+ rest) = Some (pad2 v, rest).
Proof. range_cases 1 31. Qed.

Lemma first_alternative_H rest :
  forall v, 0 <= v < 0 + Z.of_nat 24 ->
  first_alternative (alternatives dH) (pad2 v +:+ rest) = Some (pad2 v, rest).
Proof. range_cases 0 24. Qed.

Lemma first_alternative_M rest :
  forall v, 0 <= v < 0 + Z.of_nat 60 ->
  first_alternative (alternatives dM) (pad2 v +:+ rest) = Some (pad2 v, rest).
Proof. range_cases 0 60. Qed.

Lemma first_alternative_S rest :
  forall v, 0 <= v < 0 + Z.of_nat 60 ->
  first_alternative (alternatives dS) (pad2 v +:+ rest) = Some (pad2 v, rest).
Proof. range_cases 0 60. Qed.

Lemma append_String c s r : String c s +:+ r = String c (s +:+ r).
Proof. reflexivity. Qed.

Lemma append_empty r : EmptyString +:+ r = r.
Proof. reflexivity. Qed.

Lemma first_alternative_Y y rest :
  first_alternative (alternatives dY) (pad4 y +:+ rest) = Some (pad4 y, rest).
Proof.
  unfold pad4. rewrite !append_String, append_empty.
  cbn -[digit_char isdecimal]. rewrite !isdecimal_digit. reflexivity.
Qed.

Lemma append_assoc (a b c : string) : (a +:+ b) +:+ c = a +:+ (b +:+ c).
Proof.
  induction a as [|x a IH]; [reflexivity|].
  rewrite !append_String, IH. reflexivity.
Qed.

Lemma append_nil_r (a : string) : a +:+ EmptyString = a.
Proof.
  induction a as [|x a IH]; [reflexivity|].
  rewrite append_String, IH. reflexivity.
Qed.

Lemma match_items_lit c its s caps :
  match_items (ILit c :: its) (String c s) caps = match_items its s caps.
Proof. cbn [match_items]. rewrite Ascii.eqb_refl. reflexivity. Qed.

Lemma match_items_lit_ne c c' its s caps :
  Ascii.eqb c c' = false ->
  match_items (ILit c :: its) (String c' s) caps = None.
Proof. intros H. cbn [match_items]. rewrite H. reflexivity. Qed.

Lemma match_items_space c its s caps :
  isspace c = false ->
  match_items (ISpaces :: its) (String " " (String c s)) caps
  = match_items its (String c s) caps.
Proof. intros H. cbn [match_items]. rewrite H. reflexivity. Qed.

Lemma match_items_dY its s caps :
  match_items (IDir dY :: its) s caps
  = match match_seq [Digit; Digit; Digit; Digit] s with
    | Some (m, r) =>
        match match_items its r ((dY, m) :: caps) with
        | Some res => Some res
        | None => None
        end
    | None => None
    end.
Proof. reflexivity. Qed.

Lemma match_seq_Y y rest :
  match_seq [Digit; Digit; Digit; Digit] (pad4 y +:+ rest) = Some (pad4 y, rest).
Proof.
  pose proof (first_alternative_Y y rest) as H. cbn [alternatives first_alternative] in H.
  destruct (match_seq _ _); [exact H|discriminate].
Qed.

Lemma match_seq_Y_short v sep rest :
  isdecimal sep = false ->
  match_seq [Digit; Digit; Digit; Digit] (pad2 v +:+ String sep rest) = None.
Proof.
  intros H. unfold pad2. rewrite !append_String, append_empty.
  cbn -[digit_char isdecimal]. rewrite !isdecimal_digit, H. reflexivity.
Qed.

(** A day directive followed by a literal cannot start on three
    characters of which the second and the third differ from the
    literal. *)
Lemma day_then_literal_fails lit c1 c2 c3 its rest caps :
  Ascii.eqb lit c2 = false -> Ascii.eqb lit c3 = false ->
  match_items (IDir dd :: ILit lit :: its)
    (String c1 (String c2 (String c3 rest))) caps = None.
Proof.
  intros H2 H3.
  repeat (progress
            (cbn [match_items alternatives match_seq]; rewrite ?H2, ?H3;
             try match goal with
                 | |- context [if ?b then _ else _] => destruct b
                 end)).
  all: reflexivity.
Qed.

Lemma not_decimal_ne lit c :
  isdecimal lit = false -> isdecimal c = true -> Ascii.eqb lit c = false.
Proof.
  intros Hl Hc. destruct (Ascii.eqb_spec lit c) as [->|]; [congruence|reflexivity].
Qed.

Lemma valid_date_bounds y m d :
  valid_date y m d = true ->
  1 <= y <= 9999 /\ 1 <= m <= 12 /\ 1 <= d <= 31.
Proof.
  unfold valid_date, days_in_month. intros H.
  repeat (apply andb_true_iff in H as [H ?]).
  repeat match goal with
         | H : (_ <=? _) = true |- _ => apply Z.leb_le in H
         end.
  repeat match goal with
         | H : context [if ?b then _ else _] |- _ => destruct b
         end; lia.
Qed.

Lemma valid_time_bounds h mi s :
  valid_time h mi s = true -> 0 <= h <= 23 /\ 0 <= mi <= 59 /\ 0 <= s <= 59.
Proof.
  unfold valid_time. intros H.
  repeat (apply andb_true_iff in H as [H ?]).
  repeat match goal with
         | H : (_ <=? _) = true |- _ => apply Z.leb_le in H
         end.
  lia.
Qed.

Lemma match_ymd sep y m d its rest caps res :
  1 <= m <= 12 -> 1 <= d <= 31 ->
  match_items its rest ((dd, pad2 d) :: (dm, pad2 m) :: (dY, pad4 y) :: caps)
  = Some res ->
  match_items (items_ymd sep ++ its)
    (pad4 y +:+ String sep (pad2 m +:+ String sep (pad2 d +:+ rest))) caps
  = Some res.
Proof.
  intros Hm Hd H. unfold items_ymd. cbn [app].
  eapply match_items_dir; [apply first_alternative_Y|].
  rewrite match_items_lit.
  eapply match_items_dir; [apply first_alternative_m; lia|].
  rewrite match_items_lit.
  eapply match_items_dir; [apply first_alternative_d; lia|].
  exact H.
Qed.

Lemma match_dmy sep y m d its rest caps res :
  1 <= m <= 12 -> 1 <= d <= 31 ->
  match_items its rest ((dY, pad4 y) :: (dm, pad2 m) :: (dd, pad2 d) :: caps)
  = Some res ->
  match_items (items_dmy sep ++ its)
    (pad2 d +:+ String sep (pad2 m +:+ String sep (pad4 y +:+ rest))) caps
  = Some res.
Proof.
  intros Hm Hd H. unfold items_dmy. cbn [app].
  eapply match_items_dir; [apply first_alternative_d; lia|].
  rewrite match_items_lit.
  eapply match_items_dir; [apply first_alternative_m; lia|].
  rewrite match_items_lit.
  eapply match_items_dir; [apply first_alternative_Y|].
  exact H.
Qed.

Lemma match_time h mi s caps :
  0 <= h <= 23 -> 0 <= mi <= 59 -> 0 <= s <= 59 ->
  match_items items_time (String " " (render_time h mi s)) caps
  = Some ((dS, pad2 s) :: (dM, pad2 mi) :: (dH, pad2 h) :: caps, EmptyString).
Proof.
  intros Hh Hmi Hs. unfold items_time, render_time.
  assert (Hsp : pad2 h +:+ String ":" (pad2 mi +:+ String ":" (pad2 s))
                = String (digit_char (h / 10))
                    (String (digit_char h)
                       (String ":" (pad2 mi +:+ String ":" (pad2 s)))))
    by reflexivity.
  rewrite Hsp. rewrite match_items_space by apply isspace_digit.
  rewrite <- Hsp.
  eapply match_items_dir; [apply first_alternative_H; lia|].
  rewrite match_items_lit.
  eapply match_items_dir; [apply first_alternative_M; lia|].
  rewrite match_items_lit.
  rewrite <- (append_nil_r (pad2 s)).
  eapply match_items_dir; [apply first_alternative_S; lia|].
  reflexivity.
Qed.

Lemma captures_ymd y m d :
  let caps := [(dd, pad2 d); (dm, pad2 m); (dY, pad4 y)] in
  capture caps dY 1900 = int_of (pad4 y)
  /\ capture caps dm 1 = int_of (pad2 m)
  /\ capture caps dd 1 = int_of (pad2 d)
  /\ capture caps dH 0 = 0 /\ capture caps dM 0 = 0 /\ capture caps dS 0 = 0.
Proof. repeat split; reflexivity. Qed.

Lemma captures_dmy y m d :
  let caps := [(dY, pad4 y); (dm, pad2 m); (dd, pad2 d)] in
  capture caps dY 1900 = int_of (pad4 y)
  /\ capture caps dm 1 = int_of (pad2 m)
  /\ capture caps dd 1 = int_of (pad2 d)
  /\ capture caps dH 0 = 0 /\ capture caps dM 0 = 0 /\ capture caps dS 0 = 0.
Proof. repeat split; reflexivity. Qed.

Lemma captures_date_time y m d h mi s :
  let caps := [(dS, pad2 s); (dM, pad2 mi); (dH, pad2 h);
               (dd, pad2 d); (dm, pad2 m); (dY, pad4 y)] in
  capture caps dY 1900 = int_of (pad4 y)
  /\ capture caps dm 1 = int_of (pad2 m)
  /\ capture caps dd 1 = int_of (pad2 d)
  /\ capture caps dH 0 = int_of (pad2 h)
  /\ capture caps dM 0 = int_of (pad2 mi)
  /\ capture caps dS 0 = int_of (pad2 s).
Proof. repeat split; reflexivity. Qed.

Lemma strptime_ymd sep fmt d :
  compile_format false fmt = Some (items_ymd sep) ->
  valid_date (year d) (month d) (day d) = true ->
  strptime (render_ymd sep d) fmt
  = Return (Datetime (year d) (month d) (day d) 0 0 0 0).
Proof.
  intros Hf Hv. destruct (valid_date_bounds _ _ _ Hv) as (Hy & Hm & Hd).
  unfold strptime, render_ymd. rewrite Hf.
  rewrite <- (app_nil_r (items_ymd sep)).
  rewrite <- (append_nil_r (pad2 (day d))).
  rewrite (match_ymd sep (year d) (month d) (day d) [] EmptyString []
             ([(dd, pad2 (day d)); (dm, pad2 (month d)); (dY, pad4 (year d))],
              EmptyString) Hm Hd eq_refl).
  destruct (captures_ymd (year d) (month d) (day d))
    as (-> & -> & -> & -> & -> & ->).
  rewrite int_of_pad4, !int_of_pad2 by lia. rewrite Hv. reflexivity.
Qed.

Lemma strptime_dmy sep fmt d :
  compile_format false fmt = Some (items_dmy sep) ->
  valid_date (year d) (month d) (day d) = true ->
  strptime (render_dmy sep d) fmt
  = Return (Datetime (year d) (month d) (day d) 0 0 0 0).
Proof.
  intros Hf Hv. destruct (valid_date_bounds _ _ _ Hv) as (Hy & Hm & Hd).
  unfold strptime, render_dmy. rewrite Hf.
  rewrite <- (app_nil_r (items_dmy sep)).
  rewrite <- (append_nil_r (pad4 (year d))).
  rewrite (match_dmy sep (year d) (month d) (day d) [] EmptyString []
             ([(dY, pad4 (year d)); (dm, pad2 (month d)); (dd, pad2 (day d))],
              EmptyString) Hm Hd eq_refl).
  destruct (captures_dmy (year d) (month d) (day d))
    as (-> & -> & -> & -> & -> & ->).
  rewrite int_of_pad4, !int_of_pad2 by lia. rewrite Hv. reflexivity.
Qed.

Lemma strptime_ymd_time sep fmt d h mi s :
  compile_format false fmt = Some (items_ymd sep ++ items_time) ->
  valid_date (year d) (month d) (day d) = true ->
  valid_time h mi s = true ->
  strptime (render_ymd sep d +:+ String " " (render_time h mi s)) fmt
  = Return (Datetime (year d) (month d) (day d) h mi s 0).
Proof.
  intros Hf Hv Ht. destruct (valid_date_bounds _ _ _ Hv) as (Hy & Hm & Hd).
  destruct (valid_time_bounds _ _ _ Ht) as (Hh & Hmi & Hs).
  unfold strptime, render_ymd. rewrite Hf.
  repeat (rewrite append_assoc || rewrite append_String).
  rewrite (match_ymd sep (year d) (month d) (day d) items_time _ []
             _ Hm Hd (match_time h mi s _ Hh Hmi Hs)).
  destruct (captures_date_time (year d) (month d) (day d) h mi s)
    as (-> & -> & -> & -> & -> & ->).
  rewrite int_of_pad4, !int_of_pad2 by lia. rewrite Hv, Ht. reflexivity.
Qed.

(** A year-first pattern on a text with the other separator. *)
Lemma strptime_wrong_separator sep sep' fmt its y rest :
  compile_format false fmt = Some (IDir dY :: ILit sep :: its) ->
  Ascii.eqb sep sep' = false ->
  strptime (pad4 y +:+ String sep' rest) fmt = Raised ValueError.
Proof.
  intros Hf Hs. unfold strptime. rewrite Hf, match_items_dY, match_seq_Y.
  rewrite (match_items_lit_ne _ _ _ _ _ Hs). reflexivity.
Qed.

(** A year-first pattern on a text that starts with a two-digit day. *)
Lemma strptime_year_on_day sep fmt its v rest :
  compile_format false fmt = Some (IDir dY :: its) ->
  isdecimal sep = false ->
  strptime (pad2 v +:+ String sep rest) fmt = Raised ValueError.
Proof.
  intros Hf Hs. unfold strptime.
  rewrite Hf, match_items_dY, (match_seq_Y_short _ _ _ Hs). reflexivity.
Qed.

(** A day-first pattern on a text whose second and third characters
    differ from its separator. *)
Lemma strptime_day_fails lit fmt its c1 c2 c3 rest :
  compile_format false fmt = Some (IDir dd :: ILit lit :: its) ->
  Ascii.eqb lit c2 = false -> Ascii.eqb lit c3 = false ->
  strptime (String c1 (String c2 (String c3 rest))) fmt = Raised ValueError.
Proof.
  intros Hf H2 H3. unfold strptime.
  rewrite Hf, (day_then_literal_fails _ _ _ _ _ _ _ H2 H3). reflexivity.
Qed.

(** A date pattern on a date followed by more text. *)
Lemma strptime_trailing sep fmt d c rest :
  compile_format false fmt = Some (items_ymd sep) ->
  valid_date (year d) (month d) (day d) = true ->
  strptime (render_ymd sep d +:+ String c rest) fmt = Raised ValueError.
Proof.
  intros Hf Hv. destruct (valid_date_bounds _ _ _ Hv) as (Hy & Hm & Hd).
  unfold strptime, render_ymd. rewrite Hf.
  repeat (rewrite append_assoc || rewrite append_String).
  rewrite <- (app_nil_r (items_ymd sep)).
  rewrite (match_ymd sep (year d) (month d) (day d) [] (String c rest) []
             _ Hm Hd eq_refl).
  reflexivity.
Qed.

Lemma rstrip_ends s : ends_nonspace s = true -> rstrip s = s.
Proof.
  induction s as [|c s IH]; [reflexivity|].
  destruct s as [|c' s'].
  - cbn. destruct (isspace c); [discriminate|reflexivity].
  - intros H. change (ends_nonspace (String c' s') = true) in H.
    change (rstrip (String c (String c' s')))
      with (match rstrip (String c' s') with
            | EmptyString => if isspace c then EmptyString else String c EmptyString
            | String a r => String c (String a r)
            end).
    rewrite (IH H). reflexivity.
Qed.

Lemma strip_canonical c s :
  isspace c = false -> ends_nonspace (String c s) = true ->
  strip (String c s) = String c s.
Proof.
  intros Hc He. unfold strip. cbn [lstrip]. rewrite Hc. apply rstrip_ends, He.
Qed.

Lemma parse_date_canonical c s d :
  isspace c = false -> ends_nonspace (String c s) = true ->
  try_formats (String c s) formats = Return (Some d) ->
  _parse_date (VStr (String c s)) = Return (Some d).
Proof.
  intros Hc He Ht. unfold _parse_date. cbn [truthy value_strip String.eqb negb].
  rewrite (strip_canonical c s Hc He). cbn [String.eqb]. exact Ht.
Qed.

Ltac ends_with_digit :=
  unfold render_ymd, render_dmy, render_time, pad2, pad4;
  repeat (rewrite append_assoc || rewrite append_String || rewrite append_empty);
  cbn [ends_nonspace]; rewrite isspace_digit; reflexivity.

Lemma dot_ne_digit n : Ascii.eqb "." (digit_char n) = false.
Proof. apply not_decimal_ne; [reflexivity|apply isdecimal_digit]. Qed.

Lemma slash_ne_digit n : Ascii.eqb "/" (digit_char n) = false.
Proof. apply not_decimal_ne; [reflexivity|apply isdecimal_digit]. Qed.

Section Canonical.
Variable d : date.
Hypothesis Hv : valid_date (year d) (month d) (day d) = true.

Lemma parse_ymd_dash : _parse_date (VStr (render_ymd "-" d)) = Return (Some d).
Proof.
  apply (parse_date_canonical (digit_char (year d / 1000)));
    [apply isspace_digit|ends_with_digit|].
  change (String _ _) with (render_ymd "-" d).
  cbn [try_formats formats].
  rewrite (strptime_ymd "-" "%Y-%m-%d" d eq_refl Hv).
  destruct d; reflexivity.
Qed.

Lemma parse_ymd_slash : _parse_date (VStr (render_ymd "/" d)) = Return (Some d).
Proof.
  apply (parse_date_canonical (digit_char (year d / 1000)));
    [apply isspace_digit|ends_with_digit|].
  change (String _ _) with (render_ymd "/" d).
  cbn [try_formats formats].
  assert (H1 : strptime (render_ymd "/" d) "%Y-%m-%d" = Raised ValueError)
    by (unfold render_ymd;
        apply (strptime_wrong_separator "-" "/" "%Y-%m-%d" _ _ _ eq_refl eq_refl)).
  rewrite H1.
  rewrite (strptime_ymd "/" "%Y/%m/%d" d eq_refl Hv).
  destruct d; reflexivity.
Qed.

Lemma parse_dmy_dot : _parse_date (VStr (render_dmy "." d)) = Return (Some d).
Proof.
  apply (parse_date_canonical (digit_char (day d / 10)));
    [apply isspace_digit|ends_with_digit|].
  change (String _ _) with (render_dmy "." d).
  cbn [try_formats formats].
  assert (H1 : strptime (render_dmy "." d) "%Y-%m-%d" = Raised ValueError)
    by (unfold render_dmy;
        apply (strptime_year_on_day "." "%Y-%m-%d" _ _ _ eq_refl eq_refl)).
  assert (H2 : strptime (render_dmy "." d) "%Y/%m/%d" = Raised ValueError)
    by (unfold render_dmy;
        apply (strptime_year_on_day "." "%Y/%m/%d" _ _ _ eq_refl eq_refl)).
  rewrite H1, H2.
  rewrite (strptime_dmy "." "%d.%m.%Y" d eq_refl Hv).
  destruct d; reflexivity.
Qed.

Lemma parse_dmy_slash : _parse_date (VStr (render_dmy "/" d)) = Return (Some d).
Proof.
  apply (parse_date_canonical (digit_char (day d / 10)));
    [apply isspace_digit|ends_with_digit|].
  change (String _ _) with (render_dmy "/" d).
  cbn [try_formats formats].
  assert (H1 : strptime (render_dmy "/" d) "%Y-%m-%d" = Raised ValueError)
    by (unfold render_dmy;
        apply (strptime_year_on_day "/" "%Y-%m-%d" _ _ _ eq_refl eq_refl)).
  assert (H2 : strptime (render_dmy "/" d) "%Y/%m/%d" = Raised ValueError)
    by (unfold render_dmy;
        apply (strptime_year_on_day "/" "%Y/%m/%d" _ _ _ eq_refl eq_refl)).
  rewrite H1, H2.
  assert (H3 : strptime (render_dmy "/" d) "%d.%m.%Y" = Raised ValueError).
  { change (render_dmy "/" d)
      with (String (digit_char (day d / 10))
              (String (digit_char (day d))
                 (String "/" (pad2 (month d) +:+ String "/" (pad4 (year d)))))).
    apply (strptime_day_fails "." "%d.%m.%Y" _ _ _ _ _ eq_refl);
      [apply dot_ne_digit|reflexivity]. }
  rewrite H3.
  rewrite (strptime_dmy "/" "%d/%m/%Y" d eq_refl Hv).
  destruct d; reflexivity.
Qed.

Variables h mi s : Z.
Hypothesis Ht : valid_time h mi s = true.

Lemma day_first_on_year sep lit fmt its :
  compile_format false fmt = Some (IDir dd :: ILit lit :: its) ->
  lit = "."%char \/ lit = "/"%char ->
  strptime (render_ymd sep d +:+ String " " (render_time h mi s)) fmt
  = Raised ValueError.
Proof.
  intros Hf Hl.
  change (render_ymd sep d +:+ String " " (render_time h mi s))
    with (String (digit_char (year d / 1000))
            (String (digit_char (year d / 100))
               (String (digit_char (year d / 10))
                  (String (digit_char (year d))
                     (String sep (pad2 (month d) +:+ String sep (pad2 (day d)))
                      +:+ String " " (render_time h mi s)))))).
  apply (strptime_day_fails lit _ _ _ _ _ _ Hf);
    destruct Hl as [-> | ->]; auto using dot_ne_digit, slash_ne_digit.
Qed.

Lemma year_first_other_separator sep sep' fmt its :
  compile_format false fmt = Some (IDir dY :: ILit sep :: its) ->
  Ascii.eqb sep sep' = false ->
  strptime (render_ymd sep' d +:+ String " " (render_time h mi s)) fmt
  = Raised ValueError.
Proof.
  intros Hf Hs. unfold render_ymd.
  repeat (rewrite append_assoc || rewrite append_String).
  exact (strptime_wrong_separator sep sep' fmt its _ _ Hf Hs).
Qed.

Lemma parse_ymd_dash_time :
  _parse_date (VStr (render_ymd "-" d +:+ String " " (render_time h mi s)))
  = Return (Some d).
Proof.
  apply (parse_date_canonical (digit_char (year d / 1000)));
    [apply isspace_digit|ends_with_digit|].
  change (String _ _)
    with (render_ymd "-" d +:+ String " " (render_time h mi s)).
  cbn [try_formats formats].
  rewrite (strptime_trailing "-" "%Y-%m-%d" d " " _ eq_refl Hv).
  rewrite (year_first_other_separator "/" "-" "%Y/%m/%d" _ eq_refl eq_refl).
  rewrite (day_first_on_year "-" "." "%d.%m.%Y" _ eq_refl (or_introl eq_refl)).
  rewrite (day_first_on_year "-" "/" "%d/%m/%Y" _ eq_refl (or_intror eq_refl)).
  rewrite (strptime_ymd_time "-" "%Y-%m-%d %H:%M:%S" d h mi s eq_refl Hv Ht).
  destruct d; reflexivity.
Qed.

Lemma parse_ymd_slash_time :
  _parse_date (VStr (render_ymd "/" d +:+ String " " (render_time h mi s)))
  = Return (Some d).
Proof.
  apply (parse_date_canonical (digit_char (year d / 1000)));
    [apply isspace_digit|ends_with_digit|].
  change (String _ _)
    with (render_ymd "/" d +:+ String " " (render_time h mi s)).
  cbn [try_formats formats].
  rewrite (year_first_other_separator "-" "/" "%Y-%m-%d" _ eq_refl eq_refl).
  rewrite (strptime_trailing "/" "%Y/%m/%d" d " " _ eq_refl Hv).
  rewrite (day_first_on_year "/" "." "%d.%m.%Y" _ eq_refl (or_introl eq_refl)).
  rewrite (day_first_on_year "/" "/" "%d/%m/%Y" _ eq_refl (or_intror eq_refl)).
  rewrite (year_first_other_separator "-" "/" "%Y-%m-%d %H:%M:%S" _ eq_refl eq_refl).
  rewrite (strptime_ymd_time "/" "%Y/%m/%d %H:%M:%S" d h mi s eq_refl Hv Ht).
  destruct d; reflexivity.
Qed.
End Canonical.

Lemma first_match_none data pats :
  Forall (fun p => accepts data p = None) pats -> first_match data pats = None.
Proof.
  unfold first_match. induction 1 as [|p pats Hp _ IH]; [reflexivity|].
  cbn [List.find]. unfold matches at 1. rewrite Hp. exact IH.
Qed.

(** A few texts outside the canonical ones. *)
Example parse_date_samples :
  _parse_date (VStr " 15.1.2023  ") = Return (Some (Date 2023 1 15))
  /\ _parse_date (VStr "01/02/2023") = Return (Some (Date 2023 2 1))
  /\ _parse_date (VStr "2023-02-30") = Return None
  /\ _parse_date (VStr "2023-01-15T10:00:00") = Return None
  /\ _parse_date (VStr "   ") = Return None
  /\ _parse_date (VStr "") = Return None.
Proof. vm_compute. repeat split. Qed.


(** * Further properties of the code *)

(** ** More on ordered dictionaries *)

Lemma dict_get_app {V} (k : string) (d1 d2 : dict V) :
  dict_get k (d1 ++ d2)
  = match dict_get k d1 with
    | Some v => Some v
    | None => dict_get k d2
    end.
Proof.
  induction d1 as [|[k0 v0] d1 IH]; [reflexivity|]. cbn.
  destruct (String.eqb k k0); [reflexivity|exact IH].
Qed.

Lemma dict_set_fresh {V} (k : string) (v : V) (d : dict V) :
  dict_get k d = None -> dict_set k v d = d ++ [(k, v)].
Proof.
  induction d as [|[k0 v0] d IH]; [reflexivity|]. cbn.
  destruct (String.eqb k k0); [discriminate|].
  intros H. rewrite (IH H). reflexivity.
Qed.

Lemma dict_get_key {V} (k : string) (d : dict V) :
  k ∈ map fst d -> is_Some (dict_get k d).
Proof.
  induction d as [|[k0 v0] d IH]; cbn.
  - intros H. inversion H.
  - rewrite elem_of_cons. destruct (String.eqb_spec k k0) as [->|Hne]; [eauto|].
    intros [H|H]; [contradiction|auto].
Qed.

Lemma dict_get_None_key {V} (k : string) (d : dict V) :
  dict_get k d = None -> k ∉ map fst d.
Proof.
  intros H Hin. destruct (dict_get_key k d Hin) as [v Hv]. congruence.
Qed.

Lemma dict_get_entry {V} (k : string) (v : V) (d : dict V) :
  NoDup (map fst d) -> (k, v) ∈ d -> dict_get k d = Some v.
Proof.
  induction d as [|[k0 v0] d IH]; cbn.
  - intros _ H. inversion H.
  - rewrite NoDup_cons, elem_of_cons. intros [Hnot Hnd] [[= -> ->]|Hin].
    + rewrite String.eqb_refl. reflexivity.
    + destruct (String.eqb_spec k k0) as [->|Hne]; [|auto].
      exfalso. apply Hnot.
      change k0 with (fst (k0, v)). apply list_elem_of_fmap_2, Hin.
Qed.

Lemma dict_set_keys {V} (k : string) (v : V) (d : dict V) :
  NoDup (map fst d) -> NoDup (map fst (dict_set k v d)).
Proof.
  intros Hnd. destruct (dict_get k d) as [v0|] eqn:Hg.
  - assert (Hk : map fst (dict_set k v d) = map fst d); [|rewrite Hk; exact Hnd].
    clear Hnd. induction d as [|[k0 v1] d IH]; [discriminate|]. cbn in *.
    destruct (String.eqb k k0); [reflexivity|]. cbn. rewrite (IH Hg). reflexivity.
  - rewrite (dict_set_fresh _ _ _ Hg), map_app. cbn.
    apply NoDup_app. split; [exact Hnd|]. split; [|apply NoDup_singleton].
    intros x Hx Hx'. apply list_elem_of_singleton in Hx'. subst x.
    exact (dict_get_None_key _ _ Hg Hx).
Qed.

Lemma dict_update_fresh {V} (d extra : dict V) :
  NoDup (map fst extra) ->
  (forall k, k ∈ map fst extra -> dict_get k d = None) ->
  dict_update d extra = d ++ extra.
Proof.
  unfold dict_update. revert d.
  induction extra as [|[k v] extra IH]; intros d Hnd Hfresh; cbn.
  - rewrite app_nil_r. reflexivity.
  - cbn in Hnd. apply NoDup_cons in Hnd as [Hnot Hnd].
    rewrite (dict_set_fresh k v d) by (apply Hfresh; cbn; apply list_elem_of_here).
    rewrite IH.
    + rewrite <- app_assoc. reflexivity.
    + exact Hnd.
    + intros k' Hk'. rewrite dict_get_app.
      rewrite (Hfresh k') by (cbn; apply list_elem_of_further, Hk').
      cbn. destruct (String.eqb_spec k' k) as [->|]; [contradiction|reflexivity].
Qed.

(** ** What field mapping stores *)

Lemma map_field_lookup old_row new_data old_field new_field new_data' :
  map_field old_row new_data old_field new_field = Return new_data' ->
  dict_get new_field new_data'
  = match old_row !! old_field ≫= mapped_value new_field with
    | Some v => Some v
    | None => dict_get new_field new_data
    end
  /\ (forall k, k <> new_field -> dict_get k new_data' = dict_get k new_data)
  /\ (NoDup (map fst new_data) -> NoDup (map fst new_data')).
Proof.
  unfold map_field.
  assert (Hset : forall v,
            dict_get new_field (dict_set new_field v new_data) = Some v
            /\ (forall k, k <> new_field ->
                  dict_get k (dict_set new_field v new_data) = dict_get k new_data)
            /\ (NoDup (map fst new_data) ->
                NoDup (map fst (dict_set new_field v new_data)))).
  { intros v. split; [|split].
    - rewrite dict_get_set, String.eqb_refl. reflexivity.
    - intros k Hk. rewrite dict_get_set.
      destruct (String.eqb_spec k new_field); [contradiction|reflexivity].
    - apply dict_set_keys. }
  destruct (old_row !! old_field) as [x|]; cbn [mbind option_bind];
    [|intros [= <-]; auto].
  destruct x as [|s|n|d|dt]; cbn [is_VNone mapped_value is_str_or_datetime str];
    try (intros [= <-]; auto);
    destruct (String.eqb new_field "date_added"); cbn [andb];
    try (intros [= <-]; destruct (Hset (JStr (str_of_int n))); auto; fail);
    try (intros [= <-]; apply Hset).
  rewrite parse_date_str. destruct (parse_date_spec s);
    intros [= <-]; [apply Hset|auto].
Qed.

Lemma map_fields_lookup old_row field_mapping :
  NoDup (map snd field_mapping) ->
  forall new_data new_data',
    map_fields old_row field_mapping new_data = Return new_data' ->
    (forall old_field new_field,
       (old_field, new_field) ∈ field_mapping ->
       dict_get new_field new_data = None) ->
    (forall old_field new_field,
       (old_field, new_field) ∈ field_mapping ->
       dict_get new_field new_data'
       = old_row !! old_field ≫= mapped_value new_field)
    /\ (forall k, k ∉ map snd field_mapping ->
          dict_get k new_data' = dict_get k new_data)
    /\ (NoDup (map fst new_data) -> NoDup (map fst new_data')).
Proof.
  induction field_mapping as [|[o n] rest IH]; intros Hnd nd nd' Hrun Hfresh.
  - cbn in Hrun. injection Hrun as <-. split; [|auto].
    intros ? ? H. inversion H.
  - cbn [map_fields] in Hrun. cbn in Hnd. apply NoDup_cons in Hnd as [Hnot Hnd].
    destruct (map_field old_row nd o n) as [nd1|] eqn:H1; [|discriminate].
    destruct (map_field_lookup _ _ _ _ _ H1) as (Hn & Hother & Hk1).
    rewrite (Hfresh o n) in Hn by apply list_elem_of_here.
    assert (Hne : forall old new, (old, new) ∈ rest -> new <> n).
    { intros old new Hin ->. apply Hnot.
      change n with (snd (old, n)). apply list_elem_of_fmap_2, Hin. }
    destruct (IH Hnd nd1 nd' Hrun) as (Hrest & Hkeep & Hk2).
    { intros old new Hin. rewrite (Hother new) by (eapply Hne; eauto).
      apply (Hfresh old new), list_elem_of_further, Hin. }
    split; [|split].
    + intros old new Hin. apply elem_of_cons in Hin as [[= -> ->]|Hin].
      * rewrite (Hkeep n Hnot), Hn.
        destruct (old_row !! o ≫= mapped_value n); reflexivity.
      * exact (Hrest old new Hin).
    + intros k Hk. cbn in Hk. apply not_elem_of_cons in Hk as [Hkn Hk].
      rewrite (Hkeep k Hk). apply Hother, Hkn.
    + auto.
Qed.

Lemma job_data_keys company_prefix r :
  NoDup (map fst (job_data_of company_prefix r)).
Proof.
  destruct (map_fields_lookup r (field_mapping_of company_prefix)
              (targets_unique company_prefix) [] _
              (map_job_fields_eq company_prefix r)) as (_ & _ & H).
  - reflexivity.
  - apply H. constructor.
Qed.

Lemma job_data_strings company_prefix r :
  Forall (fun kv : string * jvalue => exists s, snd kv = JStr s)
    (job_data_of company_prefix r).
Proof.
  apply Forall_forall. intros [k v] Hin.
  pose proof (dict_get_entry k v _ (job_data_keys company_prefix r) Hin) as Hg.
  destruct (map_fields_get _ _ _ _ _ _ (map_job_fields_eq company_prefix r) Hg)
    as [H|[old [_ [Hs _]]]]; [discriminate|exact Hs].
Qed.

(** X7.  Field mapping, read as a lookup table: for every pair of the
    configured mapping, the target holds the value computed from the
    source column alone (its text, the ISO text of its date), and is
    absent exactly when the column is, holds [None], or is a date text
    that matches no pattern; a target is never overwritten by another
    column, and the keys of the result are distinct. *)
Theorem map_job_fields_lookup (company_prefix : string) (r : row) :
  (forall old_field new_field,
     (old_field, new_field) ∈ field_mapping_of company_prefix ->
     dict_get new_field (job_data_of company_prefix r)
     = r !! old_field ≫= mapped_value new_field)
  /\ (forall old_field new_field s,
        (old_field, new_field) ∈ field_mapping_of company_prefix ->
        new_field <> "date_added" ->
        r !! old_field = Some (VStr s) ->
        dict_get new_field (job_data_of company_prefix r) = Some (JStr s))
  /\ (forall k,
        k ∉ map snd (field_mapping_of company_prefix) ->
        dict_get k (job_data_of company_prefix r) = None)
  /\ NoDup (map fst (job_data_of company_prefix r)).
Proof.
  destruct (map_fields_lookup r (field_mapping_of company_prefix)
              (targets_unique company_prefix) [] _
              (map_job_fields_eq company_prefix r)) as (H1 & H2 & H3);
    [reflexivity|].
  split; [exact H1|]. split; [|split; [exact H2|apply H3; constructor]].
  intros old new s Hin Hne Hr. rewrite (H1 old new Hin), Hr. cbn.
  destruct (String.eqb_spec new "date_added"); [contradiction|reflexivity].
Qed.

Lemma map_job_fields_lookup_witness :
  dict_get "title" (job_data_of "kls" row_e) = Some (JStr "")
  /\ dict_get "job_id" (job_data_of "kls" row_e) = Some (JStr "77")
  /\ dict_get "date_added" (job_data_of "kls" row_e) = Some (JStr "2023-03-04")
  /\ dict_get "level" (job_data_of "kls" row_e) = None.
Proof.
  destruct (map_job_fields_lookup "kls" row_e) as (H & Hs & _).
  assert (Hin : forall p, p ∈ field_mapping_of "kls" ->
                          p ∈ field_mapping_of "kls") by auto.
  split; [|split; [|split]].
  - apply (Hs "Title" "title" "").
    + refine (bool_decide_unpack _ _). vm_compute. exact I.
    + discriminate.
    + vm_compute. reflexivity.
  - rewrite (H "JobID" "job_id");
      [vm_compute; reflexivity|refine (bool_decide_unpack _ _); vm_compute; exact I].
  - rewrite (H "DateAdded" "date_added");
      [vm_compute; reflexivity|refine (bool_decide_unpack _ _); vm_compute; exact I].
  - rewrite (H "Level" "level");
      [vm_compute; reflexivity|refine (bool_decide_unpack _ _); vm_compute; exact I].
Defined.

(** X8.  The JSON body of a request is exactly the three fields set by
    [insert_job_via_api] followed by the mapped fields in the order of
    the mapping: no mapped field is dropped by the removal of [None]
    values, none overwrites [company_name], [hidden] or [scrape_date],
    and [hidden] is true exactly for the hidden organisations. *)
Theorem payload_is_fixed_fields_then_mapped
    (company_prefix company_name : string) (r : row) (scrape_date : date) :
  build_payload company_name (job_data_of company_prefix r) scrape_date
  = [("company_name", JStr company_name);
     ("hidden", JBool (bool_decide (company_name ∈ HIDDEN_COMPANIES)));
     ("scrape_date", JStr (isoformat scrape_date))]
    ++ job_data_of company_prefix r.
Proof.
  unfold build_payload. cbn zeta.
  rewrite dict_update_fresh.
  - rewrite List.filter_app. f_equal.
    pose proof (job_data_strings company_prefix r) as Hs.
    induction Hs as [|[k v] l [s Hv] _ IH]; [reflexivity|].
    cbn in Hv. subst v. cbn. rewrite IH. reflexivity.
  - apply job_data_keys.
  - intros k Hk. destruct (dict_get_key k _ Hk) as [v Hv].
    cbn. destruct (String.eqb_spec k "company_name") as [->|_];
      [rewrite job_data_reserved in Hv by auto; discriminate|].
    destruct (String.eqb_spec k "hidden") as [->|_];
      [rewrite job_data_reserved in Hv by auto; discriminate|].
    destruct (String.eqb_spec k "scrape_date") as [->|_];
      [rewrite job_data_reserved in Hv by auto; discriminate|].
    reflexivity.
Qed.

(** ** More on the date parser *)

Lemma strptime_valid data fmt dt :
  strptime data fmt = Return dt ->
  valid_date (dt_year dt) (dt_month dt) (dt_day dt) = true.
Proof.
  unfold strptime.
  destruct (compile_format false fmt) as [its|]; [|discriminate].
  destruct (match_items its data []) as [[caps rest]|]; [|discriminate].
  destruct rest; [|discriminate].
  destruct (valid_date _ _ _) eqn:Hv; cbn [andb]; [|discriminate].
  destruct (valid_time _ _ _); intros [= <-]. exact Hv.
Qed.

Lemma parse_date_spec_valid s d :
  parse_date_spec s = Some d -> valid_date (year d) (month d) (day d) = true.
Proof.
  unfold parse_date_spec, first_match.
  destruct (String.eqb (strip s) EmptyString); [discriminate|].
  destruct (List.find _ _) as [p|]; [|discriminate].
  unfold accepts. destruct (strptime (strip s) p) as [dt|] eqn:Hs; [|discriminate].
  intros [= <-]. exact (strptime_valid _ _ _ Hs).
Qed.

Lemma parse_date_valid v d :
  _parse_date v = Return (Some d) ->
  valid_date (year d) (month d) (day d) = true.
Proof.
  destruct v as [|s|n|d0|dt].
  - discriminate.
  - rewrite parse_date_str. intros [= H]. exact (parse_date_spec_valid _ _ H).
  - unfold _parse_date. cbn. destruct (n =? 0); discriminate.
  - discriminate.
  - discriminate.
Qed.

(** X6.  A date returned by the parser is a date of the calendar
    (year 1 to 9999, the day within its month, leap years counted), for
    every value given to it; so the [scrape_date] of every record of
    the join loop is the ISO text of such a date, which the parser
    reads back to the same date. *)
Theorem parsed_dates_are_calendar_dates
    (E : env) (company_prefix company_name : string) :
  (forall v d,
     _parse_date v = Return (Some d) ->
     valid_date (year d) (month d) (day d) = true)
  /\ (forall rows r d,
        (r, d) ∈ submitted_rows rows ->
        valid_date (year d) (month d) (day d) = true
        /\ dict_get "scrape_date"
             (snd (request_of E company_prefix company_name (r, d)))
           = Some (JStr (isoformat d))
        /\ _parse_date (VStr (isoformat d)) = Return (Some d)).
Proof.
  split; [exact parse_date_valid|].
  intros rows r d Hin.
  destruct (submitted_rows_dated _ _ _ Hin) as [_ Hd].
  assert (Hv : valid_date (year d) (month d) (day d) = true).
  { apply dated_row_date in Hd. unfold row_date in Hd.
    destruct (truthy _); [|discriminate]. exact (parse_date_valid _ _ Hd). }
  split; [exact Hv|]. split.
  - unfold request_of. cbn [fst snd].
    apply build_payload_fixed; apply job_data_reserved; auto.
  - exact (parse_ymd_dash d Hv).
Qed.

Lemma parsed_dates_are_calendar_dates_witness :
  valid_date 2023 1 16 = true
  /\ _parse_date (VStr (isoformat (Date 2023 1 16))) = Return (Some (Date 2023 1 16)).
Proof.
  destruct (parsed_dates_are_calendar_dates sample_env "kls" "KLS") as [H1 H2].
  assert (Hin : (row_a2, Date 2023 1 16) ∈ submitted_rows [row_a1; row_a2]).
  { vm_compute. apply list_elem_of_further, list_elem_of_here. }
  destruct (H2 _ _ _ Hin) as (Hv & _ & Hp).
  split; [exact Hv|exact Hp].
Defined.

(** White space around a text. *)

Lemma lstrip_all_space ws : all_space ws = true -> lstrip ws = EmptyString.
Proof.
  induction ws as [|c ws IH]; [reflexivity|]. cbn.
  destruct (isspace c); [exact IH|discriminate].
Qed.

Lemma lstrip_space_prefix ws s :
  all_space ws = true -> lstrip (ws +:+ s) = lstrip s.
Proof.
  induction ws as [|c ws IH]; [reflexivity|]. cbn [all_space].
  rewrite append_String. cbn [lstrip].
  destruct (isspace c); [exact IH|discriminate].
Qed.

Lemma rstrip_all_space ws : all_space ws = true -> rstrip ws = EmptyString.
Proof.
  induction ws as [|c ws IH]; [reflexivity|]. cbn [all_space rstrip].
  destruct (isspace c); [|discriminate]. cbn [andb]. intros H.
  rewrite (IH H). reflexivity.
Qed.

Lemma rstrip_space_suffix s ws :
  all_space ws = true -> rstrip (s +:+ ws) = rstrip s.
Proof.
  intros Hws. induction s as [|c s IH].
  - rewrite append_empty. apply rstrip_all_space, Hws.
  - rewrite append_String. cbn [rstrip]. rewrite IH. reflexivity.
Qed.

Lemma strip_space_suffix s ws :
  all_space ws = true -> strip (s +:+ ws) = strip s.
Proof.
  intros Hws. unfold strip. induction s as [|c s IH].
  - rewrite append_empty, (lstrip_all_space _ Hws). reflexivity.
  - rewrite append_String. cbn [lstrip]. destruct (isspace c); [exact IH|].
    rewrite <- append_String. apply rstrip_space_suffix, Hws.
Qed.

Lemma strip_surrounded ws1 s ws2 :
  all_space ws1 = true -> all_space ws2 = true ->
  strip (ws1 +:+ s +:+ ws2) = strip s.
Proof.
  intros H1 H2. unfold strip at 1. rewrite (lstrip_space_prefix _ _ H1).
  exact (strip_space_suffix s ws2 H2).
Qed.

Lemma parse_date_spec_strip s t :
  strip s = strip t -> parse_date_spec s = parse_date_spec t.
Proof. unfold parse_date_spec. intros ->. reflexivity. Qed.

(** X9.  White space (blanks, tabs, line ends) before and after a date
    text does not change what the parser returns. *)
Theorem parse_date_ignores_surrounding_space (ws1 s ws2 : string) :
  all_space ws1 = true -> all_space ws2 = true ->
  _parse_date (VStr (ws1 +:+ s +:+ ws2)) = _parse_date (VStr s).
Proof.
  intros H1 H2. rewrite !parse_date_str. f_equal.
  apply parse_date_spec_strip, strip_surrounded; assumption.
Qed.

Lemma parse_date_ignores_surrounding_space_witness :
  _parse_date (VStr (String "009" " " +:+ "15.01.2023" +:+ String "010" ""))
  = _parse_date (VStr "15.01.2023").
Proof.
  apply parse_date_ignores_surrounding_space; reflexivity.
Defined.



(** ** How a submission ends *)

(** X11.  [insert_job_via_api] never raises and sends exactly one
    request whatever the answer; it returns [True] exactly when the API
    answered with a status outside 400-599 and a body that [json()]
    decodes, and then prints nothing. *)
Theorem submission_succeeds_iff
    (E : env) (company_name : string) (job_data : dict jvalue)
    (scrape_date : date) (st : state) :
  let req := (api_url E +:+ "/api/jobs",
              build_payload company_name job_data scrape_date) in
  let res := insert_job_via_api E company_name job_data scrape_date st in
  (fst res = Normal true \/ fst res = Normal false)
  /\ posted (snd res) = posted st ++ [req]
  /\ (fst res = Normal true <->
      exists r,
        api E (length (posted st)) (snd req) = Responds r
        /\ ~ (400 <= status_code r < 600)
        /\ json_ok r = true)
  /\ (fst res = Normal true -> stdout (snd res) = stdout st)
  /\ loc (snd res) = loc st /\ stats (snd res) = stats st.
Proof.
  cbn zeta. rewrite insert_job_via_api_eq. cbn zeta. cbn [fst snd].
  unfold after_request. cbn [posted stdout loc stats].
  destruct (api E _ _) as [e|r]; cbn [insert_outcome fst snd].
  - split; [auto|]. split; [reflexivity|]. split; [|split; [discriminate|auto]].
    split; [discriminate|]. intros (r & Hr & _). discriminate.
  - destruct (Z.leb_spec 400 (status_code r)), (Z.ltb_spec (status_code r) 500),
      (Z.leb_spec 500 (status_code r)), (Z.ltb_spec (status_code r) 600);
      cbn [andb orb fst snd]; try lia;
      try (split; [auto|]; split; [reflexivity|];
           split; [|split; [discriminate|auto]];
           split; [discriminate|]; intros (r' & [= <-] & Hn & _); lia).
    all: destruct (json_ok r) eqn:Hj; cbn [fst snd];
      (split; [auto|]); (split; [reflexivity|]);
      (split; [|split; [try discriminate; intros _; apply app_nil_r|auto]]).
    all: split; try discriminate; try (intros _; exists r; repeat split; auto; lia).
    all: intros (r' & [= <-] & _ & Hj'); congruence.
Qed.

(** ** Counters *)


Lemma count_locals_ok b l posts base :
  locals_ok l ->
  (base <= posts)%nat ->
  dates_migrated l + errors l = Z.of_nat (posts - base) ->
  let l' := count_locals b l in
  0 <= jobs_migrated l' + 1 <= dates_migrated l' + errors l'
  /\ jobs_migrated l' = jobs_migrated l
  /\ 0 <= dates_migrated l' /\ 0 <= errors l'
  /\ dates_migrated l' + errors l' = Z.of_nat (S posts - base).
Proof.
  unfold locals_ok. intros (Hj & Hd & He) Hb Ha. cbn zeta.
  destruct b; cbn; repeat split; lia.
Qed.

Lemma join_body_counters E company_prefix company_name s0 base r st :
  counters_inv s0 base st ->
  counters_inv s0 base (snd (join_body E company_prefix company_name r st)).
Proof.
  unfold counters_inv, accounted. intros (Hs & Hl & Hb & Ha).
  rewrite join_body_eq.
  destruct (row_date r) as [[d|]|e]; [|cbn; auto|cbn; auto].
  cbn zeta.
  set (b := fst (insert_outcome _)).
  destruct (count_locals_ok b (loc st) (length (posted st)) base Hl Hb Ha)
    as (Hj' & Hjj & Hd' & He' & Ha').
  destruct (r !! "id") as [i|]; cbn [snd after_request stats loc posted];
    rewrite length_app; cbn [length];
    replace (length (posted st) + 1)%nat with (S (length (posted st))) by lia.
  - destruct (track_job_counts i (count_locals b (loc st))) as [Hd2 He2].
    split; [exact Hs|]. unfold locals_ok. rewrite Hd2, He2.
    assert (Hjt : jobs_migrated (count_locals b (loc st))
                  <= jobs_migrated (track_job i (count_locals b (loc st)))
                  <= jobs_migrated (count_locals b (loc st)) + 1).
    { unfold track_job. case_bool_decide; cbn; lia. }
    unfold locals_ok in Hl. repeat split; lia.
  - split; [exact Hs|]. unfold locals_ok in *. repeat split; lia.
Qed.

Lemma no_dates_body_counters E company_prefix company_name s0 base r st :
  counters_inv s0 base st ->
  counters_inv s0 base (snd (no_dates_body E company_prefix company_name r st)).
Proof.
  unfold counters_inv, accounted. intros (Hs & Hl & Hb & Ha).
  rewrite no_dates_body_eq. cbn zeta.
  set (b := fst (insert_outcome _)).
  destruct (count_locals_ok b (loc st) (length (posted st)) base Hl Hb Ha)
    as (Hj' & Hjj & Hd' & He' & Ha').
  cbn [snd after_request stats loc posted]. rewrite length_app. cbn [length].
  replace (length (posted st) + 1)%nat with (S (length (posted st))) by lia.
  split; [exact Hs|]. unfold locals_ok, count_job. cbn. repeat split; lia.
Qed.

(** A source that returns has run both loops from fresh counters. *)
Lemma migrate_company_returns E company_prefix st st' :
  migrate_company E company_prefix st = (Normal tt, st') ->
  exists c st2,
    company_of company_prefix = Return c
    /\ st' = finish_source c st2
    /\ counters_inv (stats st) (length (posted st)) st2.
Proof.
  rewrite migrate_company_eq.
  destruct (company_of company_prefix) as [c|e]; [|discriminate]. cbn zeta.
  destruct (fetch_join E _ _) as [all_rows|msg]; [|discriminate].
  destruct (fetch_no_dates E _ _) as [nd|msg]; [|discriminate].
  assert (H0 : counters_inv (stats st) (length (posted st)) (start_source c st)).
  { unfold counters_inv, accounted, locals_ok. cbn.
    rewrite Nat.sub_diag. repeat split; lia. }
  pose proof (for_each_preserves _ _ all_rows
                (fun r s => join_body_counters E company_prefix c _ _ r s) _ H0)
    as H1.
  destruct (for_each all_rows _ _) as [[[]| |e] st1]; try discriminate.
  cbn [snd] in H1.
  pose proof (for_each_preserves _ _ nd
                (fun r s => no_dates_body_counters E company_prefix c _ _ r s) _ H1)
    as H2.
  destruct (for_each nd _ _) as [[[]| |e] st2]; try discriminate.
  intros [= <-]. exists c, st2. auto.
Qed.

(** X1.  When a source has been migrated, every request sent for it
    has been counted exactly once, as a migrated date or as an error:
    its line of the statistics, and the growth of the totals, add up to
    the number of requests sent; the line never shows more unique
    listings than requests. *)
Theorem every_request_counted_once
    (E : env) (company_prefix : string) (st st' : state) :
  migrate_company E company_prefix st = (Normal tt, st') ->
  exists c line,
    company_of company_prefix = Return c
    /\ dict_get c (by_company (stats st')) = Some line
    /\ (length (posted st) <= length (posted st'))%nat
    /\ cs_dates line + cs_errors line
       = Z.of_nat (length (posted st') - length (posted st))
    /\ 0 <= cs_jobs line <= cs_dates line + cs_errors line
    /\ total_dates (stats st') + stats_errors (stats st')
       = total_dates (stats st) + stats_errors (stats st)
         + Z.of_nat (length (posted st') - length (posted st))
    /\ total_jobs (stats st') = total_jobs (stats st) + cs_jobs line.
Proof.
  intros H.
  destruct (migrate_company_returns _ _ _ _ H)
    as (c & st2 & Hc & -> & Hs & (Hj & Hd & He) & Hb & Ha).
  exists c, (CompanyStats (jobs_migrated (loc st2)) (dates_migrated (loc st2))
               (errors (loc st2))).
  unfold finish_source. cbn [stats posted by_company cs_jobs cs_dates cs_errors
                            total_dates stats_errors total_jobs].
  rewrite dict_get_set, String.eqb_refl, Hs.
  repeat split; try assumption; try lia.
Qed.

Lemma every_request_counted_once_witness :
  exists c line,
    company_of "kls" = Return c
    /\ dict_get c (by_company
                     (stats (snd (migrate_company sample_env "kls" initial_state))))
       = Some line
    /\ cs_dates line + cs_errors line
       = Z.of_nat
           (length (posted (snd (migrate_company sample_env "kls" initial_state)))
            - length (posted initial_state)).
Proof.
  assert (H : migrate_company sample_env "kls" initial_state
              = (Normal tt, snd (migrate_company sample_env "kls" initial_state)))
    by (vm_compute; reflexivity).
  destruct (every_request_counted_once _ _ _ _ H)
    as (c & line & Hc & Hl & _ & Hsum & _).
  exists c, line. auto.
Defined.

(** ** The summary *)

(** What one round of [migrate_all] does to [self.stats]: nothing, or
    one line set and the totals raised by it. *)
Lemma run_source_stats E company_prefix st :
  stats (run_source E company_prefix st) = stats st
  \/ exists c line,
       company_of company_prefix = Return c
       /\ line_ok line
       /\ stats (run_source E company_prefix st)
          = RunStats (total_jobs (stats st) + cs_jobs line)
              (total_dates (stats st) + cs_dates line)
              (stats_errors (stats st) + cs_errors line)
              (dict_set c line (by_company (stats st))).
Proof.
  unfold run_source.
  destruct (migrate_company_inv E company_prefix (fun _ => True) st
              (fun _ _ _ => I) (Forall_true _ _ (fun _ => I)))
    as (_ & _ & Hn & He).
  destruct (migrate_company E company_prefix st) as [[[]| |e] st'] eqn:Hm;
    cbn [fst snd] in *.
  - right. destruct (migrate_company_returns _ _ _ _ Hm)
      as (c & st2 & Hc & -> & Hs & Hl & _).
    exists c, (CompanyStats (jobs_migrated (loc st2)) (dates_migrated (loc st2))
                 (errors (loc st2))).
    split; [exact Hc|]. split; [exact Hl|].
    unfold finish_source. cbn [stats]. rewrite Hs. reflexivity.
  - contradiction.
  - left. cbn [stats]. exact (proj2 (He e eq_refl)).
Qed.

Lemma company_of_kls c : company_of "kls" = Return c -> c = "KLS".
Proof. cbn. congruence. Qed.

Lemma company_of_ks c : company_of "ks" = Return c -> c = "KarlStorz".
Proof. cbn. congruence. Qed.

(** The statistics at the end of a run that connected. *)
Lemma final_stats_cases E :
  db_connect E = None ->
  exists lines,
    Forall (fun kv : string * company_stats => line_ok (snd kv)) lines
    /\ stats (snd (main E))
       = RunStats (sum_stats cs_jobs lines) (sum_stats cs_dates lines)
           (sum_stats cs_errors lines) lines
    /\ NoDup (map fst lines)
    /\ map fst lines ⊆ map snd COMPANY_MAPPING.
Proof.
  intros Hdb. unfold main. rewrite (migrate_all_connected E _ Hdb).
  cbn [snd]. unfold close_and_summarise. cbn [stats].
  set (st0 := connected initial_state).
  assert (H0 : stats st0 = RunStats 0 0 0 []) by reflexivity.
  destruct (run_source_stats E "kls" st0) as [H1|(c1 & l1 & Hc1 & Hl1 & H1)];
    destruct (run_source_stats E "ks" (run_source E "kls" st0))
      as [H2|(c2 & l2 & Hc2 & Hl2 & H2)];
    rewrite H2, H1, H0; cbn [total_jobs total_dates stats_errors by_company];
    try (apply company_of_kls in Hc1; subst c1);
    try (apply company_of_ks in Hc2; subst c2).
  - exists []. cbn. repeat split; try constructor. set_solver.
  - exists [("KarlStorz", l2)]. cbn. unfold sum_stats. cbn.
    split; [constructor; [exact Hl2|constructor]|]. split; [f_equal; lia|].
    split; [apply NoDup_singleton|set_solver].
  - exists [("KLS", l1)]. cbn. unfold sum_stats. cbn.
    split; [constructor; [exact Hl1|constructor]|]. split; [f_equal; lia|].
    split; [apply NoDup_singleton|set_solver].
  - exists [("KLS", l1); ("KarlStorz", l2)]. cbn. unfold sum_stats. cbn.
    split; [constructor; [exact Hl1|constructor; [exact Hl2|constructor]]|]. split; [f_equal; lia|].
    split; [|set_solver].
    apply NoDup_cons. split; [|apply NoDup_singleton].
    intros H. apply list_elem_of_singleton in H. discriminate.
Qed.

(** X2.  In the summary printed at the end of a run, each total is the
    sum of the lines above it, there is at most one line per
    configured organisation, and the summary printed is that of the
    final statistics. *)
Theorem summary_totals_add_up (E : env) :
  totals_add_up (stats (snd (main E)))
  /\ NoDup (map fst (by_company (stats (snd (main E)))))
  /\ map fst (by_company (stats (snd (main E)))) ⊆ map snd COMPANY_MAPPING
  /\ (db_connect E = None ->
      last (stdout (snd (main E))) = Some (PrintSummary (stats (snd (main E))))).
Proof.
  destruct (db_connect E) as [msg|] eqn:Hdb.
  - unfold main. rewrite (migrate_all_offline E _ msg Hdb). cbn.
    unfold totals_add_up. cbn.
    repeat split; try constructor; try discriminate. set_solver.
  - destruct (final_stats_cases E Hdb) as (lines & _ & Hs & Hnd & Hsub).
    rewrite Hs. unfold totals_add_up.
    cbn [total_jobs total_dates stats_errors by_company].
    repeat split; try assumption.
    intros _. rewrite <- Hs. unfold main.
    rewrite (migrate_all_connected E _ Hdb). cbn [snd].
    unfold close_and_summarise. cbn [stdout stats]. apply last_snoc.
Qed.

(** X3.  No line of the final statistics shows a negative count or
    more unique listings than submissions (migrated dates plus errors),
    and the same holds for the totals. *)
Theorem summary_counts_are_consistent (E : env) :
  let s := stats (snd (main E)) in
  Forall (fun kv : string * company_stats => line_ok (snd kv)) (by_company s)
  /\ 0 <= total_jobs s <= total_dates s + stats_errors s
  /\ 0 <= total_dates s /\ 0 <= stats_errors s.
Proof.
  cbn zeta. destruct (db_connect E) as [msg|] eqn:Hdb.
  - unfold main. rewrite (migrate_all_offline E _ msg Hdb). cbn.
    repeat split; try constructor; lia.
  - destruct (final_stats_cases E Hdb) as (lines & Hl & Hs & _).
    rewrite Hs. cbn [total_jobs total_dates stats_errors by_company].
    split; [exact Hl|].
    clear Hs. induction Hl as [|[k c] lines Hc _ IH]; unfold sum_stats in *; cbn.
    + lia.
    + unfold line_ok in Hc. cbn in Hc. lia.
Qed.

(** ** Failures before the first request of a source *)

(** X10.  A source that is not configured raises [KeyError] before
    anything is printed, queried or sent; when either query of a
    configured source fails, even the second after the first has
    succeeded, the source raises the database error with the banner
    printed and nothing sent or counted. *)
Theorem source_fails_before_any_request
    (E : env) (company_prefix : string) (st : state) :
  let listings_table := "jobs_" +:+ company_prefix +:+ "_listings" in
  let dates_table := "jobs_" +:+ company_prefix +:+ "_dates" in
  (dict_get company_prefix COMPANY_MAPPING = None ->
   migrate_company E company_prefix st = (Raise (KeyError company_prefix), st))
  /\ (forall c msg,
        dict_get company_prefix COMPANY_MAPPING = Some c ->
        fetch_join E dates_table listings_table = DbError msg
        \/ (exists rows, fetch_join E dates_table listings_table = Rows rows)
           /\ fetch_no_dates E dates_table listings_table = DbError msg ->
        migrate_company E company_prefix st
        = (Raise (MySQLError msg), banner_printed c st)
        /\ posted (run_source E company_prefix st) = posted st
        /\ stats (run_source E company_prefix st) = stats st
        /\ stdout (run_source E company_prefix st)
           = stdout st
             ++ [PrintBanner c;
                 PrintMigrateError company_prefix (MySQLError msg);
                 PrintTraceback (MySQLError msg)]).
Proof.
  cbn zeta. split.
  - intros Hc. rewrite migrate_company_eq. unfold company_of. rewrite Hc.
    reflexivity.
  - intros c msg Hc Hq.
    assert (Hm : migrate_company E company_prefix st
                 = (Raise (MySQLError msg), banner_printed c st)).
    { rewrite migrate_company_eq. unfold company_of. rewrite Hc. cbn zeta.
      destruct Hq as [-> | [[rows ->] ->]]; reflexivity. }
    split; [exact Hm|]. unfold run_source. rewrite Hm.
    unfold banner_printed. cbn. rewrite <- app_assoc. auto.
Qed.

Lemma source_fails_before_any_request_witness :
  migrate_company sample_env "bbraun" initial_state
  = (Raise (KeyError "bbraun"), initial_state).
Proof.
  destruct (source_fails_before_any_request sample_env "bbraun" initial_state)
    as [H _].
  apply H. reflexivity.
Defined.

(** ** Order of the rows and the count of unique listings *)

Lemma submitted_rows_perm rows rows' :
  rows ≡ₚ rows' -> submitted_rows rows ≡ₚ submitted_rows rows'.
Proof. unfold submitted_rows. intros ->. reflexivity. Qed.

(** X12.  The count of unique listings does not depend on the order
    in which the join rows arrive: two orders of the same well-formed
    rows leave the same set of listings seen and the same counter, and
    send the same records up to their order. *)
Theorem unique_count_ignores_row_order
    (E : env) (company_prefix company_name : string) (rows rows' : list row)
    (st : state) :
  rows ≡ₚ rows' ->
  Forall row_wf rows ->
  loc st = Locals 0 0 0 ∅ ->
  exists st1 st2,
    for_each rows (join_body E company_prefix company_name) st
    = (Normal tt, st1)
    /\ for_each rows' (join_body E company_prefix company_name) st
       = (Normal tt, st2)
    /\ processed_jobs (loc st1) = processed_jobs (loc st2)
    /\ jobs_migrated (loc st1) = jobs_migrated (loc st2)
    /\ jobs_migrated (loc st1) = Z.of_nat (size (submitted_ids rows))
    /\ dates_migrated (loc st1) + errors (loc st1)
       = dates_migrated (loc st2) + errors (loc st2)
    /\ exists sent1 sent2,
         posted st1 = posted st ++ sent1
         /\ posted st2 = posted st ++ sent2
         /\ sent1 ≡ₚ sent2.
Proof.
  intros Hperm Hwf Hloc.
  assert (Hwf' : Forall row_wf rows') by (rewrite <- Hperm; exact Hwf).
  destruct (join_loop_run E company_prefix company_name rows Hwf st)
    as (st1 & Hr1 & Hp1 & Hpj1 & Hc1 & Hd1 & _).
  destruct (join_loop_run E company_prefix company_name rows' Hwf' st)
    as (st2 & Hr2 & Hp2 & Hpj2 & Hc2 & Hd2 & _).
  pose proof (submitted_rows_perm _ _ Hperm) as Hsub.
  assert (Hids : submitted_ids rows = submitted_ids rows').
  { unfold submitted_ids. rewrite Hsub. reflexivity. }
  exists st1, st2. split; [exact Hr1|]. split; [exact Hr2|].
  rewrite Hloc in *. specialize (Hc1 fresh_counted). specialize (Hc2 fresh_counted).
  unfold jobs_counted in Hc1, Hc2.
  split; [rewrite Hpj1, Hpj2, Hids; reflexivity|].
  split; [rewrite Hc1, Hc2, Hpj1, Hpj2, Hids; reflexivity|].
  split; [rewrite Hc1, Hpj1; cbn [processed_jobs];
          rewrite (left_id_L ∅ (∪)); reflexivity|].
  split; [rewrite Hd1, Hd2, Hsub; reflexivity|].
  do 2 eexists. split; [exact Hp1|]. split; [exact Hp2|].
  rewrite Hsub. reflexivity.
Qed.

Lemma unique_count_ignores_row_order_witness :
  exists st1 st2,
    for_each [row_a1; row_b1; row_a2] (join_body sample_env "kls" "KLS")
      initial_state = (Normal tt, st1)
    /\ for_each [row_a2; row_a1; row_b1] (join_body sample_env "kls" "KLS")
         initial_state = (Normal tt, st2)
    /\ jobs_migrated (loc st1) = jobs_migrated (loc st2).
Proof.
  assert (Hp : [row_a1; row_b1; row_a2] ≡ₚ [row_a2; row_a1; row_b1]).
  { exact (Permutation_app_comm [row_a1; row_b1] [row_a2]). }
  assert (Hwf : Forall row_wf [row_a1; row_b1; row_a2]).
  { repeat constructor; unfold row_wf; vm_compute; eauto. }
  destruct (unique_count_ignores_row_order sample_env "kls" "KLS" _ _
              initial_state Hp Hwf eq_refl)
    as (st1 & st2 & H1 & H2 & _ & Hj & _).
  exists st1, st2. auto.
Defined.

(** ** [__init__] and the address of the requests *)

Lemma append_not_empty s c : s +:+ String c EmptyString <> EmptyString.
Proof. destruct s; [rewrite append_empty|rewrite append_String]; discriminate. Qed.

Lemma rstrip_slash_no_slash raw s : rstrip_slash raw <> s +:+ "/".
Proof.
  revert s. induction raw as [|c raw IH]; intros s; cbn [rstrip_slash].
  - intros H. symmetry in H. exact (append_not_empty _ _ H).
  - destruct (rstrip_slash raw) as [|a r] eqn:Hr.
    + destruct (Ascii.eqb_spec c "/") as [->|Hne].
      * intros H. symmetry in H. exact (append_not_empty _ _ H).
      * destruct s as [|c' s]; [rewrite append_empty|rewrite append_String].
        -- intros [= ->]. congruence.
        -- intros [= _ H]. exact (append_not_empty _ _ (eq_sym H)).
    + destruct s as [|c' s]; [rewrite append_empty|rewrite append_String].
      * discriminate.
      * intros [= _ H]. exact (IH s H).
Qed.

Lemma rstrip_slash_slashes n : rstrip_slash (slashes n) = EmptyString.
Proof. induction n as [|n IH]; [reflexivity|]. cbn. rewrite IH. reflexivity. Qed.

Lemma rstrip_slash_append raw n :
  rstrip_slash (raw +:+ slashes n) = rstrip_slash raw.
Proof.
  induction raw as [|c raw IH].
  - rewrite append_empty. apply rstrip_slash_slashes.
  - rewrite append_String. cbn [rstrip_slash]. rewrite IH. reflexivity.
Qed.

Lemma rstrip_slash_removed raw :
  exists n, raw = rstrip_slash raw +:+ slashes n.
Proof.
  induction raw as [|c raw [n IH]].
  - exists 0%nat. reflexivity.
  - cbn [rstrip_slash]. destruct (rstrip_slash raw) as [|a r] eqn:Hr.
    + rewrite append_empty in IH.
      destruct (Ascii.eqb_spec c "/") as [->|Hne].
      * exists (S n). rewrite append_empty, IH. reflexivity.
      * exists n. rewrite append_String, append_empty, IH. reflexivity.
    + exists n. rewrite append_String, <- IH. reflexivity.
Qed.

Lemma main_posted_inv E (Q : string * payload -> Prop) :
  (forall px c rd, company_of px = Return c -> Q (request_of E px c rd)) ->
  Forall Q (posted (snd (main E))).
Proof.
  intros HQ. unfold main.
  destruct (db_connect E) as [msg|] eqn:Hdb.
  - rewrite (migrate_all_offline E _ msg Hdb). cbn. constructor.
  - rewrite (migrate_all_connected E _ Hdb). cbn [snd].
    unfold close_and_summarise. cbn [posted].
    apply run_source_inv; [apply HQ|].
    apply run_source_inv; [apply HQ|]. cbn. constructor.
Qed.

(** X4.  [__init__] removes the trailing slashes of the address it is
    given and nothing else: what it keeps does not end in a slash and
    the argument is what it keeps followed by slashes only; adding
    slashes to the argument gives the same migrator, and every request
    of the run goes to what is kept followed by [/api/jobs], a single
    slash between them. *)
Theorem api_url_without_trailing_slashes
    (raw : string) (n : nat) (world : env) :
  let E := fst (new_migrator raw world) in
  (forall s, api_url E <> s +:+ "/")
  /\ (exists k, raw = api_url E +:+ slashes k)
  /\ new_migrator (raw +:+ slashes n) world = new_migrator raw world
  /\ forall url p,
       (url, p) ∈ posted (snd (main E)) ->
       url = rstrip_slash raw +:+ "/api/jobs".
Proof.
  cbn zeta. unfold new_migrator. cbn [fst api_url].
  split; [apply rstrip_slash_no_slash|].
  split; [apply rstrip_slash_removed|].
  split; [rewrite rstrip_slash_append; reflexivity|].
  intros url p Hin.
  set (E := Env (rstrip_slash raw) _ _ _ _ _ _) in *.
  pose proof (main_posted_inv E
                (fun req => fst req = rstrip_slash raw +:+ "/api/jobs")) as H.
  rewrite Forall_forall in H. apply (H (fun _ _ _ _ => eq_refl) _ Hin).
Qed.

Lemma api_url_without_trailing_slashes_witness :
  let p := [("company_name", JStr "KLS"); ("hidden", JBool false);
            ("scrape_date", JStr "2023-01-15"); ("title", JStr "Engineer");
            ("job_id", JStr "42")] in
  let E := fst (new_migrator "http://localhost:8000//" (env_on (Date 2024 5 17))) in
  ("http://localhost:8000/api/jobs", p) ∈ posted (snd (main E))
  /\ "http://localhost:8000/api/jobs"
     = rstrip_slash "http://localhost:8000//" +:+ "/api/jobs".
Proof.
  cbn zeta.
  assert (Hin : ("http://localhost:8000/api/jobs",
                 [("company_name", JStr "KLS"); ("hidden", JBool false);
                  ("scrape_date", JStr "2023-01-15"); ("title", JStr "Engineer");
                  ("job_id", JStr "42")])
                ∈ posted (snd (main (fst (new_migrator "http://localhost:8000//"
                                            (env_on (Date 2024 5 17))))))).
  { vm_compute. apply list_elem_of_here. }
  split; [exact Hin|].
  destruct (api_url_without_trailing_slashes "http://localhost:8000//" 0
              (env_on (Date 2024 5 17))) as (_ & _ & _ & H).
  exact (H _ _ Hin).
Defined.

(** ** The text of a mapped [date_added] *)

Lemma isoformat_render d : isoformat d = render_ymd "-" d.
Proof.
  unfold isoformat, render_ymd.
  repeat (rewrite append_assoc || rewrite append_String || rewrite append_empty).
  reflexivity.
Qed.

(** X13.  A text column mapped to [date_added] is written in the
    canonical form of the date the parser reads in it, ten characters
    that the parser reads back as the same date; a text in which the
    parser reads no date leaves [date_added] out of the mapped data. *)
Theorem date_added_text_is_canonical
    (company_prefix old_field : string) (r : row) (s : string) :
  (old_field, "date_added") ∈ field_mapping_of company_prefix ->
  r !! old_field = Some (VStr s) ->
  match _parse_date (VStr s) with
  | Return (Some d) =>
      dict_get "date_added" (job_data_of company_prefix r)
      = Some (JStr (isoformat d))
      /\ _parse_date (VStr (isoformat d)) = Return (Some d)
      /\ String.length (isoformat d) = 10%nat
  | Return None =>
      dict_get "date_added" (job_data_of company_prefix r) = None
  | Raised _ => False
  end.
Proof.
  intros Hin Hr.
  destruct (map_fields_lookup r (field_mapping_of company_prefix)
              (targets_unique company_prefix) [] _
              (map_job_fields_eq company_prefix r)) as (Hl & _);
    [reflexivity|].
  rewrite (Hl _ _ Hin), Hr.
  change (Some (VStr s) ≫= mapped_value "date_added")
    with (match parse_date_spec s with
          | Some d => Some (JStr (isoformat d))
          | None => None
          end).
  rewrite parse_date_str.
  destruct (parse_date_spec s) as [d|] eqn:Hp; [|reflexivity].
  split; [reflexivity|].
  pose proof (parse_date_spec_valid _ _ Hp) as Hv.
  split.
  - rewrite isoformat_render. apply parse_ymd_dash, Hv.
  - reflexivity.
Qed.

Lemma date_added_text_is_canonical_witness :
  dict_get "date_added" (job_data_of "kls" row_e) = Some (JStr "2023-03-04")
  /\ _parse_date (VStr "2023-03-04") = Return (Some (Date 2023 3 4)).
Proof.
  assert (Hin : ("DateAdded", "date_added") ∈ field_mapping_of "kls").
  { refine (bool_decide_unpack _ _). vm_compute. exact I. }
  assert (Hr : row_e !! "DateAdded" = Some (VStr "  2023/03/04 ")).
  { vm_compute. reflexivity. }
  assert (Hp : _parse_date (VStr "  2023/03/04 ") = Return (Some (Date 2023 3 4))).
  { vm_compute. reflexivity. }
  pose proof (date_added_text_is_canonical "kls" "DateAdded" row_e _ Hin Hr) as H.
  rewrite Hp in H. destruct H as (H1 & H2 & _). split; [exact H1|exact H2].
Defined.

(** * The date parser and the six patterns *)
(** ** The texts of the directives *)

Lemma all_ascii_forall (P : ascii -> bool) :
  forallb P all_ascii = true -> forall c, P c = true.
Proof.
  intros H c. rewrite List.forallb_forall in H. apply H.
  unfold all_ascii. rewrite <- (ascii_nat_embedding c).
  apply List.in_map, List.in_seq. pose proof (nat_ascii_bounded c). lia.
Qed.

Lemma alphabet_forall (P : ascii -> bool) :
  forallb P alphabet = true -> forall c, in_alphabet c = true -> P c = true.
Proof.
  intros H c Hc. rewrite List.forallb_forall in H.
  unfold in_alphabet in Hc. apply List.existsb_exists in Hc as (c' & Hin & Heq).
  apply Ascii.eqb_eq in Heq. subst c'. apply H, Hin.
Qed.

Lemma short_directives_forall (P : directive -> bool) :
  forallb P short_directives = true -> forall f, f <> dY -> P f = true.
Proof.
  cbn. intros H f Hf. repeat (apply andb_true_iff in H as [? H]).
  destruct f; congruence.
Qed.

Lemma isdecimal_alphabet c : isdecimal c = true -> in_alphabet c = true.
Proof.
  revert c.
  assert (H : forall c, implb (isdecimal c) (in_alphabet c) = true).
  { apply all_ascii_forall. vm_compute. reflexivity. }
  intros c Hc. specialize (H c). rewrite Hc in H. exact H.
Qed.

Lemma isspace_not_decimal c : isspace c = true -> isdecimal c = false.
Proof.
  revert c.
  assert (H : forall c, implb (isspace c) (negb (isdecimal c)) = true).
  { apply all_ascii_forall. vm_compute. reflexivity. }
  intros c Hc. specialize (H c). rewrite Hc in H.
  apply negb_true_iff. exact H.
Qed.

(** Every class of a short directive takes a character of the
    alphabet only. *)
Lemma classes_in_alphabet f :
  f <> dY ->
  forallb
    (fun a => forallb
                (fun k => forallb
                            (fun c => implb (cc_match k c) (in_alphabet c))
                            all_ascii) a)
    (alternatives f) = true.
Proof.
  revert f.
  apply (short_directives_forall
           (fun f => forallb
                       (fun a => forallb
                                   (fun k => forallb
                                               (fun c => implb (cc_match k c)
                                                           (in_alphabet c))
                                               all_ascii) a)
                       (alternatives f))).
  vm_compute. reflexivity.
Qed.

Lemma class_alphabet f a k c :
  f <> dY -> In a (alternatives f) -> In k a ->
  cc_match k c = true -> in_alphabet c = true.
Proof.
  intros Hf Ha Hk Hc. pose proof (classes_in_alphabet f Hf) as H.
  rewrite List.forallb_forall in H. specialize (H a Ha).
  rewrite List.forallb_forall in H. specialize (H k Hk).
  pose proof (all_ascii_forall _ H c) as Hi. cbn beta in Hi.
  rewrite Hc in Hi. exact Hi.
Qed.

Lemma match_seq_inv a s m r :
  match_seq a s = Some (m, r) ->
  s = m +:+ r
  /\ match_seq a m = Some (m, EmptyString)
  /\ String.length m = length a
  /\ Forall2 (fun k c => cc_match k c = true) a (list_ascii_of_string m).
Proof.
  revert s m r. induction a as [|k a IH]; intros s m r; cbn [match_seq].
  - intros [= <- <-]. repeat split. constructor.
  - destruct s as [|c s]; [discriminate|].
    destruct (cc_match k c) eqn:Hk; [|discriminate].
    destruct (match_seq a s) as [[m' r']|] eqn:Hm; [|discriminate].
    intros [= <- <-]. destruct (IH _ _ _ Hm) as (-> & Hm' & Hl & Hf).
    cbn [match_seq String.length length list_ascii_of_string].
    rewrite Hk, Hm', Hl. repeat split. constructor; assumption.
Qed.

Lemma in_language_intro f a w :
  In a (alternatives f) -> match_seq a w = Some (w, EmptyString) ->
  in_language f w = true.
Proof.
  intros Ha Hm. unfold in_language. apply List.existsb_exists.
  exists a. split; [exact Ha|]. rewrite Hm. reflexivity.
Qed.

Lemma in_language_inv f w :
  in_language f w = true ->
  exists a, In a (alternatives f) /\ match_seq a w = Some (w, EmptyString).
Proof.
  unfold in_language. intros H. apply List.existsb_exists in H as (a & Ha & Hm).
  exists a. split; [exact Ha|].
  destruct (match_seq a w) as [[m r]|] eqn:Hs; [|discriminate].
  destruct r; [|discriminate].
  destruct (match_seq_inv _ _ _ _ Hs) as (Hw & _).
  rewrite append_nil_r in Hw. subst m. reflexivity.
Qed.

Lemma in_language_two_alphabet f c1 c2 :
  f <> dY -> in_language f (two c1 c2) = true ->
  in_alphabet c1 = true /\ in_alphabet c2 = true.
Proof.
  intros Hf H. destruct (in_language_inv _ _ H) as (a & Ha & Hm).
  destruct (match_seq_inv _ _ _ _ Hm) as (_ & _ & _ & Hall).
  cbn [two list_ascii_of_string] in Hall.
  inversion Hall as [|k1 x a1 l1 Hk1 Hall1]; subst.
  inversion Hall1 as [|k2 y a2 l2 Hk2 Hall2]; subst.
  split.
  - apply (class_alphabet f _ k1 c1 Hf Ha); [left; reflexivity|exact Hk1].
  - apply (class_alphabet f _ k2 c2 Hf Ha); [right; left; reflexivity|exact Hk2].
Qed.

Lemma number_text_inv lo hi w :
  number_text lo hi w = true ->
  (1 <= String.length w <= 2)%nat /\ decimal_text w = true
  /\ lo <= int_of w <= hi.
Proof.
  unfold number_text. intros H.
  apply andb_true_iff in H as [H H5]. apply andb_true_iff in H as [H H4].
  apply andb_true_iff in H as [H H3]. apply andb_true_iff in H as [H1 H2].
  apply Nat.leb_le in H1, H2. apply Z.leb_le in H4, H5. auto with zarith.
Qed.

Lemma field_text_two_alphabet f c1 c2 :
  f <> dY -> field_text f (two c1 c2) = true ->
  in_alphabet c1 = true /\ in_alphabet c2 = true.
Proof.
  intros Hf.
  assert (Hn : forall lo hi, number_text lo hi (two c1 c2) = true ->
                 in_alphabet c1 = true /\ in_alphabet c2 = true).
  { intros lo hi H. apply number_text_inv in H as (_ & H & _).
    unfold decimal_text in H. cbn [two list_ascii_of_string forallb] in H.
    apply andb_true_iff in H as [H1 H2]. apply andb_true_iff in H2 as [H2 _].
    split; apply isdecimal_alphabet; assumption. }
  destruct f; cbn [field_text]; try congruence; eauto.
  intros H. apply orb_true_iff in H as [H|H]; [eauto|].
  cbn [two] in H.
  apply andb_true_iff in H as [H _]. apply andb_true_iff in H as [H1 H2].
  apply Ascii.eqb_eq in H1. subst c1.
  split; [reflexivity|apply isdecimal_alphabet, H2].
Qed.

Lemma language_one_character f c :
  f <> dY -> in_language f (one c) = field_text f (one c).
Proof.
  intros Hf. apply Bool.eqb_prop. revert c.
  apply (all_ascii_forall
           (fun c => Bool.eqb (in_language f (one c)) (field_text f (one c)))).
  revert f Hf.
  apply (short_directives_forall
           (fun f => forallb
                       (fun c => Bool.eqb (in_language f (one c))
                                   (field_text f (one c)))
                       all_ascii)).
  vm_compute. reflexivity.
Qed.

Lemma language_two_characters f c1 c2 :
  f <> dY -> in_language f (two c1 c2) = field_text f (two c1 c2).
Proof.
  intros Hf.
  destruct (in_alphabet c1 && in_alphabet c2) eqn:Halpha.
  - apply andb_true_iff in Halpha as [H1 H2].
    apply Bool.eqb_prop. revert c2 H2.
    apply (alphabet_forall
             (fun c2 => Bool.eqb (in_language f (two c1 c2))
                          (field_text f (two c1 c2)))).
    revert c1 H1.
    apply (alphabet_forall
             (fun c1 =>
                forallb
                  (fun c2 => Bool.eqb (in_language f (two c1 c2))
                               (field_text f (two c1 c2)))
                  alphabet)).
    revert f Hf.
    apply (short_directives_forall
             (fun f =>
                forallb
                  (fun c1 =>
                     forallb
                       (fun c2 => Bool.eqb (in_language f (two c1 c2))
                                    (field_text f (two c1 c2)))
                       alphabet)
                  alphabet)).
    vm_compute. reflexivity.
  - destruct (in_language f (two c1 c2)) eqn:Hl.
    + destruct (in_language_two_alphabet f c1 c2 Hf Hl) as [H1 H2].
      rewrite H1, H2 in Halpha. discriminate.
    + destruct (field_text f (two c1 c2)) eqn:Ht; [|reflexivity].
      destruct (field_text_two_alphabet f c1 c2 Hf Ht) as [H1 H2].
      rewrite H1, H2 in Halpha. discriminate.
Qed.

Lemma alternatives_short f :
  f <> dY -> Forall (fun a => (1 <= length a <= 2)%nat) (alternatives f).
Proof.
  intros Hf. destruct f; try congruence; cbn [alternatives];
    repeat constructor.
Qed.

(** The expression of a directive matches as a whole exactly the texts
    of its field. *)
Lemma language_is_field_text f w : in_language f w = field_text f w.
Proof.
  destruct (directive_eq_dec f dY) as [->|Hf].
  - unfold in_language, field_text, decimal_text.
    cbn [alternatives existsb match_seq cc_match].
    destruct w as [|c1 [|c2 [|c3 [|c4 [|c5 w]]]]];
      cbn [String.length Nat.eqb list_ascii_of_string forallb andb];
      repeat match goal with
             | |- context [isdecimal ?c] => destruct (isdecimal c)
             end; reflexivity.
  - destruct w as [|c1 [|c2 [|c3 w]]].
    + destruct f; try congruence; reflexivity.
    + apply (language_one_character f c1 Hf).
    + apply (language_two_characters f c1 c2 Hf).
    + destruct (in_language f _) eqn:Hl.
      * exfalso. destruct (in_language_inv _ _ Hl) as (a & Ha & Hm).
        destruct (match_seq_inv _ _ _ _ Hm) as (_ & _ & Hlen & _).
        pose proof (alternatives_short f Hf) as Hs.
        rewrite List.Forall_forall in Hs. specialize (Hs a Ha).
        cbn [String.length] in Hlen. lia.
      * symmetry. destruct (field_text f _) eqn:Ht; [|reflexivity].
        exfalso.
        assert (Hn : forall lo hi,
                  number_text lo hi (String c1 (String c2 (String c3 w)))
                  <> true).
        { intros lo hi H. apply number_text_inv in H as (H & _).
          cbn [String.length] in H. lia. }
        destruct f; cbn [field_text] in Ht; try congruence;
          try (exact (Hn _ _ Ht)).
        apply orb_true_iff in Ht as [Ht|Ht]; [exact (Hn _ _ Ht)|discriminate].
Qed.

(** ** What a successful match tells *)

Lemma match_items_dir_alt f its s caps res :
  match_items (IDir f :: its) s caps = Some res ->
  exists a w r,
    In a (alternatives f) /\ match_seq a s = Some (w, r)
    /\ match_items its r ((f, w) :: caps) = Some res.
Proof.
  cbn [match_items]. generalize (alternatives f) as alts.
  induction alts as [|a alts IH]; [discriminate|].
  destruct (match_seq a s) as [[m r]|] eqn:Hm.
  - destruct (match_items its r ((f, m) :: caps)) as [res'|] eqn:Hr.
    + intros [= <-]. exists a, m, r. split; [left; reflexivity|auto].
    + intros H. destruct (IH H) as (a' & w & r' & Ha & Hw).
      exists a', w, r'. split; [right; exact Ha|exact Hw].
  - intros H. destruct (IH H) as (a' & w & r' & Ha & Hw).
    exists a', w, r'. split; [right; exact Ha|exact Hw].
Qed.

Lemma match_items_dir_inv f its s caps res :
  match_items (IDir f :: its) s caps = Some res ->
  exists w r,
    s = w +:+ r /\ field_text f w = true
    /\ match_items its r ((f, w) :: caps) = Some res.
Proof.
  intros H. destruct (match_items_dir_alt _ _ _ _ _ H) as (a & w & r & Ha & Hm & Hr).
  destruct (match_seq_inv _ _ _ _ Hm) as (Hs & Hw & _).
  exists w, r. split; [exact Hs|]. split; [|exact Hr].
  rewrite <- language_is_field_text. exact (in_language_intro f a w Ha Hw).
Qed.

Lemma match_items_lit_inv c its s caps res :
  match_items (ILit c :: its) s caps = Some res ->
  exists r, s = String c r /\ match_items its r caps = Some res.
Proof.
  cbn [match_items]. destruct s as [|c' s]; [discriminate|].
  destruct (Ascii.eqb_spec c c') as [->|]; [|discriminate].
  intros H. exists s. auto.
Qed.

Lemma match_items_spaces_eq its c s caps :
  match_items (ISpaces :: its) (String c s) caps
  = if isspace c
    then match match_items (ISpaces :: its) s caps with
         | Some res => Some res
         | None => match_items its s caps
         end
    else None.
Proof. reflexivity. Qed.

Lemma match_items_spaces_inv its s caps res :
  match_items (ISpaces :: its) s caps = Some res ->
  exists ws r,
    s = ws +:+ r /\ all_space ws = true /\ ws <> EmptyString
    /\ match_items its r caps = Some res.
Proof.
  induction s as [|c s IH]; [discriminate|].
  rewrite match_items_spaces_eq. destruct (isspace c) eqn:Hc; [|discriminate].
  destruct (match_items (ISpaces :: its) s caps) as [res'|] eqn:Hs.
  - intros [= <-]. destruct (IH eq_refl) as (ws & r & -> & Hws & _ & Hr).
    exists (String c ws), r. rewrite append_String. cbn [all_space].
    rewrite Hc, Hws. repeat split; [discriminate|exact Hr].
  - intros H. exists (String c EmptyString), s. cbn [all_space].
    rewrite Hc. repeat split; [discriminate|exact H].
Qed.

(** ** What a text of the right shape gives *)

Lemma match_seq_app a s k :
  (length a <= String.length s)%nat ->
  match_seq a (s +:+ k)
  = match match_seq a s with
    | Some (m, r) => Some (m, r +:+ k)
    | None => None
    end.
Proof.
  revert s. induction a as [|c a IH]; intros s Hl; [reflexivity|].
  destruct s as [|x s]; [cbn in Hl; lia|].
  rewrite append_String. cbn [match_seq].
  destruct (cc_match c x); [|reflexivity].
  rewrite IH by (cbn in Hl; lia).
  destruct (match_seq a s) as [[m r]|]; reflexivity.
Qed.

Lemma first_alternative_app alts s k :
  Forall (fun a => (length a <= String.length s)%nat) alts ->
  first_alternative alts (s +:+ k)
  = match first_alternative alts s with
    | Some (m, r) => Some (m, r +:+ k)
    | None => None
    end.
Proof.
  induction 1 as [|a alts Ha _ IH]; [reflexivity|].
  cbn [first_alternative]. rewrite (match_seq_app a s k Ha).
  destruct (match_seq a s) as [[m r]|]; [reflexivity|exact IH].
Qed.

Lemma gives_eq o m r : gives o m r = true -> o = Some (m, r).
Proof.
  destruct o as [[m' r']|]; [|discriminate]. cbn.
  intros H. apply andb_true_iff in H as [H1 H2].
  apply String.eqb_eq in H1, H2. congruence.
Qed.

Lemma matched_in_alphabet a l c :
  (forall k x, In k a -> cc_match k x = true -> in_alphabet x = true) ->
  Forall2 (fun k x => cc_match k x = true) a l ->
  In c l -> in_alphabet c = true.
Proof.
  intros Hcl Hall. induction Hall as [|k x a' l Hk _ IH]; [intros []|].
  intros [<-|Hin].
  - apply (Hcl k x); [left; reflexivity|exact Hk].
  - apply IH; [|exact Hin]. intros k' x' Hk'. apply Hcl. right. exact Hk'.
Qed.

Lemma field_text_alphabet f w c :
  f <> dY -> field_text f w = true -> In c (list_ascii_of_string w) ->
  in_alphabet c = true.
Proof.
  intros Hf Ht Hin. rewrite <- language_is_field_text in Ht.
  destruct (in_language_inv _ _ Ht) as (a & Ha & Hm).
  destruct (match_seq_inv _ _ _ _ Hm) as (_ & _ & _ & Hall).
  apply (matched_in_alphabet a (list_ascii_of_string w) c); [|exact Hall|exact Hin].
  intros k x Hk. exact (class_alphabet f a k x Hf Ha Hk).
Qed.

Lemma check_one (P : directive -> ascii -> bool) :
  forallb (fun f => forallb (P f) all_ascii) short_directives = true ->
  forall f c, f <> dY -> P f c = true.
Proof.
  intros H f c Hf.
  apply (all_ascii_forall (P f)).
  exact (short_directives_forall (fun f => forallb (P f) all_ascii) H f Hf).
Qed.

Lemma check_two (P : directive -> ascii -> ascii -> bool) :
  forallb (fun f => forallb (fun c1 => forallb (P f c1) all_ascii) alphabet)
    short_directives = true ->
  forall f c1 c2, f <> dY -> in_alphabet c1 = true -> P f c1 c2 = true.
Proof.
  intros H f c1 c2 Hf H1.
  apply (all_ascii_forall (P f c1)).
  apply (alphabet_forall (fun c1 => forallb (P f c1) all_ascii)); [|exact H1].
  exact (short_directives_forall
           (fun f => forallb (fun c1 => forallb (P f c1) all_ascii) alphabet)
           H f Hf).
Qed.

Lemma alone_one_character f c :
  f <> dY -> field_text f (one c) = true ->
  first_alternative (alternatives f) (one c) = Some (one c, EmptyString).
Proof.
  intros Hf Ht. apply gives_eq.
  pose proof (check_one
                (fun f c =>
                   implb (field_text f (one c))
                     (gives (first_alternative (alternatives f) (one c)) (one c)
                        EmptyString))) as H.
  cbn beta in H. specialize (H ltac:(vm_compute; reflexivity) f c Hf).
  rewrite Ht in H. exact H.
Qed.

Lemma followed_one_character f c x :
  f <> dY -> field_text f (one c) = true -> isdecimal x = false ->
  first_alternative (alternatives f) (two c x) = Some (one c, one x).
Proof.
  intros Hf Ht Hx. apply gives_eq.
  pose proof (check_two
                (fun f c x =>
                   implb (field_text f (one c) && negb (isdecimal x))
                     (gives (first_alternative (alternatives f) (two c x)) (one c)
                        (one x)))) as H.
  cbn beta in H.
  specialize (H ltac:(vm_compute; reflexivity) f c x Hf).
  rewrite Ht, Hx in H. apply H.
  apply (field_text_alphabet f (one c) c Hf Ht). left. reflexivity.
Qed.

Lemma alone_two_characters f c1 c2 :
  f <> dY -> field_text f (two c1 c2) = true ->
  first_alternative (alternatives f) (two c1 c2) = Some (two c1 c2, EmptyString).
Proof.
  intros Hf Ht. apply gives_eq.
  pose proof (check_two
                (fun f c1 c2 =>
                   implb (field_text f (two c1 c2))
                     (gives (first_alternative (alternatives f) (two c1 c2))
                        (two c1 c2) EmptyString))) as H.
  cbn beta in H.
  specialize (H ltac:(vm_compute; reflexivity) f c1 c2 Hf).
  rewrite Ht in H. apply H.
  apply (field_text_alphabet f (two c1 c2) c1 Hf Ht). left. reflexivity.
Qed.

Lemma field_text_short f w :
  f <> dY -> field_text f w = true ->
  (exists c, w = one c) \/ (exists c1 c2, w = two c1 c2).
Proof.
  intros Hf Ht. rewrite <- language_is_field_text in Ht.
  destruct (in_language_inv _ _ Ht) as (a & Ha & Hm).
  destruct (match_seq_inv _ _ _ _ Hm) as (_ & _ & Hlen & _).
  pose proof (alternatives_short f Hf) as Hs.
  rewrite List.Forall_forall in Hs. specialize (Hs a Ha).
  destruct w as [|c1 [|c2 [|c3 w]]]; cbn [String.length] in Hlen; try lia;
    [left|right]; eauto.
Qed.

(** The text of a field, followed by the end of the data or by a
    character that is no digit, is what the first alternative of the
    directive that matches takes. *)
Lemma first_alternative_word f w k :
  field_text f w = true -> continuation k = true ->
  first_alternative (alternatives f) (w +:+ k) = Some (w, k).
Proof.
  intros Ht Hk. destruct (directive_eq_dec f dY) as [->|Hf].
  - cbn [field_text] in Ht. apply andb_true_iff in Ht as [Hl Hd].
    apply Nat.eqb_eq in Hl.
    destruct w as [|c1 [|c2 [|c3 [|c4 [|c5 w]]]]]; try discriminate Hl.
    unfold decimal_text in Hd. cbn [list_ascii_of_string forallb] in Hd.
    repeat (apply andb_true_iff in Hd as [? Hd]).
    rewrite !append_String, append_empty.
    cbn [alternatives first_alternative match_seq cc_match].
    repeat match goal with H : isdecimal _ = true |- _ => rewrite H; clear H end.
    reflexivity.
  - pose proof (alternatives_short f Hf) as Hs.
    destruct (field_text_short f w Hf Ht) as [[c ->]|(c1 & c2 & ->)].
    + destruct k as [|x k].
      * rewrite append_nil_r. apply (alone_one_character f c Hf Ht).
      * cbn [continuation] in Hk. apply negb_true_iff in Hk.
        change (one c +:+ String x k) with (two c x +:+ k).
        rewrite first_alternative_app.
        -- rewrite (followed_one_character f c x Hf Ht Hk). reflexivity.
        -- eapply List.Forall_impl; [|exact Hs]. cbn. intros a Ha. lia.
    + rewrite first_alternative_app.
      * rewrite (alone_two_characters f c1 c2 Hf Ht). reflexivity.
      * eapply List.Forall_impl; [|exact Hs]. cbn. intros a Ha. lia.
Qed.

Lemma match_items_dir_complete f w k its caps res :
  field_text f w = true -> continuation k = true ->
  match_items its k ((f, w) :: caps) = Some res ->
  match_items (IDir f :: its) (w +:+ k) caps = Some res.
Proof.
  intros Ht Hk Hr.
  exact (match_items_dir f its (w +:+ k) caps w k res
           (first_alternative_word f w k Ht Hk) Hr).
Qed.

Lemma match_items_spaces_complete ws c k its caps res :
  all_space ws = true -> ws <> EmptyString -> isspace c = false ->
  match_items its (String c k) caps = Some res ->
  match_items (ISpaces :: its) (ws +:+ String c k) caps = Some res.
Proof.
  intros Hws Hne Hc Hr. induction ws as [|x ws IH]; [congruence|].
  rewrite append_String, match_items_spaces_eq.
  cbn [all_space] in Hws. apply andb_true_iff in Hws as [Hx Hws].
  rewrite Hx. destruct ws as [|y ws].
  - rewrite append_empty, match_items_spaces_eq, Hc. exact Hr.
  - rewrite IH by (auto; discriminate). reflexivity.
Qed.

(** ** The three shapes of the patterns *)

Lemma continuation_sep sep k :
  isdecimal sep = false -> continuation (String sep k) = true.
Proof. intros H. cbn. rewrite H. reflexivity. Qed.

Lemma match_items_dir_last f w its caps res :
  field_text f w = true ->
  match_items its EmptyString ((f, w) :: caps) = Some res ->
  match_items (IDir f :: its) w caps = Some res.
Proof.
  intros Ht Hr. rewrite <- (append_nil_r w) at 1.
  apply match_items_dir_complete; [exact Ht|reflexivity|exact Hr].
Qed.

Ltac invert_items H :=
  repeat first
    [ let w := fresh "w" in
      let r := fresh "r" in
      let Hw := fresh "Hw" in
      let Ht := fresh "Ht" in
      apply match_items_dir_inv in H as (w & r & Hw & Ht & H)
    | let r := fresh "r" in
      let Hr := fresh "Hr" in
      apply match_items_lit_inv in H as (r & Hr & H)
    | let ws := fresh "ws" in
      let r := fresh "r" in
      let Hr := fresh "Hr" in
      let Hs := fresh "Hs" in
      let Hn := fresh "Hn" in
      apply match_items_spaces_inv in H as (ws & r & Hr & Hs & Hn & H) ].

Lemma match_ymd_iff sep text caps0 caps :
  isdecimal sep = false ->
  match_items (items_ymd sep) text caps0 = Some (caps, EmptyString)
  <-> exists ty tm td,
        text = ty +:+ String sep (tm +:+ String sep td)
        /\ field_text dY ty = true /\ field_text dm tm = true
        /\ field_text dd td = true
        /\ caps = (dd, td) :: (dm, tm) :: (dY, ty) :: caps0.
Proof.
  intros Hsep. unfold items_ymd. split.
  - intros H. invert_items H. cbn [match_items] in H. injection H as <- ->.
    subst. rewrite append_nil_r. eauto 10.
  - intros (ty & tm & td & -> & Hy & Hm & Hd & ->).
    apply match_items_dir_complete;
      [exact Hy|apply continuation_sep, Hsep|].
    rewrite match_items_lit.
    apply match_items_dir_complete;
      [exact Hm|apply continuation_sep, Hsep|].
    rewrite match_items_lit.
    apply match_items_dir_last; [exact Hd|reflexivity].
Qed.

Lemma match_dmy_iff sep text caps0 caps :
  isdecimal sep = false ->
  match_items (items_dmy sep) text caps0 = Some (caps, EmptyString)
  <-> exists td tm ty,
        text = td +:+ String sep (tm +:+ String sep ty)
        /\ field_text dd td = true /\ field_text dm tm = true
        /\ field_text dY ty = true
        /\ caps = (dY, ty) :: (dm, tm) :: (dd, td) :: caps0.
Proof.
  intros Hsep. unfold items_dmy. split.
  - intros H. invert_items H. cbn [match_items] in H. injection H as <- ->.
    subst. rewrite append_nil_r. eauto 10.
  - intros (td & tm & ty & -> & Hd & Hm & Hy & ->).
    apply match_items_dir_complete;
      [exact Hd|apply continuation_sep, Hsep|].
    rewrite match_items_lit.
    apply match_items_dir_complete;
      [exact Hm|apply continuation_sep, Hsep|].
    rewrite match_items_lit.
    apply match_items_dir_last; [exact Hy|reflexivity].
Qed.

Lemma all_space_continuation ws k :
  all_space ws = true -> ws <> EmptyString -> continuation (ws +:+ k) = true.
Proof.
  destruct ws as [|c ws]; [congruence|]. cbn [all_space]. intros H _.
  apply andb_true_iff in H as [H _]. rewrite append_String. cbn.
  rewrite (isspace_not_decimal c H). reflexivity.
Qed.

Lemma number_text_starts lo hi w k :
  number_text lo hi w = true ->
  exists c r, w +:+ k = String c r /\ isspace c = false.
Proof.
  intros H. apply number_text_inv in H as (Hl & Hd & _).
  destruct w as [|c w]; [cbn in Hl; lia|].
  exists c, (w +:+ k). split; [reflexivity|].
  unfold decimal_text in Hd. cbn [list_ascii_of_string forallb] in Hd.
  apply andb_true_iff in Hd as [Hd _].
  destruct (isspace c) eqn:Hs; [|reflexivity].
  rewrite (isspace_not_decimal c Hs) in Hd. discriminate.
Qed.

Lemma match_ymd_time_iff sep text caps0 caps :
  isdecimal sep = false ->
  match_items (items_ymd sep ++ items_time) text caps0 = Some (caps, EmptyString)
  <-> exists ty tm td ws th tmi ts,
        text = ty +:+ String sep (tm +:+ String sep
                 (td +:+ (ws +:+ (th +:+ String ":" (tmi +:+ String ":" ts)))))
        /\ field_text dY ty = true /\ field_text dm tm = true
        /\ field_text dd td = true
        /\ all_space ws = true /\ ws <> EmptyString
        /\ field_text dH th = true /\ field_text dM tmi = true
        /\ field_text dS ts = true
        /\ caps = (dS, ts) :: (dM, tmi) :: (dH, th) :: (dd, td) :: (dm, tm)
                  :: (dY, ty) :: caps0.
Proof.
  intros Hsep. unfold items_ymd, items_time. cbn [app]. split.
  - intros H. invert_items H. cbn [match_items] in H. injection H as <- ->.
    subst. rewrite append_nil_r. eauto 20.
  - intros (ty & tm & td & ws & th & tmi & ts & -> & Hy & Hm & Hd & Hws & Hne
            & Hh & Hmi & Hs & ->).
    apply match_items_dir_complete;
      [exact Hy|apply continuation_sep, Hsep|].
    rewrite match_items_lit.
    apply match_items_dir_complete;
      [exact Hm|apply continuation_sep, Hsep|].
    rewrite match_items_lit.
    apply match_items_dir_complete;
      [exact Hd|apply all_space_continuation; assumption|].
    destruct (number_text_starts 0 23 th (String ":" (tmi +:+ String ":" ts)) Hh)
      as (c & r & Hcr & Hc).
    rewrite Hcr.
    apply match_items_spaces_complete; [exact Hws|exact Hne|exact Hc|].
    rewrite <- Hcr.
    apply match_items_dir_complete; [exact Hh|reflexivity|].
    rewrite match_items_lit.
    apply match_items_dir_complete; [exact Hmi|reflexivity|].
    rewrite match_items_lit.
    apply match_items_dir_last; [exact Hs|reflexivity].
Qed.

(** ** [strptime] and the patterns *)

Lemma accepts_items text fmt its d :
  compile_format false fmt = Some its ->
  accepts text fmt = Some d
  <-> exists caps,
        match_items its text [] = Some (caps, EmptyString)
        /\ d = Date (capture caps dY 1900) (capture caps dm 1) (capture caps dd 1)
        /\ valid_date (capture caps dY 1900) (capture caps dm 1)
             (capture caps dd 1) = true
        /\ valid_time (capture caps dH 0) (capture caps dM 0)
             (capture caps dS 0) = true.
Proof.
  intros Hf. unfold accepts, strptime. rewrite Hf. split.
  - destruct (match_items its text []) as [[caps rest]|]; [|discriminate].
    destruct rest; [|discriminate].
    destruct (valid_date _ _ _) eqn:Hd; [|discriminate].
    destruct (valid_time _ _ _) eqn:Ht; [|discriminate].
    cbn. intros [= <-]. exists caps. auto.
  - intros (caps & -> & -> & -> & ->). reflexivity.
Qed.

Lemma accepts_ymd sep fmt text d :
  compile_format false fmt = Some (items_ymd sep) ->
  isdecimal sep = false ->
  accepts text fmt = Some d <-> reads (Ymd sep) text d.
Proof.
  intros Hf Hsep. rewrite (accepts_items text fmt _ d Hf). cbn [reads]. split.
  - intros (caps & Hm & -> & Hd & _).
    apply (match_ymd_iff sep text [] caps Hsep) in Hm
      as (ty & tm & td & -> & Hy & Hmo & Hda & ->).
    exists ty, tm, td. auto 10.
  - intros (ty & tm & td & -> & Hy & Hmo & Hda & -> & Hv).
    exists [(dd, td); (dm, tm); (dY, ty)].
    split; [|split; [reflexivity|split; [exact Hv|reflexivity]]].
    apply (match_ymd_iff sep _ [] _ Hsep). eauto 10.
Qed.

Lemma accepts_dmy sep fmt text d :
  compile_format false fmt = Some (items_dmy sep) ->
  isdecimal sep = false ->
  accepts text fmt = Some d <-> reads (Dmy sep) text d.
Proof.
  intros Hf Hsep. rewrite (accepts_items text fmt _ d Hf). cbn [reads]. split.
  - intros (caps & Hm & -> & Hd & _).
    apply (match_dmy_iff sep text [] caps Hsep) in Hm
      as (td & tm & ty & -> & Hda & Hmo & Hy & ->).
    exists td, tm, ty. auto 10.
  - intros (td & tm & ty & -> & Hda & Hmo & Hy & -> & Hv).
    exists [(dY, ty); (dm, tm); (dd, td)].
    split; [|split; [reflexivity|split; [exact Hv|reflexivity]]].
    apply (match_dmy_iff sep _ [] _ Hsep). eauto 10.
Qed.

Lemma accepts_ymd_time sep fmt text d :
  compile_format false fmt = Some (items_ymd sep ++ items_time) ->
  isdecimal sep = false ->
  accepts text fmt = Some d <-> reads (YmdTime sep) text d.
Proof.
  intros Hf Hsep. rewrite (accepts_items text fmt _ d Hf). cbn [reads]. split.
  - intros (caps & Hm & -> & Hd & Ht).
    apply (match_ymd_time_iff sep text [] caps Hsep) in Hm
      as (ty & tm & td & ws & th & tmi & ts & -> & Hy & Hmo & Hda & Hws & Hne
          & Hh & Hmi & Hs & ->).
    exists ty, tm, td, ws, th, tmi, ts. auto 20.
  - intros (ty & tm & td & ws & th & tmi & ts & -> & Hy & Hmo & Hda & Hws & Hne
            & Hh & Hmi & Hs & -> & Hv & Ht).
    exists [(dS, ts); (dM, tmi); (dH, th); (dd, td); (dm, tm); (dY, ty)].
    split; [|split; [reflexivity|split; [exact Hv|exact Ht]]].
    apply (match_ymd_time_iff sep _ [] _ Hsep). eauto 20.
Qed.

(** On each of the six patterns, [strptime] returns a date exactly on
    the texts written in the pattern, and the date is the one they
    stand for. *)
Lemma accepts_reads p text d :
  In p spec_pattern_list ->
  accepts text (format_of p) = Some d <-> reads p text d.
Proof.
  intros Hp. cbn in Hp.
  destruct Hp as [<-|[<-|[<-|[<-|[<-|[<-|[]]]]]]].
  - apply accepts_ymd; reflexivity.
  - apply accepts_ymd; reflexivity.
  - apply accepts_dmy; reflexivity.
  - apply accepts_dmy; reflexivity.
  - apply accepts_ymd_time; reflexivity.
  - apply accepts_ymd_time; reflexivity.
Qed.

Lemma reads_not_empty p d : In p spec_pattern_list -> ~ reads p EmptyString d.
Proof.
  intros Hp H. apply (accepts_reads p EmptyString d Hp) in H.
  cbn in Hp. destruct Hp as [<-|[<-|[<-|[<-|[<-|[<-|[]]]]]]]; discriminate H.
Qed.

(** The first pattern of a list that reads a text. *)
Lemma first_match_reads pats text d :
  (forall p, In p pats -> In p spec_pattern_list) ->
  first_match text (map format_of pats) = Some d
  <-> exists before p after,
        pats = before ++ p :: after
        /\ reads p text d
        /\ forall p' d', In p' before -> ~ reads p' text d'.
Proof.
  unfold first_match. induction pats as [|p pats IH]; intros Hin.
  - cbn. split; [discriminate|]. intros (before & p & after & H & _).
    destruct before; discriminate H.
  - cbn [map List.find]. unfold matches at 1.
    assert (Hp : In p spec_pattern_list) by (apply Hin; left; reflexivity).
    destruct (accepts text (format_of p)) as [d0|] eqn:Ha; cbv iota beta;
      rewrite ?Ha.
    + split.
      * intros [= <-]. exists [], p, pats.
        split; [reflexivity|]. split; [apply (accepts_reads p text d0 Hp), Ha|].
        intros p' d' [].
      * intros (before & p0 & after & Heq & Hr & Hnone).
        destruct before as [|b before].
        -- injection Heq as <- _. apply (accepts_reads p text d Hp) in Hr.
           congruence.
        -- injection Heq as <- _. exfalso.
           apply (Hnone p d0); [left; reflexivity|].
           apply (accepts_reads p text d0 Hp), Ha.
    + rewrite IH by (intros p' Hp'; apply Hin; right; exact Hp'). split.
      * intros (before & p0 & after & -> & Hr & Hnone).
        exists (p :: before), p0, after. split; [reflexivity|].
        split; [exact Hr|]. intros p' d' [<-|Hp'].
        -- intros Hr'. apply (accepts_reads p text d' Hp) in Hr'. congruence.
        -- apply Hnone, Hp'.
      * intros (before & p0 & after & Heq & Hr & Hnone).
        destruct before as [|b before].
        -- injection Heq as <- _. apply (accepts_reads p text d Hp) in Hr.
           congruence.
        -- injection Heq as <- ->. exists before, p0, after.
           split; [reflexivity|]. split; [exact Hr|].
           intros p' d' Hp'. apply Hnone. right. exact Hp'.
Qed.

Lemma first_match_none_reads pats text :
  (forall p, In p pats -> In p spec_pattern_list) ->
  first_match text (map format_of pats) = None
  <-> forall p d, In p pats -> ~ reads p text d.
Proof.
  unfold first_match. induction pats as [|p pats IH]; intros Hin.
  - cbn. split; [intros _ p d []|reflexivity].
  - cbn [map List.find]. unfold matches at 1.
    assert (Hp : In p spec_pattern_list) by (apply Hin; left; reflexivity).
    destruct (accepts text (format_of p)) as [d0|] eqn:Ha; cbv iota beta;
      rewrite ?Ha.
    + split; [discriminate|]. intros H. exfalso.
      apply (H p d0); [left; reflexivity|].
      apply (accepts_reads p text d0 Hp), Ha.
    + rewrite IH by (intros p' Hp'; apply Hin; right; exact Hp'). split.
      * intros H p' d' [<-|Hp'].
        -- intros Hr. apply (accepts_reads p text d' Hp) in Hr. congruence.
        -- apply H, Hp'.
      * intros H p' d' Hp'. apply H. right. exact Hp'.
Qed.

(** ** Trimming *)

Lemma lstrip_split s :
  exists ws, all_space ws = true /\ s = ws +:+ lstrip s.
Proof.
  induction s as [|c s (ws & Hws & IH)].
  - exists EmptyString. auto.
  - cbn [lstrip]. destruct (isspace c) eqn:Hc.
    + exists (String c ws). cbn [all_space]. rewrite Hc, Hws, append_String, <- IH.
      auto.
    + exists EmptyString. auto.
Qed.

Lemma rstrip_split s :
  exists ws, all_space ws = true /\ s = rstrip s +:+ ws.
Proof.
  induction s as [|c s (ws & Hws & IH)].
  - exists EmptyString. auto.
  - cbn [rstrip]. destruct (rstrip s) as [|x r] eqn:Hr.
    + rewrite append_empty in IH. destruct (isspace c) eqn:Hc.
      * exists (String c ws). cbn [all_space]. rewrite Hc, Hws, append_empty, <- IH.
        auto.
      * exists ws. split; [exact Hws|].
        rewrite append_String, append_empty, <- IH. reflexivity.
    + exists ws. split; [exact Hws|]. rewrite append_String, <- IH. reflexivity.
Qed.

Lemma rstrip_ends_nonspace s :
  rstrip s = EmptyString \/ ends_nonspace (rstrip s) = true.
Proof.
  induction s as [|c s IH]; [left; reflexivity|].
  cbn [rstrip]. destruct (rstrip s) as [|x r] eqn:Hr.
  - destruct (isspace c) eqn:Hc; [left; reflexivity|right].
    cbn. rewrite Hc. reflexivity.
  - right. destruct IH as [IH|IH]; [discriminate|].
    cbn [ends_nonspace]. exact IH.
Qed.

Lemma lstrip_starts_nonspace s :
  lstrip s = EmptyString \/ starts_nonspace (lstrip s) = true.
Proof.
  induction s as [|c s IH]; [left; reflexivity|].
  cbn [lstrip]. destruct (isspace c) eqn:Hc; [exact IH|].
  right. cbn. rewrite Hc. reflexivity.
Qed.

Lemma rstrip_starts s :
  starts_nonspace s = true -> starts_nonspace (rstrip s) = true.
Proof.
  destruct s as [|c s]; [discriminate|]. cbn [starts_nonspace rstrip].
  intros Hc. destruct (rstrip s); [|exact Hc].
  apply negb_true_iff in Hc. rewrite Hc. cbn. rewrite Hc. reflexivity.
Qed.

(** [strip] removes white space at both ends and nothing else. *)
Lemma strip_trims s :
  exists ws1 ws2,
    all_space ws1 = true /\ all_space ws2 = true
    /\ s = ws1 +:+ (strip s +:+ ws2)
    /\ (strip s = EmptyString
        \/ (starts_nonspace (strip s) = true /\ ends_nonspace (strip s) = true)).
Proof.
  destruct (lstrip_split s) as (ws1 & H1 & Hs).
  destruct (rstrip_split (lstrip s)) as (ws2 & H2 & Hl).
  exists ws1, ws2. split; [exact H1|]. split; [exact H2|].
  unfold strip. split; [rewrite <- Hl; exact Hs|].
  destruct (rstrip_ends_nonspace (lstrip s)) as [He|He]; [left; exact He|].
  right. split; [|exact He].
  destruct (lstrip_starts_nonspace s) as [Hn|Hn].
  - rewrite Hn in He. discriminate.
  - apply rstrip_starts, Hn.
Qed.



(** * Listings, their date-events and the sources *)
(** ** A source whose queries succeed and whose join rows are well formed *)

Lemma migrate_company_run E company_prefix c rows nd st :
  company_of company_prefix = Return c ->
  fetch_join E ("jobs_" +:+ company_prefix +:+ "_dates")
    ("jobs_" +:+ company_prefix +:+ "_listings") = Rows rows ->
  fetch_no_dates E ("jobs_" +:+ company_prefix +:+ "_dates")
    ("jobs_" +:+ company_prefix +:+ "_listings") = Rows nd ->
  Forall row_wf rows ->
  exists st2,
    migrate_company E company_prefix st = (Normal tt, finish_source c st2)
    /\ posted st2
       = posted st
         ++ map (request_of E company_prefix c) (submitted_rows rows)
         ++ map (dateless_request E company_prefix c) nd
    /\ jobs_migrated (loc st2)
       = Z.of_nat (size (submitted_ids rows)) + Z.of_nat (length nd)
    /\ stats st2 = stats st.
Proof.
  intros Hc Hj Hn Hwf. rewrite migrate_company_eq, Hc. cbn zeta. rewrite Hj, Hn.
  destruct (join_loop_run E company_prefix c rows Hwf (start_source c st))
    as (st1 & -> & Hp1 & Hpj1 & Hc1 & _ & Hs1 & _).
  destruct (dateless_loop_run E company_prefix c nd st1)
    as (st2 & -> & Hp2 & Hj2 & _ & Hs2 & _).
  exists st2. split; [reflexivity|].
  split; [rewrite Hp2, Hp1; cbn [start_source posted]; rewrite <- app_assoc;
          reflexivity|].
  split; [|rewrite Hs2, Hs1; reflexivity].
  rewrite Hj2. specialize (Hc1 fresh_counted). unfold jobs_counted in Hc1.
  rewrite Hc1, Hpj1. cbn [start_source loc processed_jobs].
  rewrite (left_id_L ∅ (∪)). reflexivity.
Qed.

Lemma submitted_ids_listing i rows :
  Forall (has_id i) rows ->
  submitted_ids rows = if decide (submitted_rows rows = []) then ∅ else {[i]}.
Proof.
  induction 1 as [|r rows Hi _ IH].
  - reflexivity.
  - rewrite submitted_ids_cons, submitted_rows_cons. unfold has_id in Hi.
    rewrite Hi. destruct (dated r) as [d|]; [|exact IH].
    rewrite decide_False by discriminate. rewrite IH.
    destruct (decide (submitted_rows rows = [])); set_solver.
Qed.

Lemma submitted_ids_without i rows :
  i ∉ submitted_ids (filter (fun r => ~ has_id i r) rows).
Proof.
  intros Hin. destruct (submitted_ids_elem _ _ Hin) as [r [Hr Hi]].
  apply list_elem_of_filter in Hr as [Hr _]. contradiction.
Qed.

(** C3, as stated, fails twice.  A listing whose only date-event
    carries a [ScrapeDate] that matches no pattern has one date-event,
    yet no record is submitted for it and it is not counted.  And a
    listing whose date-event parses, fetched after a row whose
    [ScrapeDate] came back as a [date] object, gets no record either:
    the source raises before its row is reached. *)
Lemma listing_events_counterexample :
  let rows := [row_b1] in
  let st := snd (for_each rows (join_body sample_env "kls" "KLS") initial_state) in
  (length (filter (has_id (VInt 2)) rows) = 1%nat
   /\ ~ (length (posted st) = 1%nat /\ jobs_migrated (loc st) = 1))
  /\ (fetch_join env_typed "jobs_kls_dates" "jobs_kls_listings"
      = Rows [row_typed; row_a1]
      /\ length (filter (has_id (VInt 1)) [row_typed; row_a1]) = 1%nat
      /\ dated row_a1 = Some (Date 2023 1 15)
      /\ migrate_company env_typed "kls" initial_state
         = (Raise (AttributeError "strip"), banner_printed "KLS" initial_state)
      /\ posted (snd (migrate_company env_typed "kls" initial_state)) = []).
Proof.
  cbn zeta. split.
  - split; [vm_compute; reflexivity|].
    vm_compute. intros [H _]. discriminate H.
  - repeat split; vm_compute; reflexivity.
Qed.

(** C3, amended.  Take a source whose two queries succeed and whose
    join rows do not make the loop raise, and in it the listing [i]
    with its [N >= 1] date-events, the join rows with that [id].
    Migrating the source returns; its requests are those of the
    submitted join rows, in order, followed by those of the listings
    without date-events.  The records sent for [i] are exactly those
    of its date-events whose [ScrapeDate] parses, one each and in
    order, each with the date parsed from it as [scrape_date]; they
    are all [N] when every [ScrapeDate] of the listing parses, and
    none when none does.  The line of the source counts as unique
    listings the distinct listings among the other submitted rows, the
    listings without date-events, and the listing [i] once if at least
    one of its date-events parses, whatever [N] is, and not at all if
    none parses.  Rows that agree on the configured columns have the
    same mapped content. *)
Theorem listing_events_all_submitted
    (E : env) (company_prefix company_name : string) (rows nd : list row)
    (i : value) (N : nat) (st : state) :
  company_of company_prefix = Return company_name ->
  fetch_join E ("jobs_" +:+ company_prefix +:+ "_dates")
    ("jobs_" +:+ company_prefix +:+ "_listings") = Rows rows ->
  fetch_no_dates E ("jobs_" +:+ company_prefix +:+ "_dates")
    ("jobs_" +:+ company_prefix +:+ "_listings") = Rows nd ->
  Forall row_wf rows ->
  length (filter (has_id i) rows) = N -> (1 <= N)%nat ->
  let mine := filter (has_id i) rows in
  let others := filter (fun r => ~ has_id i r) rows in
  exists st' line,
    migrate_company E company_prefix st = (Normal tt, st')
    /\ posted st'
       = posted st
         ++ map (request_of E company_prefix company_name) (submitted_rows rows)
         ++ map (dateless_request E company_prefix company_name) nd
    /\ filter (fun rd : row * date => has_id i (fst rd)) (submitted_rows rows)
       = submitted_rows mine
    /\ map fst (submitted_rows mine) = filter (fun r => is_Some (dated r)) mine
    /\ (Forall (fun r => is_Some (dated r)) mine ->
        map fst (submitted_rows mine) = mine
        /\ length (submitted_rows mine) = N)
    /\ (Forall (fun r => dated r = None) mine -> submitted_rows mine = [])
    /\ length (submitted_rows rows)
       = (length (submitted_rows mine) + length (submitted_rows others))%nat
    /\ dict_get company_name (by_company (stats st')) = Some line
    /\ cs_jobs line
       = Z.of_nat (size (submitted_ids others))
         + (if decide (submitted_rows mine = []) then 0 else 1)
         + Z.of_nat (length nd)
    /\ total_jobs (stats st') = total_jobs (stats st) + cs_jobs line
    /\ (i ∉ submitted_ids others)
    /\ (forall r d,
          (r, d) ∈ submitted_rows rows ->
          dated r = Some d
          /\ dict_get "scrape_date"
               (snd (request_of E company_prefix company_name (r, d)))
             = Some (JStr (isoformat d)))
    /\ (forall r1 r2,
          (forall old_field new_field,
             (old_field, new_field) ∈ field_mapping_of company_prefix ->
             r1 !! old_field = r2 !! old_field) ->
          job_data_of company_prefix r1 = job_data_of company_prefix r2).
Proof.
  intros Hc Hj Hn Hwf HN Hpos mine others.
  destruct (migrate_company_run E company_prefix company_name rows nd st
              Hc Hj Hn Hwf) as (st2 & Hrun & Hp & Hjobs & Hs).
  exists (finish_source company_name st2),
    (CompanyStats (jobs_migrated (loc st2)) (dates_migrated (loc st2))
       (errors (loc st2))).
  split; [exact Hrun|]. split; [exact Hp|].
  split; [symmetry; apply submitted_rows_filter|].
  assert (Hfilter : forall l : list row,
            map fst (submitted_rows l) = filter (fun r => is_Some (dated r)) l).
  { induction l as [|r l IH]; [reflexivity|].
    rewrite submitted_rows_cons, filter_cons.
    destruct (dated r) as [d|] eqn:Hd.
    - rewrite decide_True by eauto. cbn. rewrite IH. reflexivity.
    - rewrite decide_False by (intros [? ?]; discriminate). exact IH. }
  split; [apply Hfilter|].
  split.
  { intros Hall. pose proof (submitted_rows_all mine Hall) as Hm.
    split; [exact Hm|].
    rewrite <- (length_map fst (submitted_rows mine)), Hm. exact HN. }
  split.
  { generalize mine. induction 1 as [|r l Hr _ IH]; [reflexivity|].
    rewrite submitted_rows_cons, Hr. exact IH. }
  split; [apply (submitted_rows_split (has_id i) rows)|].
  unfold finish_source. cbn [stats by_company cs_jobs total_jobs].
  split; [rewrite dict_get_set, String.eqb_refl; reflexivity|].
  assert (Hids : Z.of_nat (size (submitted_ids rows))
                 = Z.of_nat (size (submitted_ids others))
                   + (if decide (submitted_rows mine = []) then 0 else 1)).
  { rewrite (submitted_ids_split (has_id i) rows). fold mine others.
    rewrite (submitted_ids_listing i mine).
    - destruct (decide (submitted_rows mine = [])).
      + rewrite (left_id_L ∅ (∪)). lia.
      + rewrite size_union.
        * rewrite size_singleton. lia.
        * apply disjoint_singleton_l, submitted_ids_without.
    - apply Forall_forall. intros r Hr.
      apply list_elem_of_filter in Hr as [Hr _]. exact Hr. }
  split; [rewrite Hjobs, Hids; reflexivity|].
  split; [rewrite Hs; reflexivity|].
  split; [apply submitted_ids_without|].
  split.
  - intros r d Hin. split; [apply (submitted_rows_dated _ _ _ Hin)|].
    unfold request_of. cbn [fst snd].
    apply build_payload_fixed; apply job_data_reserved; auto.
  - intros r1 r2 H. unfold job_data_of, map_job_fields.
    fold (field_mapping_of company_prefix).
    rewrite (map_fields_same_columns r1 r2 _ [] H). reflexivity.
Qed.

Lemma listing_events_all_submitted_witness :
  exists st' line,
    migrate_company sample_env "kls" initial_state = (Normal tt, st')
    /\ length (submitted_rows (filter (has_id (VInt 1)) [row_a1; row_a2; row_b1]))
       = 2%nat
    /\ submitted_rows (filter (has_id (VInt 2)) [row_a1; row_a2; row_b1]) = []
    /\ length (posted st') = 4%nat
    /\ dict_get "KLS" (by_company (stats st')) = Some line
    /\ cs_jobs line = 3.
Proof.
  assert (Hwf : Forall row_wf [row_a1; row_a2; row_b1]).
  { repeat constructor; unfold row_wf; vm_compute; eauto. }
  assert (Hf : filter (has_id (VInt 1)) [row_a1; row_a2; row_b1]
               = [row_a1; row_a2]) by (vm_compute; reflexivity).
  assert (Hf2 : filter (has_id (VInt 2)) [row_a1; row_a2; row_b1]
                = [row_b1]) by (vm_compute; reflexivity).
  assert (Hd : Forall (fun r => is_Some (dated r))
                 (filter (has_id (VInt 1)) [row_a1; row_a2; row_b1])).
  { rewrite Hf. repeat constructor; eexists; vm_compute; reflexivity. }
  assert (Hd2 : Forall (fun r => dated r = None)
                  (filter (has_id (VInt 2)) [row_a1; row_a2; row_b1])).
  { rewrite Hf2. repeat constructor. }
  assert (HN : length (filter (has_id (VInt 1)) [row_a1; row_a2; row_b1]) = 2%nat)
    by (rewrite Hf; reflexivity).
  assert (HN2 : length (filter (has_id (VInt 2)) [row_a1; row_a2; row_b1]) = 1%nat)
    by (rewrite Hf2; reflexivity).
  destruct (listing_events_all_submitted sample_env "kls" "KLS"
              [row_a1; row_a2; row_b1] [row_c; row_d] (VInt 1) 2 initial_state
              eq_refl eq_refl eq_refl Hwf HN (le_S _ _ (le_n 1)))
    as (st' & line & Hrun & Hp & _ & _ & Hall & _ & _ & Hline & _).
  destruct (listing_events_all_submitted sample_env "kls" "KLS"
              [row_a1; row_a2; row_b1] [row_c; row_d] (VInt 2) 1 initial_state
              eq_refl eq_refl eq_refl Hwf HN2 (le_n 1))
    as (st2 & line2 & Hrun2 & _ & _ & _ & _ & Hnone & _).
  exists st', line. split; [exact Hrun|].
  split; [exact (proj2 (Hall Hd))|]. split; [exact (Hnone Hd2)|].
  split; [rewrite Hp; vm_compute; reflexivity|].
  split; [exact Hline|].
  rewrite Hrun in Hrun2. injection Hrun2 as <-.
  assert (Hst : st' = snd (migrate_company sample_env "kls" initial_state))
    by (rewrite Hrun; reflexivity).
  rewrite Hst in Hline. vm_compute in Hline. injection Hline as <-. reflexivity.
Defined.

(** ** A source that is abandoned *)

Lemma join_loop_raises E company_prefix c before r after :
  Forall row_wf before -> ~ row_wf r ->
  forall s, exists e s1,
    for_each (before ++ r :: after) (join_body E company_prefix c) s
    = (Raise e, s1).
Proof.
  intros Hwf Hbad. induction Hwf as [|r0 before Hr0 _ IH]; intros s.
  - cbn [app for_each]. rewrite join_body_eq. unfold row_wf in Hbad.
    destruct (row_date r) as [[d|]|e].
    + cbn zeta. destruct (r !! "id") as [i|].
      * exfalso. apply Hbad. exists i. reflexivity.
      * do 2 eexists. reflexivity.
    + exfalso. apply Hbad. exact I.
    + do 2 eexists. reflexivity.
  - cbn [app for_each]. rewrite join_body_eq. unfold row_wf in Hr0.
    destruct (row_date r0) as [[d|]|e]; [| |contradiction].
    + destruct Hr0 as [i Hi]. rewrite Hi. cbn zeta. apply IH.
    + apply IH.
Qed.

Lemma migrate_company_abandoned E company_prefix c rows nd st before r after :
  company_of company_prefix = Return c ->
  fetch_join E ("jobs_" +:+ company_prefix +:+ "_dates")
    ("jobs_" +:+ company_prefix +:+ "_listings") = Rows rows ->
  fetch_no_dates E ("jobs_" +:+ company_prefix +:+ "_dates")
    ("jobs_" +:+ company_prefix +:+ "_listings") = Rows nd ->
  rows = before ++ r :: after ->
  Forall row_wf before -> ~ row_wf r ->
  exists e k,
    fst (migrate_company E company_prefix st) = Raise e
    /\ (k <= length rows)%nat
    /\ posted (snd (migrate_company E company_prefix st))
       = posted st
         ++ map (request_of E company_prefix c) (submitted_rows (take k rows)).
Proof.
  intros Hc Hj Hn -> Hwf Hbad. rewrite migrate_company_eq, Hc. cbn zeta.
  rewrite Hj, Hn.
  destruct (join_loop_prefix E company_prefix c (before ++ r :: after)
              (start_source c st)) as (k & Hk & Hp & _).
  destruct (join_loop_raises E company_prefix c before r after Hwf Hbad
              (start_source c st)) as (e & s1 & Hl).
  rewrite Hl in *. cbn [fst snd] in *.
  exists e, k. split; [reflexivity|]. split; [exact Hk|exact Hp].
Qed.

Lemma migrate_company_query_fails E company_prefix c st msg :
  company_of company_prefix = Return c ->
  fetch_join E ("jobs_" +:+ company_prefix +:+ "_dates")
    ("jobs_" +:+ company_prefix +:+ "_listings") = DbError msg
  \/ fetch_no_dates E ("jobs_" +:+ company_prefix +:+ "_dates")
       ("jobs_" +:+ company_prefix +:+ "_listings") = DbError msg ->
  (exists e, fst (migrate_company E company_prefix st) = Raise e)
  /\ posted (snd (migrate_company E company_prefix st)) = posted st.
Proof.
  intros Hc Hq. rewrite migrate_company_eq, Hc. cbn zeta.
  destruct Hq as [-> | Hq].
  - cbn. eauto.
  - destruct (fetch_join E _ _); rewrite ?Hq; cbn; eauto.
Qed.

(** C4, as stated, fails: the listing of [row_d] has no date-event,
    both queries succeed, and yet no record is sent for it, in the
    source and in the whole run, because a join row fetched before the
    loop over such listings makes the source raise. *)
Lemma dateless_listing_unsent_counterexample :
  fetch_no_dates env_typed "jobs_kls_dates" "jobs_kls_listings" = Rows [row_d]
  /\ fst (migrate_company env_typed "kls" initial_state)
     = Raise (AttributeError "strip")
  /\ posted (snd (migrate_company env_typed "kls" initial_state)) = []
  /\ fst (main env_typed) = 0
  /\ posted (snd (main env_typed)) = [].
Proof. repeat split; vm_compute; reflexivity. Qed.

(** C4, amended.  The loop over the listings without date-events never
    raises and sends exactly one request per listing, in order; the
    record of a listing carries as event date its mapped [date_added]
    when that is present and [fromisoformat] reads it, and the current
    date otherwise; each listing adds one to the counter of unique
    listings.  A source whose two queries succeed and whose join rows
    do not make the first loop raise returns, and its requests are
    those of the join rows followed by these records.  A source in
    which a join row makes the first loop raise, or a query fails,
    ends with an exception and sends no record for the listings
    without date-events. *)
Theorem dateless_listing_one_record
    (E : env) (company_prefix company_name : string) (rows : list row)
    (st : state) :
  (exists st',
     for_each rows (no_dates_body E company_prefix company_name) st
     = (Normal tt, st')
     /\ posted st'
        = posted st
          ++ map (fun r =>
                    (api_url E +:+ "/api/jobs",
                     build_payload company_name (job_data_of company_prefix r)
                       (dateless_date E (job_data_of company_prefix r)))) rows
     /\ jobs_migrated (loc st')
        = jobs_migrated (loc st) + Z.of_nat (length rows))
  /\ (forall r,
        map_job_fields company_prefix r
        = Return (job_data_of company_prefix r)
        /\ dict_get "scrape_date"
             (build_payload company_name (job_data_of company_prefix r)
                (dateless_date E (job_data_of company_prefix r)))
           = Some (JStr (isoformat
                           (dateless_date E (job_data_of company_prefix r)))))
  /\ (forall r,
        let job_data := job_data_of company_prefix r in
        (forall s dt,
           dict_get "date_added" job_data = Some (JStr s) ->
           fromisoformat E s = Some dt ->
           dateless_date E job_data = datetime_date dt)
        /\ (forall s,
              dict_get "date_added" job_data = Some (JStr s) ->
              fromisoformat E s = None ->
              dateless_date E job_data = today E)
        /\ (dict_get "date_added" job_data = None ->
            dateless_date E job_data = today E))
  /\ (forall old_field r s d dt,
        (old_field, "date_added") ∈ field_mapping_of company_prefix ->
        r !! old_field = Some (VStr s) ->
        _parse_date (VStr s) = Return (Some d) ->
        fromisoformat E (isoformat d) = Some dt ->
        dateless_date E (job_data_of company_prefix r) = datetime_date dt)
  /\ (forall st0 all_rows,
        company_of company_prefix = Return company_name ->
        fetch_join E ("jobs_" +:+ company_prefix +:+ "_dates")
          ("jobs_" +:+ company_prefix +:+ "_listings") = Rows all_rows ->
        fetch_no_dates E ("jobs_" +:+ company_prefix +:+ "_dates")
          ("jobs_" +:+ company_prefix +:+ "_listings") = Rows rows ->
        (Forall row_wf all_rows ->
         fst (migrate_company E company_prefix st0) = Normal tt
         /\ posted (snd (migrate_company E company_prefix st0))
            = posted st0
              ++ map (request_of E company_prefix company_name)
                   (submitted_rows all_rows)
              ++ map (fun r =>
                        (api_url E +:+ "/api/jobs",
                         build_payload company_name
                           (job_data_of company_prefix r)
                           (dateless_date E (job_data_of company_prefix r))))
                   rows)
        /\ (forall before r after,
              all_rows = before ++ r :: after ->
              Forall row_wf before -> ~ row_wf r ->
              exists e k,
                fst (migrate_company E company_prefix st0) = Raise e
                /\ (k <= length all_rows)%nat
                /\ posted (snd (migrate_company E company_prefix st0))
                   = posted st0
                     ++ map (request_of E company_prefix company_name)
                          (submitted_rows (take k all_rows))))
  /\ (forall st0 msg,
        company_of company_prefix = Return company_name ->
        fetch_join E ("jobs_" +:+ company_prefix +:+ "_dates")
          ("jobs_" +:+ company_prefix +:+ "_listings") = DbError msg
        \/ fetch_no_dates E ("jobs_" +:+ company_prefix +:+ "_dates")
             ("jobs_" +:+ company_prefix +:+ "_listings") = DbError msg ->
        (exists e, fst (migrate_company E company_prefix st0) = Raise e)
        /\ posted (snd (migrate_company E company_prefix st0)) = posted st0).
Proof.
  split; [|split; [|split; [|split; [|split]]]].
  - destruct (dateless_loop_run E company_prefix company_name rows st)
      as (st' & Hrun & Hp & Hj & _).
    exists st'. split; [exact Hrun|]. split; [exact Hp|exact Hj].
  - intros r. split; [apply map_job_fields_eq|].
    apply build_payload_fixed; apply job_data_reserved; auto.
  - intros r. cbn zeta. unfold dateless_date.
    split; [|split].
    + intros s dt -> ->. reflexivity.
    + intros s -> ->. reflexivity.
    + intros ->. reflexivity.
  - intros old_field r s d dt Hin Hr Hp Hiso.
    destruct (map_fields_lookup r (field_mapping_of company_prefix)
                (targets_unique company_prefix) [] _
                (map_job_fields_eq company_prefix r)) as (Hl & _);
      [reflexivity|].
    unfold dateless_date. rewrite (Hl _ _ Hin), Hr.
    rewrite parse_date_str in Hp. injection Hp as Hp.
    change (Some (VStr s) ≫= mapped_value "date_added")
      with (match parse_date_spec s with
            | Some d => Some (JStr (isoformat d))
            | None => None
            end).
    rewrite Hp, Hiso. reflexivity.
  - intros st0 all_rows Hc Hj Hn. split.
    + intros Hwf.
      destruct (migrate_company_run E company_prefix company_name all_rows rows
                  st0 Hc Hj Hn Hwf) as (st2 & -> & Hp & _).
      split; [reflexivity|exact Hp].
    + intros before r after Hrows Hwf Hbad.
      exact (migrate_company_abandoned E company_prefix company_name all_rows
               rows st0 before r after Hc Hj Hn Hrows Hwf Hbad).
  - intros st0 msg Hc Hq.
    exact (migrate_company_query_fails E company_prefix company_name st0 msg
             Hc Hq).
Qed.

(** The sample source: its three join rows, then one listing without
    date-events whose [DateAdded] is read, and one without [DateAdded]. *)
Lemma dateless_listing_one_record_witness :
  fst (migrate_company sample_env "kls" initial_state) = Normal tt
  /\ map (fun req => dict_get "scrape_date" (snd req))
       (posted (snd (migrate_company sample_env "kls" initial_state)))
     = [Some (JStr "2023-01-15"); Some (JStr "2023-01-16");
        Some (JStr "2023-02-01"); Some (JStr "2024-05-17")]
  /\ dateless_date sample_env (job_data_of "kls" row_c) = Date 2023 2 1
  /\ (exists e k,
        fst (migrate_company env_typed "kls" initial_state) = Raise e
        /\ (k <= 2)%nat
        /\ posted (snd (migrate_company env_typed "kls" initial_state))
           = [] ++ map (request_of env_typed "kls" "KLS")
                     (submitted_rows (take k [row_typed; row_a1]))).
Proof.
  destruct (dateless_listing_one_record sample_env "kls" "KLS"
              [row_c; row_d] initial_state) as (_ & _ & _ & Hd & H & _).
  destruct (dateless_listing_one_record env_typed "kls" "KLS"
              [row_d] initial_state) as (_ & _ & _ & _ & H' & _).
  assert (Hwf : Forall row_wf [row_a1; row_a2; row_b1]).
  { repeat constructor; unfold row_wf; vm_compute; eauto. }
  destruct (H initial_state [row_a1; row_a2; row_b1] eq_refl eq_refl eq_refl)
    as [Hok _].
  destruct (Hok Hwf) as [Hn Hp].
  split; [exact Hn|]. split; [rewrite Hp; vm_compute; reflexivity|].
  split.
  - assert (Hin : ("DateAdded", "date_added") ∈ field_mapping_of "kls").
    { refine (bool_decide_unpack _ _). vm_compute. exact I. }
    assert (Hr : row_c !! "DateAdded" = Some (VStr "1.2.2023"))
      by (vm_compute; reflexivity).
    assert (Hp' : _parse_date (VStr "1.2.2023") = Return (Some (Date 2023 2 1)))
      by (vm_compute; reflexivity).
    assert (Hiso : fromisoformat sample_env (isoformat (Date 2023 2 1))
                   = Some (Datetime 2023 2 1 0 0 0 0))
      by (vm_compute; reflexivity).
    exact (Hd "DateAdded" row_c _ _ _ Hin Hr Hp' Hiso).
  - destruct (H' initial_state [row_typed; row_a1] eq_refl eq_refl eq_refl)
      as [_ Hbad].
    assert (Hnil : Forall row_wf []) by constructor.
    apply (Hbad [] row_typed [row_a1] eq_refl Hnil).
    unfold row_wf. vm_compute. auto.
Defined.

(** * Submissions, failures and the full run *)
(** ** Submissions that succeed *)

Lemma insert_outcome_success a :
  is_api_success a = true -> insert_outcome a = (true, []).
Proof.
  destruct a as [e|r]; cbn; [discriminate|]. intros H.
  apply andb_true_iff in H as [H1 H2]. apply negb_true_iff in H1.
  replace ((400 <=? status_code r) && (status_code r <? 500)
           || (500 <=? status_code r) && (status_code r <? 600)) with false.
  - rewrite H2. reflexivity.
  - symmetry. apply andb_false_iff in H1.
    destruct (Z.leb_spec 400 (status_code r)), (Z.ltb_spec (status_code r) 500),
      (Z.leb_spec 500 (status_code r)), (Z.ltb_spec (status_code r) 600);
      cbn; try reflexivity; try lia;
      destruct H1 as [H1|H1]; try discriminate;
      try (apply Z.leb_gt in H1; lia); try (apply Z.ltb_ge in H1; lia).
Qed.

(** What both callers do with a submission that returned [True]. *)
Lemma join_body_succeeded E company_prefix company_name r d rest st :
  dated r = Some d -> is_Some (r !! "id") ->
  insert_outcome (api E (length (posted st))
                    (snd (request_of E company_prefix company_name (r, d))))
  = (true, []) ->
  exists st',
    join_body E company_prefix company_name r st = (Normal tt, st')
    /\ dates_migrated (loc st') = dates_migrated (loc st) + 1
    /\ errors (loc st') = errors (loc st)
    /\ for_each (r :: rest) (join_body E company_prefix company_name) st
       = for_each rest (join_body E company_prefix company_name) st'.
Proof.
  intros Hd [i Hi] Ho.
  pose proof (join_body_eq E company_prefix company_name r st) as HE.
  rewrite (dated_row_date _ _ Hd), Hi in HE. cbn zeta in HE. rewrite Ho in HE.
  eexists. split; [exact HE|]. cbn [after_request loc fst].
  destruct (track_job_counts i (count_locals true (loc st))) as [-> ->].
  repeat split. cbn [for_each]. rewrite HE. reflexivity.
Qed.

Lemma no_dates_body_succeeded E company_prefix company_name r rest st :
  insert_outcome (api E (length (posted st))
                    (snd (dateless_request E company_prefix company_name r)))
  = (true, []) ->
  exists st',
    no_dates_body E company_prefix company_name r st = (Normal tt, st')
    /\ dates_migrated (loc st') = dates_migrated (loc st) + 1
    /\ errors (loc st') = errors (loc st)
    /\ for_each (r :: rest) (no_dates_body E company_prefix company_name) st
       = for_each rest (no_dates_body E company_prefix company_name) st'.
Proof.
  intros Ho.
  pose proof (no_dates_body_eq E company_prefix company_name r st) as HE.
  cbn zeta in HE. rewrite Ho in HE.
  eexists. split; [exact HE|]. repeat split.
  cbn [for_each]. rewrite HE. reflexivity.
Qed.

(** C5, as stated, fails: a 300 answer with a JSON body is not a 2xx
    answer, yet the submission returns [True] and the caller counts a
    migrated date and no error. *)
Lemma non_2xx_counterexample :
  let st := snd (join_body env_300 "kls" "KLS" row_a1 initial_state) in
  api env_300 0 [] = Responds (Response 300 "{}" true)
  /\ fst (insert_job_via_api env_300 "KLS" [] (Date 2023 1 15) initial_state)
     = Normal true
  /\ dates_migrated (loc st) = 1 /\ errors (loc st) = 0.
Proof. vm_compute. auto. Qed.

(** C5, amended.  When the request fails at the network level or the
    API answers with a 4xx or 5xx status, [insert_job_via_api] sends
    the request, prints the error and the body of the response if the
    error carries one, and returns [False] without raising; either
    loop then adds one to [errors], leaves [dates_migrated] alone and
    goes on with the rows that remain.  When the API answers with any
    other status, a 3xx or 1xx one included, and a body that [json()]
    decodes, [insert_job_via_api] returns [True] and prints nothing;
    either loop then adds one to [dates_migrated], leaves [errors]
    alone and goes on. *)
Theorem failed_submission_counted
    (E : env) (company_prefix company_name : string) :
  (forall job_data scrape_date st,
     let req := (api_url E +:+ "/api/jobs",
                 build_payload company_name job_data scrape_date) in
     let a := api E (length (posted st)) (snd req) in
     is_api_error a = true ->
     insert_job_via_api E company_name job_data scrape_date st
     = (Normal false, after_request st req (error_lines a) (loc st)))
  /\ (forall r d rest st,
        dated r = Some d -> is_Some (r !! "id") ->
        is_api_error
          (api E (length (posted st))
             (snd (request_of E company_prefix company_name (r, d)))) = true ->
        exists st',
          join_body E company_prefix company_name r st = (Normal tt, st')
          /\ errors (loc st') = errors (loc st) + 1
          /\ dates_migrated (loc st') = dates_migrated (loc st)
          /\ for_each (r :: rest) (join_body E company_prefix company_name) st
             = for_each rest (join_body E company_prefix company_name) st')
  /\ (forall r rest st,
        is_api_error
          (api E (length (posted st))
             (snd (dateless_request E company_prefix company_name r))) = true ->
        exists st',
          no_dates_body E company_prefix company_name r st = (Normal tt, st')
          /\ errors (loc st') = errors (loc st) + 1
          /\ dates_migrated (loc st') = dates_migrated (loc st)
          /\ for_each (r :: rest) (no_dates_body E company_prefix company_name) st
             = for_each rest (no_dates_body E company_prefix company_name) st')
  /\ (forall job_data scrape_date st,
        let req := (api_url E +:+ "/api/jobs",
                    build_payload company_name job_data scrape_date) in
        let a := api E (length (posted st)) (snd req) in
        is_api_success a = true ->
        insert_job_via_api E company_name job_data scrape_date st
        = (Normal true, after_request st req [] (loc st)))
  /\ (forall r d rest st,
        dated r = Some d -> is_Some (r !! "id") ->
        is_api_success
          (api E (length (posted st))
             (snd (request_of E company_prefix company_name (r, d)))) = true ->
        exists st',
          join_body E company_prefix company_name r st = (Normal tt, st')
          /\ dates_migrated (loc st') = dates_migrated (loc st) + 1
          /\ errors (loc st') = errors (loc st)
          /\ for_each (r :: rest) (join_body E company_prefix company_name) st
             = for_each rest (join_body E company_prefix company_name) st')
  /\ (forall r rest st,
        is_api_success
          (api E (length (posted st))
             (snd (dateless_request E company_prefix company_name r))) = true ->
        exists st',
          no_dates_body E company_prefix company_name r st = (Normal tt, st')
          /\ dates_migrated (loc st') = dates_migrated (loc st) + 1
          /\ errors (loc st') = errors (loc st)
          /\ for_each (r :: rest) (no_dates_body E company_prefix company_name) st
             = for_each rest (no_dates_body E company_prefix company_name) st')
  /\ (forall body decodes,
        is_api_error (Responds (Response 404 body decodes)) = true
        /\ is_api_error (Responds (Response 500 body decodes)) = true
        /\ is_api_success (Responds (Response 201 body true)) = true
        /\ is_api_success (Responds (Response 300 body true)) = true
        /\ is_api_success (Responds (Response 199 body true)) = true).
Proof.
  split; [|split; [|split; [|split; [|split; [|split]]]]].
  - intros jd d st req a Ha. rewrite insert_job_via_api_eq. cbn zeta.
    fold req. fold a. rewrite (insert_outcome_error a Ha). reflexivity.
  - intros r d rest st Hd Hi Ha.
    eapply join_body_failed; eauto using insert_outcome_error.
  - intros r rest st Ha.
    eapply no_dates_body_failed; eauto using insert_outcome_error.
  - intros jd d st req a Ha. rewrite insert_job_via_api_eq. cbn zeta.
    fold req. fold a. rewrite (insert_outcome_success a Ha). reflexivity.
  - intros r d rest st Hd Hi Ha.
    eapply join_body_succeeded; eauto using insert_outcome_success.
  - intros r rest st Ha.
    eapply no_dates_body_succeeded; eauto using insert_outcome_success.
  - intros body decodes. repeat split.
Qed.

(** The scenario of the specification, the second request of the
    sample run being answered 500, and a request answered 300. *)
Lemma failed_submission_counted_witness :
  let st1 := snd (join_body sample_env "kls" "KLS" row_a1 initial_state) in
  (exists st',
     join_body sample_env "kls" "KLS" row_a2 st1 = (Normal tt, st')
     /\ errors (loc st') = errors (loc st1) + 1
     /\ dates_migrated (loc st') = dates_migrated (loc st1)
     /\ for_each [row_a2; row_b1] (join_body sample_env "kls" "KLS") st1
        = for_each [row_b1] (join_body sample_env "kls" "KLS") st')
  /\ (exists st',
        join_body env_300 "kls" "KLS" row_a1 initial_state = (Normal tt, st')
        /\ dates_migrated (loc st') = dates_migrated (loc initial_state) + 1
        /\ errors (loc st') = errors (loc initial_state)
        /\ for_each [row_a1; row_a2] (join_body env_300 "kls" "KLS") initial_state
           = for_each [row_a2] (join_body env_300 "kls" "KLS") st').
Proof.
  cbn zeta. split.
  - destruct (failed_submission_counted sample_env "kls" "KLS") as (_ & H & _).
    apply (H row_a2 (Date 2023 1 16)).
    + vm_compute. reflexivity.
    + eexists. vm_compute. reflexivity.
    + vm_compute. reflexivity.
  - destruct (failed_submission_counted env_300 "kls" "KLS")
      as (_ & _ & _ & _ & H & _).
    apply (H row_a1 (Date 2023 1 15)).
    + vm_compute. reflexivity.
    + eexists. vm_compute. reflexivity.
    + reflexivity.
Defined.

(** ** The handlers of [migrate_all] *)

Lemma sources_loop_cons migrate_source company_prefix sources st :
  sources_loop migrate_source (company_prefix :: sources) st
  = match migrate_source company_prefix st with
    | (Raise e, st') =>
        if is_Exception e
        then sources_loop migrate_source sources (logged company_prefix e st')
        else (Raise e, st')
    | (_, st') => sources_loop migrate_source sources st'
    end.
Proof.
  unfold sources_loop. cbn [for_each]. unfold try_except at 1.
  destruct (migrate_source company_prefix st) as [[[]| |e] st']; try reflexivity.
  destruct (is_Exception e); [|reflexivity].
  unfold bind, print, logged. cbn. rewrite <- app_assoc. reflexivity.
Qed.

Lemma sources_loop_escape migrate_source sources st e st' :
  sources_loop migrate_source sources st = (Raise e, st') ->
  is_Exception e = false.
Proof.
  revert st. induction sources as [|px sources IH]; intros st.
  - discriminate.
  - rewrite sources_loop_cons.
    destruct (migrate_source px st) as [[[]| |e0] s1]; eauto.
    destruct (is_Exception e0) eqn:He; eauto.
    intros [= <- <-]. exact He.
Qed.

Lemma migrate_all_with_eq E migrate_source st :
  db_connect E = None ->
  migrate_all_with E migrate_source st
  = match sources_loop migrate_source (map fst COMPANY_MAPPING) (connected st) with
    | (Normal _, s1) => (Normal tt, close_and_summarise s1)
    | (Continue, s1) =>
        (Continue, State (stats s1) (stdout s1) (posted s1) Closed (loc s1))
    | (Raise e, s1) =>
        (Raise e, State (stats s1) (stdout s1) (posted s1) Closed (loc s1))
    end.
Proof.
  intros Hdb. unfold migrate_all_with.
  unfold bind at 1. rewrite (connect_db_ok E st Hdb).
  unfold bind at 1. unfold try_finally.
  destruct (sources_loop migrate_source _ (connected st)) as [[[]| |e] s1];
    reflexivity.
Qed.

Lemma migrate_all_with_closes E migrate_source st :
  db_connect E = None ->
  conn (snd (migrate_all_with E migrate_source st)) = Closed
  /\ (forall e,
        fst (migrate_all_with E migrate_source st) = Raise e ->
        is_Exception e = false
        /\ exists st',
             sources_loop migrate_source (map fst COMPANY_MAPPING) (connected st)
             = (Raise e, st')
             /\ snd (migrate_all_with E migrate_source st)
                = State (stats st') (stdout st') (posted st') Closed (loc st')).
Proof.
  intros Hdb. rewrite (migrate_all_with_eq E migrate_source st Hdb).
  destruct (sources_loop migrate_source _ (connected st)) as [[[]| |e] s1] eqn:Hl;
    cbn [fst snd conn close_and_summarise].
  - split; [reflexivity|]. intros e He. discriminate He.
  - split; [reflexivity|]. intros e He. discriminate He.
  - split; [reflexivity|]. intros e' [= <-].
    split; [exact (sources_loop_escape _ _ _ _ _ Hl)|].
    exists s1. split; reflexivity.
Qed.

(** ** Failed submissions in the statistics *)

Lemma count_failed_app E n sent1 sent2 :
  count_failed E n (sent1 ++ sent2)
  = count_failed E n sent1 + count_failed E (n + length sent1) sent2.
Proof.
  revert n. induction sent1 as [|req sent1 IH]; intros n; cbn [app count_failed length].
  - rewrite Nat.add_0_r. lia.
  - rewrite IH. replace (S n + length sent1)%nat with (n + S (length sent1))%nat by lia.
    lia.
Qed.

Lemma count_failed_bounds E n sent :
  0 <= count_failed E n sent <= Z.of_nat (length sent).
Proof.
  revert n. induction sent as [|req sent IH]; intros n; cbn [count_failed length].
  - lia.
  - specialize (IH (S n)). destruct (fst (insert_outcome _)); lia.
Qed.

Lemma tally_request E s0 old st req out l :
  tally E s0 old st ->
  errors l
  = errors (count_locals
              (fst (insert_outcome (api E (length (posted st)) (snd req))))
              (loc st)) ->
  dates_migrated l
  = dates_migrated (count_locals
                      (fst (insert_outcome (api E (length (posted st)) (snd req))))
                      (loc st)) ->
  tally E s0 old (after_request st req out l).
Proof.
  intros (Hs & sent & Hp & He & Hd) Hel Hdl.
  split; [exact Hs|]. exists (sent ++ [req]).
  cbn [after_request posted loc]. rewrite Hp, app_assoc. split; [reflexivity|].
  rewrite count_failed_app, length_app. cbn [count_failed length].
  rewrite Hel, Hdl. rewrite Hp, length_app.
  set (b := fst (insert_outcome _)).
  destruct b; cbn [count_locals errors dates_migrated];
    rewrite ?He, ?Hd; split; lia.
Qed.

Lemma join_body_tally E company_prefix company_name s0 old r st :
  tally E s0 old st ->
  tally E s0 old (snd (join_body E company_prefix company_name r st)).
Proof.
  intros H. rewrite join_body_eq.
  destruct (row_date r) as [[d|]|e]; [|exact H|exact H].
  cbn zeta. destruct (r !! "id") as [i|]; cbn [snd].
  - apply tally_request; [exact H| |];
      destruct (track_job_counts i
                  (count_locals
                     (fst (insert_outcome
                             (api E (length (posted st))
                                (snd (request_of E company_prefix company_name
                                        (r, d))))))
                     (loc st))) as [Hd He]; [exact He|exact Hd].
  - apply tally_request; [exact H| |]; reflexivity.
Qed.

Lemma no_dates_body_tally E company_prefix company_name s0 old r st :
  tally E s0 old st ->
  tally E s0 old (snd (no_dates_body E company_prefix company_name r st)).
Proof.
  intros H. rewrite no_dates_body_eq. cbn [snd].
  apply tally_request; [exact H| |]; reflexivity.
Qed.

Lemma migrate_company_tally E company_prefix st st' :
  migrate_company E company_prefix st = (Normal tt, st') ->
  exists sent,
    posted st' = posted st ++ sent
    /\ stats_errors (stats st')
       = stats_errors (stats st) + count_failed E (length (posted st)) sent
    /\ total_dates (stats st')
       = total_dates (stats st) + Z.of_nat (length sent)
         - count_failed E (length (posted st)) sent.
Proof.
  rewrite migrate_company_eq.
  destruct (company_of company_prefix) as [c|e]; [|discriminate]. cbn zeta.
  destruct (fetch_join E _ _) as [all_rows|msg]; [|discriminate].
  destruct (fetch_no_dates E _ _) as [nd|msg]; [|discriminate].
  assert (H0 : tally E (stats st) (posted st) (start_source c st)).
  { split; [reflexivity|]. exists []. cbn. rewrite app_nil_r. auto. }
  pose proof (for_each_preserves _ _ all_rows
                (fun r s => join_body_tally E company_prefix c _ _ r s) _ H0)
    as H1.
  destruct (for_each all_rows _ _) as [[[]| |e] st1]; try discriminate.
  cbn [snd] in H1.
  pose proof (for_each_preserves _ _ nd
                (fun r s => no_dates_body_tally E company_prefix c _ _ r s) _ H1)
    as H2.
  destruct (for_each nd _ _) as [[[]| |e] st2]; try discriminate.
  cbn [snd] in H2. destruct H2 as (Hs & sent & Hp & He & Hd).
  intros [= <-]. exists sent. unfold finish_source.
  cbn [posted stats stats_errors total_dates]. rewrite Hs, He, Hd.
  split; [exact Hp|]. split; lia.
Qed.

(** C7, as stated, fails: the [kls] source of this run raises after one
    record has been sent; the error is caught and traced and the
    process exits with status 0, but the statistics hold no error, no
    entry for KLS and none of its records. *)
Lemma error_outside_statistics_counterexample :
  let st := snd (main env_broken) in
  fst (main env_broken) = 0
  /\ PrintTraceback (AttributeError "strip") ∈ stdout st
  /\ length (posted st) = 2%nat
  /\ stats st = RunStats 1 1 0 [("KarlStorz", CompanyStats 1 1 0)].
Proof.
  cbn zeta. split; [vm_compute; reflexivity|].
  split; [|split; vm_compute; reflexivity].
  vm_compute. do 3 apply list_elem_of_further. apply list_elem_of_here.
Qed.

(** C7, amended.  When the connection fails the process prints the
    error and exits with status 1, nothing else done.  Otherwise it
    exits with status 0: the sources are migrated in turn, each from
    the state its predecessor left whether that one raised or not, then
    the connection is closed and the summary printed.  The handlers do
    this whatever a source does: in the loop of [migrate_all], taken
    with any method in the place of [migrate_company], every exception
    that is an [Exception] is printed with its stack trace and the loop
    goes on with the remaining sources, and the connection is closed
    on every way out of [migrate_all] after it was opened, also when an
    exception that is no [Exception] ends the run.  [migrate_company]
    itself raises nothing but [Exception]s.  A source that raises
    leaves [self.stats] as they were: its error is logged, not counted.
    A source that returns has every failed submission counted in the
    errors of [self.stats], and every other one in the dates. *)
Theorem full_run_exit_status (E : env) :
  (forall msg,
     db_connect E = Some msg ->
     main E = (1, State (RunStats 0 0 0 []) [PrintConnectError msg] []
                    NotConnected (Locals 0 0 0 ∅)))
  /\ (db_connect E = None ->
      main E = (0, close_and_summarise
                     (run_source E "ks"
                        (run_source E "kls" (connected initial_state))))
      /\ conn (snd (main E)) = Closed
      /\ last (stdout (snd (main E))) = Some (PrintSummary (stats (snd (main E)))))
  /\ (fst (main E) <> 0 <-> db_connect E <> None)
  /\ (forall company_prefix st,
        conn (run_source E company_prefix st) = conn st
        /\ (forall st',
              migrate_company E company_prefix st = (Normal tt, st') ->
              run_source E company_prefix st = st')
        /\ (forall e st',
              migrate_company E company_prefix st = (Raise e, st') ->
              is_Exception e = true
              /\ run_source E company_prefix st
                 = State (stats st)
                     (stdout st'
                      ++ [PrintMigrateError company_prefix e; PrintTraceback e])
                     (posted st') (conn st) (loc st')))
  /\ conn (snd (main E)) <> Open
  /\ migrate_all E = migrate_all_with E (migrate_company E)
  /\ (forall migrate_source company_prefix sources st,
        sources_loop migrate_source (company_prefix :: sources) st
        = match migrate_source company_prefix st with
          | (Raise e, st') =>
              if is_Exception e
              then sources_loop migrate_source sources
                     (logged company_prefix e st')
              else (Raise e, st')
          | (_, st') => sources_loop migrate_source sources st'
          end)
  /\ (forall migrate_source st,
        db_connect E = None ->
        conn (snd (migrate_all_with E migrate_source st)) = Closed
        /\ (forall e,
              fst (migrate_all_with E migrate_source st) = Raise e ->
              is_Exception e = false
              /\ exists st',
                   sources_loop migrate_source (map fst COMPANY_MAPPING)
                     (connected st) = (Raise e, st')
                   /\ snd (migrate_all_with E migrate_source st)
                      = State (stats st') (stdout st') (posted st') Closed
                          (loc st')))
  /\ (forall company_prefix st st',
        migrate_company E company_prefix st = (Normal tt, st') ->
        exists sent,
          posted st' = posted st ++ sent
          /\ stats_errors (stats st')
             = stats_errors (stats st)
               + count_failed E (length (posted st)) sent
          /\ total_dates (stats st')
             = total_dates (stats st) + Z.of_nat (length sent)
               - count_failed E (length (posted st)) sent).
Proof.
  assert (H1 : forall msg,
            db_connect E = Some msg ->
            main E = (1, State (RunStats 0 0 0 []) [PrintConnectError msg] []
                           NotConnected (Locals 0 0 0 ∅))).
  { intros msg Hdb. unfold main. rewrite (migrate_all_offline E _ msg Hdb).
    reflexivity. }
  assert (H2 : db_connect E = None ->
               main E = (0, close_and_summarise
                              (run_source E "ks"
                                 (run_source E "kls" (connected initial_state))))).
  { intros Hdb. unfold main. rewrite (migrate_all_connected E _ Hdb).
    reflexivity. }
  split; [exact H1|]. split; [|split; [|split; [|split; [|split; [|split; [|split]]]]]].
  - intros Hdb. split; [exact (H2 Hdb)|]. rewrite (H2 Hdb).
    unfold close_and_summarise. cbn [snd conn stdout stats].
    split; [reflexivity|]. apply last_snoc.
  - destruct (db_connect E) as [msg|] eqn:Hdb.
    + rewrite (H1 msg eq_refl). cbn. split; [discriminate|lia].
    + rewrite (H2 eq_refl). cbn. split; intros H; contradiction.
  - intros px st.
    destruct (migrate_company_inv E px (fun _ => True) st
                (fun _ _ _ => I) (Forall_true _ _ (fun _ => I)))
      as (_ & Hc & _ & He).
    unfold run_source.
    destruct (migrate_company E px st) as [[[]| |e] st1]; cbn [fst snd] in *.
    + split; [exact Hc|]. split; [intros st' [= <-]; reflexivity|discriminate].
    + split; [exact Hc|]. split; discriminate.
    + destruct (He e eq_refl) as [Hex Hs]. cbn [conn].
      split; [exact Hc|]. split; [discriminate|].
      intros e' st' [= <- <-]. split; [exact Hex|]. rewrite Hs, Hc. reflexivity.
  - destruct (db_connect E) as [msg|] eqn:Hdb.
    + rewrite (H1 msg eq_refl). cbn. discriminate.
    + rewrite (H2 eq_refl). cbn. discriminate.
  - reflexivity.
  - intros. apply sources_loop_cons.
  - intros. apply migrate_all_with_closes. assumption.
  - intros px st st' H. exact (migrate_company_tally E px st st' H).
Qed.

Lemma full_run_exit_status_witness :
  main env_offline
  = (1, State (RunStats 0 0 0 []) [PrintConnectError "Can't connect to MySQL server"]
          [] NotConnected (Locals 0 0 0 ∅))
  /\ fst (main env_broken) = 0
  /\ conn (snd (main env_broken)) = Closed
  /\ conn (snd (migrate_all_with env_broken exiting_source initial_state)) = Closed
  /\ fst (migrate_all_with env_broken exiting_source initial_state)
     = Raise (SystemExit 3)
  /\ (exists sent,
        posted (snd (migrate_company sample_env "kls" initial_state)) = [] ++ sent
        /\ stats_errors (stats (snd (migrate_company sample_env "kls" initial_state)))
           = 0 + count_failed sample_env 0 sent)
  /\ stats_errors (stats (snd (migrate_company sample_env "kls" initial_state))) = 1.
Proof.
  destruct (full_run_exit_status env_offline) as (H1 & _).
  destruct (full_run_exit_status env_broken) as (_ & H2 & _ & _ & _ & _ & _ & H8 & _).
  destruct (full_run_exit_status sample_env) as (_ & _ & _ & _ & _ & _ & _ & _ & H9).
  split; [apply H1; reflexivity|].
  destruct (H2 eq_refl) as (Hm & Hc & _).
  split; [rewrite Hm; reflexivity|]. split; [exact Hc|].
  split; [exact (proj1 (H8 exiting_source initial_state eq_refl))|].
  split; [reflexivity|].
  assert (Hr : migrate_company sample_env "kls" initial_state
               = (Normal tt, snd (migrate_company sample_env "kls" initial_state)))
    by (vm_compute; reflexivity).
  split.
  - destruct (H9 "kls" initial_state _ Hr) as (sent & Hp & He & _).
    exists sent. split; [exact Hp|exact He].
  - vm_compute. reflexivity.
Defined.

(** ** The order of year-first texts *)

Lemma N_of_digit n : N_of_ascii (digit_char n) = Z.to_N (48 + n mod 10).
Proof.
  unfold digit_char, ascii_of_nat.
  pose proof (Z.mod_pos_bound n 10 ltac:(lia)).
  rewrite N_ascii_embedding by lia. lia.
Qed.

Lemma ascii_compare_digit a b :
  Ascii.compare (digit_char a) (digit_char b) = (a mod 10 ?= b mod 10).
Proof.
  unfold Ascii.compare. rewrite !N_of_digit.
  pose proof (Z.mod_pos_bound a 10 ltac:(lia)).
  pose proof (Z.mod_pos_bound b 10 ltac:(lia)).
  rewrite Z2N.inj_compare by lia. apply Z.add_compare_mono_l.
Qed.

Lemma ascii_compare_refl c : Ascii.compare c c = Eq.
Proof. unfold Ascii.compare. apply N.compare_refl. Qed.

Lemma compare_pad2 a b r1 r2 :
  0 <= a < 100 -> 0 <= b < 100 ->
  String.compare (pad2 a +:+ r1) (pad2 b +:+ r2)
  = match a ?= b with
    | Eq => String.compare r1 r2
    | c => c
    end.
Proof.
  intros Ha Hb. unfold pad2.
  rewrite !append_String, !append_empty. cbn [String.compare].
  rewrite !ascii_compare_digit.
  destruct (Z.compare_spec ((a / 10) mod 10) ((b / 10) mod 10));
    destruct (Z.compare_spec (a mod 10) (b mod 10));
    destruct (Z.compare_spec a b); try reflexivity;
    exfalso; Z.div_mod_to_equations; lia.
Qed.

Lemma compare_pad4 a b r1 r2 :
  0 <= a < 10000 -> 0 <= b < 10000 ->
  String.compare (pad4 a +:+ r1) (pad4 b +:+ r2)
  = match a ?= b with
    | Eq => String.compare r1 r2
    | c => c
    end.
Proof.
  intros Ha Hb. unfold pad4.
  rewrite !append_String, !append_empty. cbn [String.compare].
  rewrite !ascii_compare_digit.
  destruct (Z.compare_spec ((a / 1000) mod 10) ((b / 1000) mod 10));
    destruct (Z.compare_spec ((a / 100) mod 10) ((b / 100) mod 10));
    destruct (Z.compare_spec ((a / 10) mod 10) ((b / 10) mod 10));
    destruct (Z.compare_spec (a mod 10) (b mod 10));
    destruct (Z.compare_spec a b); try reflexivity;
    exfalso; Z.div_mod_to_equations; lia.
Qed.

(** Year-first zero-padded texts of one separator are ordered as the
    dates they stand for. *)
Lemma render_ymd_compare sep d1 d2 :
  valid_date (year d1) (month d1) (day d1) = true ->
  valid_date (year d2) (month d2) (day d2) = true ->
  String.compare (render_ymd sep d1) (render_ymd sep d2) = date_compare d1 d2.
Proof.
  intros H1 H2.
  apply valid_date_bounds in H1 as (Hy1 & Hm1 & Hd1).
  apply valid_date_bounds in H2 as (Hy2 & Hm2 & Hd2).
  unfold render_ymd, date_compare.
  rewrite compare_pad4 by lia. destruct (year d1 ?= year d2); try reflexivity.
  cbn [String.compare]. rewrite ascii_compare_refl.
  rewrite compare_pad2 by lia. destruct (month d1 ?= month d2); try reflexivity.
  cbn [String.compare]. rewrite ascii_compare_refl.
  rewrite <- (append_nil_r (pad2 (day d1))), <- (append_nil_r (pad2 (day d2))).
  rewrite compare_pad2 by lia. destruct (day d1 ?= day d2); reflexivity.
Qed.

Lemma dated_year_first sep r d :
  sep = "-"%char \/ sep = "/"%char ->
  valid_date (year d) (month d) (day d) = true ->
  r !! "ScrapeDate" = Some (VStr (render_ymd sep d)) ->
  dated r = Some d /\ scrape_text r = render_ymd sep d.
Proof.
  intros Hsep Hv Hr.
  assert (Hg : row_get r "ScrapeDate" = VStr (render_ymd sep d))
    by (unfold row_get; rewrite Hr; reflexivity).
  unfold dated, row_date, scrape_text. rewrite Hr, Hg.
  split; [|reflexivity].
  assert (Ht : truthy (VStr (render_ymd sep d)) = true)
    by (unfold render_ymd, pad4; rewrite !append_String; reflexivity).
  rewrite Ht.
  destruct Hsep as [-> | ->];
    [rewrite (parse_ymd_dash d Hv)|rewrite (parse_ymd_slash d Hv)]; reflexivity.
Qed.

Lemma text_order_date_order sep r1 r2 :
  sep = "-"%char \/ sep = "/"%char ->
  year_first sep r1 -> year_first sep r2 ->
  listing_then_text r1 r2 -> listing_then_date r1 r2.
Proof.
  intros Hsep (d1 & Hv1 & Hr1) (d2 & Hv2 & Hr2) [Hlt | [Heq Hle]];
    [left; exact Hlt|right].
  split; [exact Heq|].
  destruct (dated_year_first sep r1 d1 Hsep Hv1 Hr1) as [-> Ht1].
  destruct (dated_year_first sep r2 d2 Hsep Hv2 Hr2) as [-> Ht2].
  rewrite Ht1, Ht2 in Hle. unfold String.leb in Hle.
  rewrite (render_ymd_compare sep d1 d2 Hv1 Hv2) in Hle.
  exact Hle.
Qed.

Lemma StronglySorted_impl {A} (R R' : relation A) (P : A -> Prop) l :
  (forall x y, P x -> P y -> R x y -> R' x y) ->
  Forall P l -> StronglySorted R l -> StronglySorted R' l.
Proof.
  intros HR HP Hs. induction Hs as [|x l Hs IH Hall]; [constructor|].
  apply Forall_cons in HP as [Hx HP].
  constructor; [exact (IH HP)|].
  rewrite Forall_forall in Hall, HP. apply Forall_forall. intros y Hy.
  apply HR; auto.
Qed.

(** Closed goals on the order of a few rows. *)
Ltac sorted_rows :=
  repeat first [ apply SSorted_nil | apply SSorted_cons
               | apply List.Forall_nil | apply List.Forall_cons ];
  first [ left; vm_compute; reflexivity
        | right; split; vm_compute; reflexivity ].

(** ** The rows as [ORDER BY] returns them *)

Lemma insert_by_perm le r l : Permutation (insert_by le r l) (r :: l).
Proof.
  induction l as [|x l IH]; cbn [insert_by]; [reflexivity|].
  destruct (le r x); [reflexivity|].
  rewrite IH. apply perm_swap.
Qed.

Lemma order_by_perm le l : Permutation (order_by le l) l.
Proof.
  induction l as [|x l IH]; cbn [order_by fold_right]; [reflexivity|].
  fold (order_by le l). rewrite insert_by_perm. constructor. exact IH.
Qed.

Lemma insert_by_sorted (le : row -> row -> bool) r l :
  (forall a b, le a b = true \/ le b a = true) ->
  (forall a b c, le a b = true -> le b c = true -> le a c = true) ->
  StronglySorted (fun a b => le a b = true) l ->
  StronglySorted (fun a b => le a b = true) (insert_by le r l).
Proof.
  intros Htot Htr Hs. induction Hs as [|x l Hs IH Hall]; cbn [insert_by].
  - constructor; constructor.
  - destruct (le r x) eqn:Hrx.
    + constructor; [constructor; assumption|].
      constructor; [exact Hrx|].
      rewrite Forall_forall in Hall. apply Forall_forall. intros y Hy.
      exact (Htr r x y Hrx (Hall y Hy)).
    + constructor; [exact IH|].
      assert (Hxr : le x r = true).
      { destruct (Htot r x) as [H|H]; [congruence|exact H]. }
      rewrite insert_by_perm. constructor; assumption.
Qed.

Lemma order_by_sorted (le : row -> row -> bool) l :
  (forall a b, le a b = true \/ le b a = true) ->
  (forall a b c, le a b = true -> le b c = true -> le a c = true) ->
  StronglySorted (fun a b => le a b = true) (order_by le l).
Proof.
  intros Htot Htr. induction l as [|x l IH]; cbn [order_by fold_right].
  - constructor.
  - apply insert_by_sorted; assumption.
Qed.

Lemma string_leb_trans a b c :
  String.leb a b = true -> String.leb b c = true -> String.leb a c = true.
Proof.
  unfold String.leb. revert b c.
  induction a as [|x a IH]; intros [|y b] [|z c]; cbn [String.compare];
    try (intros; reflexivity); try (intros; discriminate).
  unfold Ascii.compare.
  destruct (N.compare_spec (N_of_ascii x) (N_of_ascii y)) as [Hxy|Hxy|Hxy];
    destruct (N.compare_spec (N_of_ascii y) (N_of_ascii z)) as [Hyz|Hyz|Hyz];
    destruct (N.compare_spec (N_of_ascii x) (N_of_ascii z)) as [Hxz|Hxz|Hxz];
    try (intros; reflexivity); try (intros; discriminate);
    try (exfalso; lia).
  apply IH.
Qed.

Lemma by_id_then_text_order r1 r2 :
  by_id_then_text r1 r2 = true <-> listing_then_text r1 r2.
Proof.
  unfold by_id_then_text, listing_then_text.
  rewrite orb_true_iff, andb_true_iff, Z.ltb_lt, Z.eqb_eq. reflexivity.
Qed.

Lemma by_id_then_text_total a b :
  by_id_then_text a b = true \/ by_id_then_text b a = true.
Proof.
  rewrite !by_id_then_text_order. unfold listing_then_text.
  destruct (Z.lt_total (listing_id a) (listing_id b)) as [H|[H|H]].
  - left. left. exact H.
  - destruct (String.leb_total (scrape_text a) (scrape_text b)) as [Hl|Hl].
    + left. right. split; assumption.
    + right. right. split; [symmetry; exact H|exact Hl].
  - right. left. exact H.
Qed.

Lemma by_id_then_text_trans a b c :
  by_id_then_text a b = true -> by_id_then_text b c = true ->
  by_id_then_text a c = true.
Proof.
  rewrite !by_id_then_text_order. unfold listing_then_text.
  intros [H1|[H1 L1]] [H2|[H2 L2]]; try (left; lia).
  right. split; [lia|]. exact (string_leb_trans _ _ _ L1 L2).
Qed.

Lemma order_by_text_sorted l :
  StronglySorted listing_then_text (order_by by_id_then_text l).
Proof.
  apply (StronglySorted_impl (fun a b => by_id_then_text a b = true)
           listing_then_text (fun _ => True)).
  - intros x y _ _. apply by_id_then_text_order.
  - apply Forall_forall. intros; exact I.
  - apply order_by_sorted;
      [exact by_id_then_text_total|exact by_id_then_text_trans].
Qed.

(** C8, as stated, fails twice.  The fetched join rows need not be in
    the order of the event dates: two date-events of one listing
    written day first come back from [ORDER BY j.id, d.ScrapeDate] in
    the order of their texts, the first of February before the
    fifteenth of January, and are submitted in that order.  And two
    runs that read the same rows and get the same answers from the
    API, on two different days, do not send the same records, because
    the record of a listing without date-events and without a usable
    [DateAdded] carries the current date. *)
Lemma identical_data_counterexample :
  let E1 := env_on (Date 2024 5 17) in
  let E2 := env_on (Date 2024 5 18) in
  (fetch_join E1 = fetch_join E2
   /\ fetch_no_dates E1 = fetch_no_dates E2
   /\ api E1 = api E2
   /\ posted (snd (migrate_company E1 "kls" initial_state))
      <> posted (snd (migrate_company E2 "kls" initial_state)))
  /\ (fetch_join env_day_first "jobs_kls_dates" "jobs_kls_listings"
      = Rows [row_feb; row_jan]
      /\ order_by by_id_then_text [row_jan; row_feb] = [row_feb; row_jan]
      /\ StronglySorted listing_then_text [row_feb; row_jan]
      /\ map (fun req => dict_get "scrape_date" (snd req))
           (posted (snd (migrate_company env_day_first "kls" initial_state)))
         = [Some (JStr "2023-02-01"); Some (JStr "2023-01-15")]
      /\ ~ StronglySorted listing_then_date [row_feb; row_jan]).
Proof.
  cbn zeta. split.
  - repeat split. vm_compute. discriminate.
  - split; [reflexivity|]. split; [vm_compute; reflexivity|].
    split; [|split].
    + sorted_rows.
    + vm_compute. reflexivity.
    + intros H. apply StronglySorted_inv in H as [_ H].
      apply Forall_inv in H. destruct H as [H | [_ H]].
      * vm_compute in H. discriminate H.
      * vm_compute in H. discriminate H.
Qed.

(** C8, amended.  The requests of the join loop are those of the
    submitted rows among the first [k] fetched rows, in the order of
    the fetched rows ([k] is their number when the loop returns), so
    that rows fetched in an order are submitted in that order.  The
    rows that [ORDER BY j.id, d.ScrapeDate] returns are the joined
    rows in the order of their keys, whatever the collation, and so
    are the rows submitted: by listing identifier then [ScrapeDate]
    text for integer identifiers and texts compared by code points,
    which is by listing identifier then event date when every
    [ScrapeDate] is a year-first zero-padded text with one separator.
    The requests do not depend on the answers of the API or on the
    counters; and two runs of one source that read the same rows on
    the same day send the same sequence of records. *)
Theorem submissions_follow_fetched_rows
    (E : env) (company_prefix company_name : string) (rows : list row)
    (st : state) :
  (exists k,
     (k <= length rows)%nat
     /\ posted (snd (for_each rows (join_body E company_prefix company_name) st))
        = posted st
          ++ map (request_of E company_prefix company_name)
               (submitted_rows (take k rows))
     /\ (fst (for_each rows (join_body E company_prefix company_name) st)
         = Normal tt -> k = length rows))
  /\ (forall R : relation row,
        StronglySorted R rows ->
        StronglySorted R (map fst (submitted_rows rows)))
  /\ (StronglySorted listing_then_date rows ->
      StronglySorted listing_then_date (map fst (submitted_rows rows)))
  /\ (forall sep,
        sep = "-"%char \/ sep = "/"%char ->
        Forall (year_first sep) rows ->
        StronglySorted listing_then_text rows ->
        StronglySorted listing_then_date rows
        /\ map fst (submitted_rows rows) = rows)
  /\ (forall r d,
        (r, d) ∈ submitted_rows rows ->
        dated r = Some d
        /\ dict_get "scrape_date"
             (snd (request_of E company_prefix company_name (r, d)))
           = Some (JStr (isoformat d)))
  /\ (forall E2 st2,
        api_url E2 = api_url E -> posted st2 = posted st ->
        posted (snd (for_each rows (join_body E2 company_prefix company_name) st2))
        = posted (snd (for_each rows (join_body E company_prefix company_name) st)))
  /\ (forall E2 st2,
        same_data E2 E -> posted st2 = posted st ->
        posted (snd (migrate_company E2 company_prefix st2))
        = posted (snd (migrate_company E company_prefix st)))
  /\ (forall le : row -> row -> bool,
        (forall a b, le a b = true \/ le b a = true) ->
        (forall a b c, le a b = true -> le b c = true -> le a c = true) ->
        Permutation (order_by le rows) rows
        /\ StronglySorted (fun a b => le a b = true) (order_by le rows)
        /\ StronglySorted (fun a b => le a b = true)
             (map fst (submitted_rows (order_by le rows))))
  /\ ((forall a b, by_id_then_text a b = true <-> listing_then_text a b)
      /\ StronglySorted listing_then_text (order_by by_id_then_text rows)
      /\ StronglySorted listing_then_text
           (map fst (submitted_rows (order_by by_id_then_text rows)))
      /\ (forall sep,
            sep = "-"%char \/ sep = "/"%char ->
            Forall (year_first sep) rows ->
            StronglySorted listing_then_date (order_by by_id_then_text rows)
            /\ map fst (submitted_rows (order_by by_id_then_text rows))
               = order_by by_id_then_text rows))
  /\ (forall nd,
        company_of company_prefix = Return company_name ->
        fetch_join E ("jobs_" +:+ company_prefix +:+ "_dates")
          ("jobs_" +:+ company_prefix +:+ "_listings")
        = Rows (order_by by_id_then_text rows) ->
        fetch_no_dates E ("jobs_" +:+ company_prefix +:+ "_dates")
          ("jobs_" +:+ company_prefix +:+ "_listings") = Rows nd ->
        Forall row_wf rows ->
        exists st',
          migrate_company E company_prefix st = (Normal tt, st')
          /\ posted st'
             = posted st
               ++ map (request_of E company_prefix company_name)
                    (submitted_rows (order_by by_id_then_text rows))
               ++ map (dateless_request E company_prefix company_name) nd).
Proof.
  assert (Hyear : forall sep l,
            sep = "-"%char \/ sep = "/"%char ->
            Forall (year_first sep) l ->
            StronglySorted listing_then_text l ->
            StronglySorted listing_then_date l
            /\ map fst (submitted_rows l) = l).
  { intros sep l Hsep Hyf Hs. split.
    - apply (StronglySorted_impl listing_then_text listing_then_date
               (year_first sep)); [|exact Hyf|exact Hs].
      intros x y Hx Hy. apply (text_order_date_order sep); assumption.
    - apply submitted_rows_all. apply Forall_forall.
      rewrite Forall_forall in Hyf. intros r Hr.
      destruct (Hyf r Hr) as (d & Hv & Hd).
      exists d. apply (dated_year_first sep r d Hsep Hv Hd). }
  split; [apply join_loop_prefix|].
  split; [intros R; apply submitted_rows_sorted|].
  split; [apply submitted_rows_sorted|].
  split; [intros sep; apply Hyear|].
  split; [|split; [|split; [|split; [|split]]]].
  - intros r d Hin. split; [apply (submitted_rows_dated _ _ _ Hin)|].
    unfold request_of. cbn [fst snd].
    apply build_payload_fixed; apply job_data_reserved; auto.
  - intros E2 st2 Hurl Hp. apply join_loop_lockstep; assumption.
  - intros E2 st2 Hsame Hp. apply migrate_company_lockstep; assumption.
  - intros le Htot Htr.
    split; [apply order_by_perm|].
    split; [apply order_by_sorted; assumption|].
    apply submitted_rows_sorted. apply order_by_sorted; assumption.
  - split; [exact by_id_then_text_order|].
    split; [apply order_by_text_sorted|].
    split; [apply submitted_rows_sorted; apply order_by_text_sorted|].
    intros sep Hsep Hyf. apply (Hyear sep _ Hsep).
    + rewrite order_by_perm. exact Hyf.
    + apply order_by_text_sorted.
  - intros nd Hc Hj Hn Hwf.
    assert (Hwf' : Forall row_wf (order_by by_id_then_text rows))
      by (rewrite order_by_perm; exact Hwf).
    destruct (migrate_company_run E company_prefix company_name _ nd st
                Hc Hj Hn Hwf') as (st2 & Hrun & Hp & _).
    exists (finish_source company_name st2).
    split; [exact Hrun|exact Hp].
Qed.

(** The sample source, three join rows of two listings in the order of
    the claim, sent to an API that answers and to one that cannot be
    reached: the same records, in the order of the rows.  And a source
    whose three date-events, written year first, are joined in another
    order: [ORDER BY] returns them by listing then date, and they are
    submitted so. *)
Lemma submissions_follow_fetched_rows_witness :
  (StronglySorted listing_then_date [row_a1; row_a2; row_b1]
   /\ StronglySorted listing_then_date
        (map fst (submitted_rows [row_a1; row_a2; row_b1]))
   /\ map fst (submitted_rows [row_a1; row_a2; row_b1]) = [row_a1; row_a2]
   /\ posted (snd (migrate_company sample_env_down "kls" initial_state))
      = posted (snd (migrate_company sample_env "kls" initial_state))
   /\ map (fun req => dict_get "scrape_date" (snd req))
        (posted (snd (migrate_company sample_env "kls" initial_state)))
      = [Some (JStr "2023-01-15"); Some (JStr "2023-01-16");
         Some (JStr "2023-02-01"); Some (JStr "2024-05-17")])
  /\ (order_by by_id_then_text [row_y3; row_y2; row_a1] = [row_a1; row_y2; row_y3]
      /\ StronglySorted listing_then_date
           (order_by by_id_then_text [row_y3; row_y2; row_a1])
      /\ map fst (submitted_rows (order_by by_id_then_text [row_y3; row_y2; row_a1]))
         = order_by by_id_then_text [row_y3; row_y2; row_a1]
      /\ exists st',
           migrate_company env_ordered "kls" initial_state = (Normal tt, st')
           /\ posted st'
              = map (request_of env_ordered "kls" "KLS")
                  (submitted_rows
                     (order_by by_id_then_text [row_y3; row_y2; row_a1]))
                ++ map (dateless_request env_ordered "kls" "KLS") [row_d]
           /\ map (fun req => dict_get "scrape_date" (snd req)) (posted st')
              = [Some (JStr "2023-01-15"); Some (JStr "2023-01-16");
                 Some (JStr "2022-12-01"); Some (JStr "2024-05-17")]).
Proof.
  split.
  - destruct (submissions_follow_fetched_rows sample_env "kls" "KLS"
                [row_a1; row_a2; row_b1] initial_state)
      as (_ & _ & Hs & _ & _ & _ & H & _).
    assert (Hsorted : StronglySorted listing_then_date [row_a1; row_a2; row_b1]).
    { sorted_rows. }
    split; [exact Hsorted|]. split; [exact (Hs Hsorted)|].
    split; [vm_compute; reflexivity|].
    split; [|vm_compute; reflexivity].
    apply H.
    + repeat split.
    + reflexivity.
  - destruct (submissions_follow_fetched_rows env_ordered "kls" "KLS"
                [row_y3; row_y2; row_a1] initial_state)
      as (_ & _ & _ & _ & _ & _ & _ & _ & (_ & _ & _ & Hy) & Hrun).
    assert (Hyf : Forall (year_first "-") [row_y3; row_y2; row_a1]).
    { repeat first [apply List.Forall_cons | apply List.Forall_nil].
      - exists (Date 2022 12 1). split; vm_compute; reflexivity.
      - exists (Date 2023 1 16). split; vm_compute; reflexivity.
      - exists (Date 2023 1 15). split; vm_compute; reflexivity. }
    destruct (Hy "-"%char (or_introl eq_refl) Hyf) as [Hsd Hall].
    split; [vm_compute; reflexivity|].
    split; [exact Hsd|]. split; [exact Hall|].
    assert (Hwf : Forall row_wf [row_y3; row_y2; row_a1]).
    { repeat constructor; unfold row_wf; vm_compute; eauto. }
    destruct (Hrun [row_d] eq_refl eq_refl eq_refl Hwf) as (st' & Hm & Hp).
    exists st'. split; [exact Hm|]. split; [exact Hp|].
    rewrite Hp. vm_compute. reflexivity.
Defined.
